(** * FixLoop: the test-output pipeline, the framework selector and the
      suggestion batch, embedded from [errorAnalyzer.ts] (classes
      [ErrorAnalyzer] and [TestRunner]) and [aiTestingService.ts].

    Conventions of the embedding.
    - A JavaScript string is a [string] holding the text's UTF-8 encoding, so
      the glyphs U+2715 and U+2717 are three bytes each; a surrogate that
      stands alone takes the three bytes the scheme gives its code point.
      Sub-string search on encodings agrees with sub-string search on the
      text.  [s.length] and [s.substring] count UTF-16 code units: one for a
      character of one to three bytes, two for a character of four bytes;
      [s.length > 0] is read off the bytes.  [trim] takes off the white
      space and line terminators of the language, in their encodings.  Case
      mapping ([toLowerCase], the [i] flag) acts on the letters A-Z and
      leaves every other byte alone; [.] rejects line feed and carriage
      return.
    - An asynchronous method is the function from the outcomes of the calls
      it awaits (file probes, the quick pick, the child process, the HTTP
      calls) to its result; a [try]/[catch] is a match on an [option].
    - The [TestRunner] instance is the record of its one mutable field; the
      output channel and the quick pick are a trace of events. *)

From Stdlib Require Import ZArith QArith Qround Ascii String DecimalString Sorted.
From stdpp Require Import gmap strings list fin_maps.

Local Open Scope stdpp_scope.
Set Warnings "-register-all".
Set Default Proof Using "Type".
Arguments String.append !_ _ / : simpl nomatch.


(** ** The JavaScript string and regular-expression primitives in use *)

Module JS.

Definition truthy (s : string) : bool :=
  match s with EmptyString => false | String _ _ => true end.

Definition code (c : ascii) : N := N_of_ascii c.

Definition between (lo hi : N) (c : ascii) : bool :=
  (lo <=? code c)%N && (code c <=? hi)%N.

Definition isUpper (c : ascii) : bool := between 65 90 c.
Definition isLower (c : ascii) : bool := between 97 122 c.
Definition isDigit (c : ascii) : bool := between 48 57 c.

(** White space of one byte: TAB, LF, VT, FF, CR and SPACE. *)
Definition isSpace (c : ascii) : bool :=
  between 9 13 c || (code c =? 32)%N.

(** White space of two bytes: U+00A0, which is C2 A0. *)
Definition isSpace2 (c d : ascii) : bool :=
  (code c =? 194)%N && (code d =? 160)%N.

(** White space of three bytes: U+1680 (E1 9A 80), U+2000 to U+200A
    (E2 80 80 to E2 80 8A), U+2028, U+2029 and U+202F (E2 80 A8, A9, AF),
    U+205F (E2 81 9F), U+3000 (E3 80 80) and U+FEFF (EF BB BF). *)
Definition isSpace3 (c d e : ascii) : bool :=
  ((code c =? 225)%N && (code d =? 154)%N && (code e =? 128)%N)
  || ((code c =? 226)%N && (code d =? 128)%N
      && (between 128 138 e || (code e =? 168)%N || (code e =? 169)%N
          || (code e =? 175)%N))
  || ((code c =? 226)%N && (code d =? 129)%N && (code e =? 159)%N)
  || ((code c =? 227)%N && (code d =? 128)%N && (code e =? 128)%N)
  || ((code c =? 239)%N && (code d =? 187)%N && (code e =? 191)%N).

(** A byte that continues a character: 10xxxxxx. *)
Definition isContinuation (c : ascii) : bool := between 128 191 c.

(** The UTF-16 code units of the character a byte opens: two for a
    character of four bytes (a surrogate pair), none for a byte that
    continues a character. *)
Definition units (c : ascii) : nat :=
  if isContinuation c then 0 else if (240 <=? code c)%N then 2 else 1.

(** [s.length] *)
Fixpoint lengthOf (s : string) : nat :=
  match s with
  | EmptyString => 0
  | String c s' => units c + lengthOf s'
  end.

Definition lowerChar (c : ascii) : ascii :=
  if isUpper c then ascii_of_N (code c + 32) else c.

Fixpoint toLowerCase (s : string) : string :=
  match s with
  | EmptyString => EmptyString
  | String c s' => String (lowerChar c) (toLowerCase s')
  end.

Fixpoint startsWith (s p : string) {struct p} : bool :=
  match p, s with
  | EmptyString, _ => true
  | String a p', String b s' => if Ascii.eqb a b then startsWith s' p' else false
  | String _ _, EmptyString => false
  end.

(** [s.includes(t)] *)
Fixpoint includes (s t : string) : bool :=
  if startsWith s t then true
  else match s with
       | EmptyString => false
       | String _ s' => includes s' t
       end.

Fixpoint drop (n : nat) (s : string) : string :=
  match n, s with
  | O, _ => s
  | S n', String _ s' => drop n' s'
  | S _, EmptyString => EmptyString
  end.

Fixpoint take (n : nat) (s : string) : string :=
  match n, s with
  | S n', String c s' => String c (take n' s')
  | _, _ => EmptyString
  end.

(** [s.endsWith(p)] *)
Definition endsWith (s p : string) : bool :=
  (String.length p <=? String.length s)%nat
  && String.eqb (drop (String.length s - String.length p) s) p.

(** The high surrogate of the character of four bytes that opens with
    [b0 b1 b2], in the three bytes of its own encoding: the surrogate is
    D800 + (cp >> 10) - 40 (hexadecimal), and the last byte of the
    character holds none of those bits. *)
Definition highSurrogate (b0 b1 b2 : ascii) : string :=
  let top := ((code b0 mod 8) * 256 + (code b1 mod 64) * 4
              + (code b2 mod 64) / 16)%N in
  let hs := (55296 + top - 64)%N in
  String (ascii_of_N 237)
    (String (ascii_of_N (128 + (hs / 64) mod 64))
       (String (ascii_of_N (128 + hs mod 64)) EmptyString)).

(** [s.substring(0, n)]: the first [n] code units.  A cut that falls inside
    a surrogate pair leaves the high surrogate alone. *)
Fixpoint substring0 (n : nat) (s : string) : string :=
  match s with
  | EmptyString => EmptyString
  | String c s' =>
      if isContinuation c then String c (substring0 n s')
      else
        match n with
        | O => EmptyString
        | S n' =>
            if (240 <=? code c)%N then
              match n' with
              | O =>
                  match s' with
                  | String d (String e _) => highSurrogate c d e
                  | _ => EmptyString
                  end
              | S n'' => String c (substring0 n'' s')
              end
            else String c (substring0 n' s')
        end
  end.

Fixpoint trimStart (s : string) : string :=
  match s with
  | EmptyString => EmptyString
  | String c s1 =>
      if isSpace c then trimStart s1
      else
        match s1 with
        | String d s2 =>
            if isSpace2 c d then trimStart s2
            else
              match s2 with
              | String e s3 => if isSpace3 c d e then trimStart s3 else s
              | EmptyString => s
              end
        | EmptyString => s
        end
  end.

(** The text is white space from end to end. *)
Fixpoint allSpace (s : string) : bool :=
  match s with
  | EmptyString => true
  | String c s1 =>
      if isSpace c then allSpace s1
      else
        match s1 with
        | String d s2 =>
            if isSpace2 c d then allSpace s2
            else
              match s2 with
              | String e s3 => if isSpace3 c d e then allSpace s3 else false
              | EmptyString => false
              end
        | EmptyString => false
        end
  end.

Fixpoint trimEnd (s : string) : string :=
  match s with
  | EmptyString => EmptyString
  | String c s' => if allSpace s then EmptyString else String c (trimEnd s')
  end.

Definition trim (s : string) : string := trimEnd (trimStart s).

(** [s.split(sep)] for a non-empty separator (both call sites).  [skip]
    counts the characters of a separator still to be passed over. *)
Fixpoint split_from (sep : string) (skip : nat) (s : string) : list string :=
  match s with
  | EmptyString => [EmptyString]
  | String c s' =>
      match skip with
      | S k => split_from sep k s'
      | O =>
          if startsWith s sep
          then EmptyString :: split_from sep (String.length sep - 1) s'
          else match split_from sep 0 s' with
               | seg :: rest => String c seg :: rest
               | [] => [String c EmptyString]
               end
      end
  end.

Definition split (sep s : string) : list string := split_from sep 0 s.

(** [parts.join(sep)] *)
Fixpoint join (sep : string) (parts : list string) : string :=
  match parts with
  | [] => EmptyString
  | [p] => p
  | p :: rest => p +:+ sep +:+ join sep rest
  end.

(** [s.replace(pat, by)] with a string pattern: the first occurrence only. *)
Fixpoint replaceFirst (pat by_ s : string) : string :=
  if startsWith s pat then by_ +:+ drop (String.length pat) s
  else match s with
       | EmptyString => EmptyString
       | String c s' => String c (replaceFirst pat by_ s')
       end.

(** [parseInt] on a run of decimal digits. *)
Fixpoint parseDigits (acc : N) (s : string) : N :=
  match s with
  | EmptyString => acc
  | String c s' =>
      if isDigit c then parseDigits (acc * 10 + (code c - 48)) s' else acc
  end.

Definition parseInt (s : string) : N := parseDigits 0 s.

(** Decimal rendering of a number inside a template literal. *)
Definition showN (n : N) : string :=
  NilZero.string_of_uint (N.to_uint n).

(** *** Regular expressions

    The fragment the sources use: literals, the classes [.], [\d], [\w]
    and [[\s\S]] under a greedy or lazy repetition, sequence, alternation
    and capturing groups, matched by backtracking with the priorities of
    the language (left alternative first, greedy before shorter, lazy
    before longer). *)

Inductive cclass := CDot | CDigit | CWord | CAll.

Definition inClass (k : cclass) (c : ascii) : bool :=
  match k with
  | CDot => negb ((code c =? 10)%N || (code c =? 13)%N)
  | CDigit => isDigit c
  | CWord => isUpper c || isLower c || isDigit c || (code c =? 95)%N
  | CAll => true
  end.

Inductive regex :=
| REps
| RLit (s : string)
| RRep (greedy : bool) (min : nat) (k : cclass)
| RSeq (r1 r2 : regex)
| RAlt (r1 r2 : regex)
| RGroup (i : nat) (r : regex).

Record RegExp := { source : regex; ignoreCase : bool }.

Definition captures := list (nat * string).

Definition group (i : nat) (cs : captures) : string :=
  match List.find (fun p => Nat.eqb (fst p) i) cs with
  | Some p => snd p
  | None => EmptyString
  end.

Definition charEq (ic : bool) (a b : ascii) : bool :=
  if ic then Ascii.eqb (lowerChar a) (lowerChar b) else Ascii.eqb a b.

(** The remainder of [s] after the literal [p], if [s] starts with it. *)
Fixpoint eatLit (ic : bool) (p s : string) {struct p} : option string :=
  match p, s with
  | EmptyString, _ => Some s
  | String a p', String b s' => if charEq ic a b then eatLit ic p' s' else None
  | String _ _, EmptyString => None
  end.

Section Matcher.
Context {R : Type}.

Fixpoint repGreedy (k : cclass) (min : nat) (s : string)
         (cont : string -> option R) : option R :=
  let stop := match min with O => cont s | S _ => None end in
  match s with
  | String c s' =>
      if inClass k c then
        match repGreedy k (Nat.pred min) s' cont with
        | Some r => Some r
        | None => stop
        end
      else stop
  | EmptyString => stop
  end.

Fixpoint repLazy (k : cclass) (min : nat) (s : string)
         (cont : string -> option R) : option R :=
  let more :=
    match s with
    | String c s' =>
        if inClass k c then repLazy k (Nat.pred min) s' cont else None
    | EmptyString => None
    end in
  match min with
  | O => match cont s with Some r => Some r | None => more end
  | S _ => more
  end.

Fixpoint matchAt (ic : bool) (r : regex) (s : string) (cs : captures)
         (cont : string -> captures -> option R) : option R :=
  match r with
  | REps => cont s cs
  | RLit p =>
      match eatLit ic p s with
      | Some s' => cont s' cs
      | None => None
      end
  | RRep true min k => repGreedy k min s (fun s' => cont s' cs)
  | RRep false min k => repLazy k min s (fun s' => cont s' cs)
  | RSeq r1 r2 =>
      matchAt ic r1 s cs (fun s' cs' => matchAt ic r2 s' cs' cont)
  | RAlt r1 r2 =>
      match matchAt ic r1 s cs cont with
      | Some x => Some x
      | None => matchAt ic r2 s cs cont
      end
  | RGroup i r1 =>
      matchAt ic r1 s cs (fun s' cs' =>
        cont s' ((i, take (String.length s - String.length s') s) :: cs'))
  end.
End Matcher.

(** A match anchored at the start of [s]: the text matched and the groups. *)
Definition matchHere (re : RegExp) (s : string) : option (string * captures) :=
  matchAt (ignoreCase re) (source re) s []
    (fun s' cs => Some (take (String.length s - String.length s') s, cs)).

(** [re.exec(s)] / [s.match(re)] without the [g] flag: leftmost match. *)
Fixpoint exec (re : RegExp) (s : string) : option (string * captures) :=
  match matchHere re s with
  | Some m => Some m
  | None => match s with
            | EmptyString => None
            | String _ s' => exec re s'
            end
  end.

(** [re.test(s)] *)
Definition test (re : RegExp) (s : string) : bool :=
  match exec re s with Some _ => true | None => false end.

(** [s.match(re)] with the [g] flag: every match, left to right, the next
    search starting where the last match ended (one further on after an
    empty match); [[]] stands for [null]. *)
Fixpoint matchAll_from (re : RegExp) (skip : nat) (s : string) : list string :=
  match skip with
  | S k => match s with
           | EmptyString => []
           | String _ s' => matchAll_from re k s'
           end
  | O =>
      match matchHere re s, s with
      | Some (m, _), String _ s' => m :: matchAll_from re (String.length m - 1) s'
      | Some (m, _), EmptyString => [m]
      | None, String _ s' => matchAll_from re 0 s'
      | None, EmptyString => []
      end
  end.

Definition matchAll (re : RegExp) (s : string) : list string :=
  matchAll_from re 0 s.

(** [s.replace(re, '')] with the [g] flag. *)
Fixpoint removeAll_from (re : RegExp) (skip : nat) (s : string) : string :=
  match s with
  | EmptyString => EmptyString
  | String c s' =>
      match skip with
      | S k => removeAll_from re k s'
      | O =>
          match matchHere re s with
          | Some (String _ m', _) => removeAll_from re (String.length m') s'
          | _ => String c (removeAll_from re 0 s')
          end
      end
  end.

Definition removeAll (re : RegExp) (s : string) : string :=
  removeAll_from re 0 s.

End JS.


(** ** Objects used as dictionaries

    An object literal [{}] filled by assignments [o[k] = v]: its own
    properties in insertion order, each key once.  Reading a key that is not
    an own property falls through to [Object.prototype]. *)

Module JSObject.

Definition t (T : Type) : Type := list (string * T).

(** The own property [k], if there is one. *)
Fixpoint get {T} (o : t T) (k : string) : option T :=
  match o with
  | [] => None
  | (k', v) :: o' => if String.eqb k' k then Some v else get o' k
  end.

(** [o[k] = v]: an existing property keeps its place, a new one goes last. *)
Fixpoint set {T} (o : t T) (k : string) (v : T) : t T :=
  match o with
  | [] => [(k, v)]
  | (k', v') :: o' =>
      if String.eqb k' k then (k', v) :: o' else (k', v') :: set o' k v
  end.

(** The property names of [Object.prototype]; reading one of them on an
    object that has no own property of that name gives a function (for
    [__proto__], the prototype itself), which is truthy. *)
Definition prototypeKeys : list string :=
  [ "constructor"; "__defineGetter__"; "__defineSetter__"; "hasOwnProperty";
    "__lookupGetter__"; "__lookupSetter__"; "isPrototypeOf";
    "propertyIsEnumerable"; "toString"; "valueOf"; "__proto__";
    "toLocaleString" ].

Definition inherited (k : string) : bool :=
  existsb (String.eqb k) prototypeKeys.

Fixpoint allDigits (s : string) : bool :=
  match s with
  | EmptyString => true
  | String c s' => JS.isDigit c && allDigits s'
  end.

(** An array index: the canonical decimal form of an integer from 0 to
    2^32 - 2. *)
Definition isArrayIndex (k : string) : bool :=
  match k with
  | EmptyString => false
  | String c rest =>
      allDigits k
      && (negb (Ascii.eqb c "0") || String.eqb rest EmptyString)
      && (JS.parseInt k <=? 4294967294)%N
  end.

(** Insertion of an array index among array indices in ascending order. *)
Fixpoint insertIndex (k : string) (sorted : list string) : list string :=
  match sorted with
  | [] => [k]
  | k' :: rest =>
      if (JS.parseInt k <=? JS.parseInt k')%N then k :: sorted
      else k' :: insertIndex k rest
  end.

(** [Object.keys(o)]: the array indices in ascending order, then the other
    names in insertion order. *)
Definition keys {T} (o : t T) : list string :=
  let names := map fst o in
  foldr insertIndex [] (List.filter isArrayIndex names)
  ++ List.filter (fun k => negb (isArrayIndex k)) names.

End JSObject.

(** What a call comes to: a value, or an exception. *)
Inductive outcome (A : Type) :=
| Returns (a : A)
| Throws (error : string).
Arguments Returns {A} a.
Arguments Throws {A} error.


(** ** [errorAnalyzer.ts], class [ErrorAnalyzer] *)

(** [interface TestError] *)
Record TestError := {
  file : string;
  line : N;
  message : string;
  type : string
}.

Module ErrorAnalyzer.

Inductive Severity := low | medium | high | critical.

(** [getErrorCategory]: the chain of ifs, first hit wins.  The needles
    ['toBe'] and ['toEqual'] are looked for in the lower-cased message, as
    the source does. *)
Definition getErrorCategory (message : string) : string :=
  let lowerMessage := JS.toLowerCase message in
  let has := JS.includes lowerMessage in
  if has "syntaxerror" || has "syntax error" then "Syntax Error"
  else if has "typeerror" || has "type error" then "Type Error"
  else if has "referenceerror" || has "reference error" then "Reference Error"
  else if has "assertionerror" || has "assertion" || has "expected"
          || has "toBe" || has "toEqual" then "Test Assertion"
  else if has "undefined" || has "null" || has "cannot read property"
          || has "cannot access before initialization" then "Undefined Variable"
  else if has "module" || has "import" || has "require"
          || has "cannot resolve" then "Module Error"
  else if has "promise" || has "async" || has "await"
          || has "unhandled rejection" then "Async Error"
  else if has "network" || has "fetch" || has "xhr" || has "timeout"
       then "Network Error"
  else if has "file" || has "path" || has "directory" || has "enoent"
       then "File System Error"
  else "Other".

(** [categories[category] = (categories[category] || 0) + 1] *)
Definition bump (categories : gmap string nat) (category : string)
  : gmap string nat :=
  <[category := default 0 (categories !! category) + 1]> categories.

(** [categorizeErrors]: the [forEach] over the errors, from the empty
    object. *)
Definition categorizeErrors (errors : list TestError) : gmap string nat :=
  foldl (fun categories error => bump categories (getErrorCategory (message error)))
        ∅ errors.

(** [errorTypes[key] > n]; a missing key reads [undefined], and
    [undefined > n] is false. *)
Definition exceeds (errorTypes : gmap string nat) (key : string) (n : nat) : bool :=
  match errorTypes !! key with
  | Some c => (n <? c)%nat
  | None => false
  end.

Definition assessSeverity (errors : list TestError) : Severity :=
  let errorCount := length errors in
  let errorTypes := categorizeErrors errors in
  if (15 <? errorCount)%nat || exceeds errorTypes "Syntax Error" 0 then critical
  else if (10 <? errorCount)%nat || exceeds errorTypes "Reference Error" 2 then high
  else if (5 <? errorCount)%nat || exceeds errorTypes "Type Error" 1 then medium
  else low.

(** The fields of the object [analyzeErrors] builds that the properties
    below speak about. *)
Record ErrorAnalysis := {
  errorCount : nat;
  errorTypes : gmap string nat;
  severity : Severity
}.

Definition analyzeErrors (errors : list TestError) : ErrorAnalysis :=
  {| errorCount := length errors;
     errorTypes := categorizeErrors errors;
     severity := assessSeverity errors |}.

(** *** The rest of the class *)

(** [groupErrorsByFile].  [!grouped[error.file]] is false for a name
    inherited from [Object.prototype], so no array is put there and the
    [push] that follows is a call of [undefined]. *)
Fixpoint groupInto (grouped : JSObject.t (list TestError)) (errors : list TestError)
  : outcome (JSObject.t (list TestError)) :=
  match errors with
  | [] => Returns grouped
  | error :: rest =>
      match JSObject.get grouped (file error) with
      | Some bucket =>
          groupInto (JSObject.set grouped (file error) (bucket ++ [error])) rest
      | None =>
          if JSObject.inherited (file error)
          then Throws "TypeError: grouped[error.file].push is not a function"
          else groupInto (JSObject.set grouped (file error) [error]) rest
      end
  end.

Definition groupErrorsByFile (errors : list TestError)
  : outcome (JSObject.t (list TestError)) :=
  groupInto [] errors.

(** [list.some(x => x.includes(a) || x.includes(b) || ...)] *)
Definition someIncludes (needles : list string) (texts : list string) : bool :=
  existsb (fun text => existsb (JS.includes text) needles) texts.

Definition pattern (hit : bool) (name : string) : list string :=
  if hit then [name] else [].

Definition findPatterns (errors : list TestError) : outcome (list string) :=
  let messages := map (fun e => JS.toLowerCase (message e)) errors in
  let files := map file errors in
  let patterns :=
    pattern (someIncludes ["undefined"; "null"] messages)
            "Undefined variables detected"
    ++ pattern (someIncludes ["async"; "promise"; "await"] messages)
               "Async/Promise related issues"
    ++ pattern (someIncludes ["import"; "require"; "module"] messages)
               "Module import/require issues"
    ++ pattern (someIncludes ["timeout"; "network"] messages)
               "Network/timeout issues"
    ++ pattern (someIncludes ["mock"; "spy"; "stub"] messages)
               "Testing mock/spy issues"
    ++ pattern (someIncludes ["test"; "spec"] files)
               "Test file specific errors"
    ++ pattern (someIncludes ["config"; "setup"] files)
               "Configuration/setup related errors" in
  match groupErrorsByFile errors with
  | Throws e => Throws e
  | Returns errorsByFile =>
      let filesWithManyErrors :=
        List.filter
          (fun file =>
             (3 <? length (default [] (JSObject.get errorsByFile file)))%nat)
          (JSObject.keys errorsByFile) in
      Returns
        (patterns
         ++ pattern (0 <? length filesWithManyErrors)%nat
                    ("Error clustering in specific files: "
                     +:+ JS.join ", " filesWithManyErrors))
  end.

(** [patterns.includes(name)] *)
Definition listed (name : string) (patterns : list string) : bool :=
  existsb (String.eqb name) patterns.

Definition generateRecommendations (errors : list TestError)
  : outcome (list string) :=
  let errorTypes := categorizeErrors errors in
  match findPatterns errors with
  | Throws e => Throws e
  | Returns patterns =>
      Returns
        ((if exceeds errorTypes "Syntax Error" 0
          then ["Run a linter (ESLint/Pylint) to catch syntax issues early";
                "Consider using a code formatter (Prettier/Black) for consistent syntax"]
          else [])
         ++ (if exceeds errorTypes "Type Error" 3
             then ["Consider using TypeScript for better type safety";
                   "Add runtime type checking or validation"]
             else [])
         ++ (if exceeds errorTypes "Module Error" 0
             then ["Verify all dependencies are installed";
                   "Check import paths and module resolution"]
             else [])
         ++ (if exceeds errorTypes "Test Assertion" 2
             then ["Review test data setup and expected values";
                   "Consider using more descriptive test assertions"]
             else [])
         ++ (if listed "Async/Promise related issues" patterns
             then ["Ensure proper async/await usage and error handling"]
             else [])
         ++ (if listed "Error clustering in specific files" patterns
             then ["Focus refactoring efforts on files with multiple errors"]
             else []))
  end.

(** [categorizeErrors] once more, as the object it builds: the same loop,
    with the order of the keys kept for [Object.keys]. *)
Definition bumpObject (categories : JSObject.t nat) (category : string)
  : JSObject.t nat :=
  JSObject.set categories category
               (default 0 (JSObject.get categories category) + 1).

Definition categorizeErrorsObject (errors : list TestError) : JSObject.t nat :=
  foldl (fun categories error =>
           bumpObject categories (getErrorCategory (message error)))
        [] errors.

(** [getDominantErrorType]: the [reduce] starts from the first key and
    moves to the next one unless the one held has a strictly larger count. *)
Definition getDominantErrorType (errorsByType : JSObject.t nat) : string :=
  let count k := default 0 (JSObject.get errorsByType k) in
  match JSObject.keys errorsByType with
  | [] => "None"
  | first :: others =>
      foldl (fun a b => if (count b <? count a)%nat then a else b) first others
  end.

(** [languages.add(name)] on a [Set]: insertion order, no repeats. *)
Definition add (name : string) (languages : list string) : list string :=
  if existsb (String.eqb name) languages then languages else languages ++ [name].

(** [file.match(/\.(a|b|...)$/)]: the file name ends in one of the
    extensions. *)
Definition hasExtension (extensions : list string) (file : string) : bool :=
  existsb (JS.endsWith file) extensions.

Definition detectAffectedLanguages (errors : list TestError) : list string :=
  foldl
    (fun languages error =>
       let l1 :=
         if String.eqb (type error) "jest"
            || hasExtension [".js"; ".ts"; ".jsx"; ".tsx"] (file error)
         then add "JavaScript/TypeScript" languages else languages in
       let l2 :=
         if String.eqb (type error) "python" || hasExtension [".py"] (file error)
         then add "Python" l1 else l1 in
       let l3 :=
         if String.eqb (type error) "go" || hasExtension [".go"] (file error)
         then add "Go" l2 else l2 in
       if hasExtension [".rs"; ".toml"] (file error)
       then add "Rust" l3 else l3)
    [] errors.

End ErrorAnalyzer.


(** ** [errorAnalyzer.ts], class [TestRunner] *)

Module TestRunner.

(** [interface TestResults] *)
Record TestResults := {
  hasErrors : bool;
  errors : list TestError;
  output : string
}.

(** [interface DetectedFramework]; the confidences are the decimal
    constants of the source, compared exactly. *)
Record DetectedFramework := {
  name : string;
  command : string;
  confidence : Q
}.

(** *** The host: configuration, workspace probes, quick pick, child process *)

(** A value returned by [JSON.parse]; a number is kept by whether it is
    non-zero, which is all the code asks of one.  An object lists its own
    properties, each key once. *)
Inductive json :=
| JNull
| JBool (b : bool)
| JNum (nonzero : bool)
| JStr (s : string)
| JArr (items : list json)
| JObj (props : list (string * json)).

(** What reading and parsing [package.json] comes to; the strings are the
    rendered errors. *)
Inductive Manifest :=
| ManifestUnreadable (error : string)
| ManifestMalformed (error : string)
| ManifestParsed (packageJson : json).

(** The probes of one workspace: [stat f] tells whether [fs.stat] resolves
    on [path.join(workspacePath, f)]; [manifest] is what reading and parsing
    [package.json] gives; [readdir] is the listing of the root, [None] when
    [fs.readdir] rejects. *)
Record Workspace := {
  stat : string -> bool;
  manifest : Manifest;
  readdir : option (list string)
}.

Record QuickPickItem := {
  label : string;
  description : string;
  detail : string;
  itemCommand : string
}.

(** [execAsync] resolves with both streams, or rejects (non-zero exit,
    signal, timeout, spawn failure) with what it has of them. *)
Inductive ExecOutcome :=
| Resolved (stdout stderr : string)
| Rejected (stdout stderr : option string) (message : string).

Record Host := {
  win32 : bool;
  customTestCommand : string;
  verboseLogs : bool;
  workspace : Workspace;
  showQuickPick : list QuickPickItem -> option QuickPickItem;
  execAsync : string -> ExecOutcome
}.

Inductive event :=
| AppendLine (text : string)
| QuickPickShown (items : list QuickPickItem).

(** The instance: its field [selectedFramework]. *)
Record Runner := { selectedFramework : option string }.

Definition logVerbose (h : Host) (message : string) : list event :=
  if verboseLogs h then [AppendLine ("[VERBOSE] " +:+ message)] else [].

Definition resetFrameworkSelection (h : Host) (r : Runner) : Runner * list event :=
  ({| selectedFramework := None |}, logVerbose h "Framework selection reset").

(** *** Property access on parsed JSON *)

Definition lookupProp (key : string) (props : list (string * json)) : option json :=
  snd <$> List.find (fun p => String.eqb (fst p) key) props.

(** [v.key] on a value that is neither [null] nor [undefined]. *)
Definition prop (key : string) (v : json) : option json :=
  match v with
  | JObj props => lookupProp key props
  | _ => None
  end.

(** [v?.key] *)
Definition optProp (key : string) (v : option json) : option json :=
  match v with
  | None | Some JNull => None
  | Some w => prop key w
  end.

Definition jtruthy (v : option json) : bool :=
  match v with
  | None | Some JNull => false
  | Some (JBool b) => b
  | Some (JNum nonzero) => nonzero
  | Some (JStr s) => JS.truthy s
  | Some (JArr _) | Some (JObj _) => true
  end.

Fixpoint chars (s : string) : list json :=
  match s with
  | EmptyString => []
  | String c s' => JStr (String c EmptyString) :: chars s'
  end.

Definition indexed (l : list json) : list (string * json) :=
  imap (fun i x => (JS.showN (N.of_nat i), x)) l.

(** The own enumerable properties an object spread copies out of [v]. *)
Definition ownProps (v : option json) : list (string * json) :=
  match v with
  | Some (JObj props) => props
  | Some (JArr items) => indexed items
  | Some (JStr s) => indexed (chars s)
  | _ => []
  end.

(** [{...a, ...b}]: a key of [b] shadows the same key of [a]. *)
Definition spread (a b : option json) : list (string * json) :=
  ownProps b ++ ownProps a.

(** *** The body of the [try] in [detectAllFrameworks]: pushes onto
    [frameworks], and throws *)

Inductive result (A : Type) :=
| Ok (a : A)
| Throw (error : string).
Arguments Ok {A} a.
Arguments Throw {A} error.

Definition Try (A : Type) : Type :=
  list DetectedFramework -> result A * list DetectedFramework.

Definition ret {A} (a : A) : Try A := fun frameworks => (Ok a, frameworks).

Definition throw {A} (error : string) : Try A :=
  fun frameworks => (Throw error, frameworks).

Definition bind {A B} (m : Try A) (k : A -> Try B) : Try B :=
  fun frameworks =>
    match m frameworks with
    | (Ok a, frameworks') => k a frameworks'
    | (Throw e, frameworks') => (Throw e, frameworks')
    end.

Notation "x <- m ;; k" := (bind m (fun x => k))
  (at level 100, m at next level, right associativity).
Notation "m ;; k" := (bind m (fun _ => k))
  (at level 100, right associativity).

Definition push (fw : DetectedFramework) : Try unit :=
  fun frameworks => (Ok tt, frameworks ++ [fw]).

Definition when (b : bool) (m : Try unit) : Try unit :=
  if b then m else ret tt.

(** [await fs.readFile(...)] then [JSON.parse(...)] *)
Definition readManifest (ws : Workspace) : Try json :=
  match manifest ws with
  | ManifestUnreadable e => throw e
  | ManifestMalformed e => throw e
  | ManifestParsed j => ret j
  end.

(** [v.key], a [TypeError] when [v] is [null] *)
Definition member (key : string) (v : json) : Try (option json) :=
  match v with
  | JNull =>
      throw ("TypeError: Cannot read properties of null (reading '"
             +:+ key +:+ "')")
  | _ => ret (prop key v)
  end.

Definition getNodeCommand (h : Host) (command : string) : string :=
  if win32 h
  then JS.replaceFirst "npx" "npx.cmd" (JS.replaceFirst "npm" "npm.cmd" command)
  else command.

Definition getPythonCommand (h : Host) (command : string) : string :=
  if win32 h
  then JS.replaceFirst "python" "python.exe" command
  else JS.replaceFirst "python" "python3" command.

(** [fs.stat] under its own [try]/[catch] *)
Definition fileExists (ws : Workspace) (filePath : string) : bool :=
  stat ws filePath.

(** [fs.readdir] under its own [try]/[catch] *)
Definition findPythonTestFiles (ws : Workspace) : list string :=
  match readdir ws with
  | Some files =>
      List.filter (fun file =>
        JS.startsWith file "test_" && JS.endsWith file ".py"
        || JS.endsWith file "_test.py") files
  | None => []
  end.

Definition mk (name command : string) (confidence : Q) : DetectedFramework :=
  {| name := name; command := command; confidence := confidence |}.

Definition pytestCommand (h : Host) : string :=
  getPythonCommand h "python -m pytest -v --tb=short".

(** The [package.json] block. *)
Definition detectManifest (h : Host) : Try unit :=
  let ws := workspace h in
  if fileExists ws "package.json" then
    packageJson <- readManifest ws ;;
    scripts <- member "scripts" packageJson ;;
    when (jtruthy (optProp "test" scripts))
      (push (mk "npm test (package.json script)"
                (getNodeCommand h "npm test") 0.95)) ;;
    deps <- member "dependencies" packageJson ;;
    devDeps <- member "devDependencies" packageJson ;;
    let dependencies := spread deps devDeps in
    let has key := jtruthy (lookupProp key dependencies) in
    when (has "jest")
      (push (mk "Jest"
                (getNodeCommand h "npx jest --no-coverage --passWithNoTests") 0.9)) ;;
    when (has "mocha")
      (push (mk "Mocha" (getNodeCommand h "npx mocha") 0.85)) ;;
    when (has "vitest")
      (push (mk "Vitest" (getNodeCommand h "npx vitest run") 0.85)) ;;
    when (has "@playwright/test")
      (push (mk "Playwright" (getNodeCommand h "npx playwright test") 0.8)) ;;
    when (has "cypress")
      (push (mk "Cypress" (getNodeCommand h "npx cypress run") 0.8))
  else ret tt.

(** The blocks after it: Python, Go, Rust. *)
Definition detectMarkers (h : Host) : Try unit :=
  let ws := workspace h in
  when (fileExists ws "pytest.ini" || fileExists ws "requirements.txt")
    (push (mk "pytest (detected config)" (pytestCommand h) 0.9)) ;;
  let pythonTestFiles := findPythonTestFiles ws in
  when (0 <? length pythonTestFiles)%nat
    (push (mk ("pytest (" +:+ JS.showN (N.of_nat (length pythonTestFiles))
               +:+ " test files found)")
              (pytestCommand h) 0.8)) ;;
  when (fileExists ws "go.mod") (push (mk "Go test" "go test ./..." 0.9)) ;;
  when (fileExists ws "Cargo.toml") (push (mk "Cargo test" "cargo test" 0.9)).

Definition detectBody (h : Host) : Try unit :=
  detectManifest h ;; detectMarkers h.

(** [frameworks.sort((a, b) => b.confidence - a.confidence)]: stable,
    highest confidence first. *)
Fixpoint insertByConfidence (fw : DetectedFramework) (sorted : list DetectedFramework)
  : list DetectedFramework :=
  match sorted with
  | [] => [fw]
  | x :: rest =>
      if Qle_bool (confidence fw) (confidence x)
      then x :: insertByConfidence fw rest
      else fw :: sorted
  end.

Definition sortByConfidence (frameworks : list DetectedFramework)
  : list DetectedFramework :=
  foldl (fun sorted fw => insertByConfidence fw sorted) [] frameworks.

Definition detectAllFrameworks (h : Host) : list DetectedFramework * list event :=
  match detectBody h [] with
  | (Ok _, frameworks) => (sortByConfidence frameworks, [])
  | (Throw error, frameworks) =>
      (sortByConfidence frameworks,
       logVerbose h ("Error detecting test frameworks: " +:+ error))
  end.

(** *** The selector *)

(** [Math.round(fw.confidence * 100)] *)
Definition percent (q : Q) : N := Z.to_N (Qfloor (q * 100 + (1 # 2))).

Definition toItem (fw : DetectedFramework) : QuickPickItem :=
  {| label := name fw;
     description := command fw;
     detail := "Confidence: " +:+ JS.showN (percent (confidence fw)) +:+ "%";
     itemCommand := command fw |}.

Definition showFrameworkPicker (h : Host) (r : Runner)
           (frameworks : list DetectedFramework)
  : option string * Runner * list event :=
  let items := map toItem frameworks in
  match showQuickPick h items with
  | Some selected =>
      (Some (itemCommand selected),
       {| selectedFramework := Some (itemCommand selected) |},
       QuickPickShown items ::
       logVerbose h ("Selected framework: " +:+ label selected +:+ " ("
                     +:+ itemCommand selected +:+ ")"))
  | None => (None, r, [QuickPickShown items])
  end.

(** The field read as a condition: [null] and [''] are falsy. *)
Definition locked (r : Runner) : option string :=
  match selectedFramework r with
  | Some s => if JS.truthy s then Some s else None
  | None => None
  end.

Definition getTestCommand (h : Host) (r : Runner)
  : option string * Runner * list event :=
  let customCommand := JS.trim (customTestCommand h) in
  if JS.truthy customCommand then
    (Some customCommand, r,
     logVerbose h ("Using custom test command: " +:+ customCommand))
  else
    match locked r with
    | Some s =>
        (Some s, r,
         logVerbose h ("Using previously selected framework: " +:+ s))
    | None =>
        let '(detectedFrameworks, log) := detectAllFrameworks h in
        match detectedFrameworks with
        | [] => (None, r, log)
        | [fw] =>
            (Some (command fw), {| selectedFramework := Some (command fw) |}, log)
        | _ =>
            let '(res, r', ev) := showFrameworkPicker h r detectedFrameworks in
            (res, r', log ++ ev)
        end
    end.

(** *** The parser *)

Definition nl : string := String (ascii_of_nat 10) EmptyString.
Definition dquote : string := String (ascii_of_nat 34) EmptyString.

Definition re (ic : bool) (parts : list JS.regex) : JS.RegExp :=
  {| JS.source := foldr JS.RSeq JS.REps parts; JS.ignoreCase := ic |}.

Definition lit : string -> JS.regex := JS.RLit.
Definition some (k : JS.cclass) : JS.regex := JS.RRep true 1 k.
Definition many (k : JS.cclass) : JS.regex := JS.RRep true 0 k.
Definition digits (i : nat) : JS.regex := JS.RGroup i (some JS.CDigit).

(** [/at (.+):(\d+):(\d+)/] *)
Definition jestAt : JS.RegExp :=
  re false [lit "at "; JS.RGroup 1 (some JS.CDot); lit ":"; digits 2; lit ":"; digits 3].

(** [/(.+\.(?:js|ts|jsx|tsx)):(\d+):(\d+)/] *)
Definition jestFile : JS.RegExp :=
  re false
     [JS.RGroup 1
        (JS.RSeq (some JS.CDot)
           (JS.RSeq (lit ".")
              (JS.RAlt (lit "js") (JS.RAlt (lit "ts") (JS.RAlt (lit "jsx") (lit "tsx"))))));
      lit ":"; digits 2; lit ":"; digits 3].

(** [/File "(.+)", line (\d+)/] *)
Definition pythonFrame : JS.RegExp :=
  re false [lit "File "; lit dquote; JS.RGroup 1 (some JS.CDot); lit dquote;
            lit ", line "; digits 2].

(** [/(.+\.py):(\d+):/] *)
Definition pythonFile : JS.RegExp :=
  re false [JS.RGroup 1 (JS.RSeq (some JS.CDot) (lit ".py")); lit ":"; digits 2; lit ":"].

(** [/(.+\.go):(\d+):/] *)
Definition goFile : JS.RegExp :=
  re false [JS.RGroup 1 (JS.RSeq (some JS.CDot) (lit ".go")); lit ":"; digits 2; lit ":"].

(** [a.*b] under the [i] flag *)
Definition gap (a b : string) : JS.RegExp :=
  re true [lit a; many JS.CDot; lit b].

Definition errorPatterns : list JS.RegExp :=
  [ re true [lit "error:"]; re true [lit "fail"];
    re false [lit "✕"]; re false [lit "✗"];
    re true [lit "exception"];
    gap "assertion" "error"; gap "reference" "error"; gap "type" "error";
    gap "syntax" "error"; gap "runtime" "error" ].

Definition isErrorLine (line : string) : bool :=
  existsb (fun pattern => JS.test pattern line) errorPatterns.

(** [a || b] on two match results *)
Definition orElse {A} (a b : option A) : option A :=
  match a with Some _ => a | None => b end.

Definition getContextualError (lines : list string) (currentIndex : nat) : string :=
  let start := Nat.max 0 (currentIndex - 1) in
  let end_ := Nat.min (length lines) (currentIndex + 2) in
  JS.trim (JS.join nl (take (end_ - start) (drop start lines))).

Definition located (lines : list string) (i : nat) (m : string * JS.captures)
           (tag : string) : TestError :=
  {| file := JS.group 1 (snd m);
     line := JS.parseInt (JS.group 2 (snd m));
     message := getContextualError lines i;
     type := tag |}.

(** The [for] loop of [parseErrors]: [rest] is [lines] from index [i] on,
    [errors] the array pushed onto so far. *)
Fixpoint parseFrom (lines : list string) (i : nat) (rest : list string)
         (errors : list TestError) : list TestError :=
  match rest with
  | [] => errors
  | line :: rest' =>
      let next := parseFrom lines (S i) rest' in
      match orElse (JS.exec jestAt line) (JS.exec jestFile line) with
      | Some jestMatch => next (errors ++ [located lines i jestMatch "jest"])
      | None =>
      match orElse (JS.exec pythonFrame line) (JS.exec pythonFile line) with
      | Some pythonMatch => next (errors ++ [located lines i pythonMatch "python"])
      | None =>
      match JS.exec goFile line with
      | Some goMatch => next (errors ++ [located lines i goMatch "go"])
      | None =>
          if isErrorLine line
          then next (errors ++ [{| file := "unknown"; line := 0;
                                   message := JS.trim line; type := "generic" |}])
          else next errors
      end end end
  end.

Definition parseErrors (output : string) : list TestError :=
  let lines := JS.split nl output in
  parseFrom lines 0 lines [].

(** *** The executor *)

Definition failureIndicators : list string :=
  [ "FAILED"; "FAIL"; "failed"; "Error:"; "AssertionError";
    "TypeError"; "ReferenceError"; "SyntaxError"; "✕"; "✗";
    "test failed"; "tests failed"; "failure"; "failures" ].

Definition containsTestFailures (output : string) : bool :=
  existsb (fun indicator =>
             JS.includes (JS.toLowerCase output) (JS.toLowerCase indicator))
          failureIndicators.

(** [x || ''] on a field that may be missing *)
Definition orEmpty (x : option string) : string :=
  match x with Some s => s | None => EmptyString end.

(** [runTests]; the [catch] is reached here by a rejected [execAsync].  The
    hosts modelled have a quick pick that resolves and settings that are
    strings, so that [getTestCommand] does not throw. *)
Definition runTests (h : Host) (r : Runner) : TestResults * Runner * list event :=
  let '(testCommand, r', ev) := getTestCommand h r in
  match testCommand with
  | None =>
      ({| hasErrors := false; errors := [];
          output := "No test framework detected" |}, r', ev)
  | Some cmd =>
      if negb (JS.truthy cmd) then
        ({| hasErrors := false; errors := [];
            output := "No test framework detected" |}, r', ev)
      else
        let ev1 := ev ++ logVerbose h ("Test command: " +:+ cmd) in
        match execAsync h cmd with
        | Resolved stdout stderr =>
            let output := stdout +:+ stderr in
            ({| hasErrors := (0 <? String.length stderr)%nat
                             || containsTestFailures output;
                errors := parseErrors output;
                output := output |},
             r',
             ev1 ++ [AppendLine ("Test command: " +:+ cmd);
                     AppendLine ("Test output: " +:+ output)])
        | Rejected stdout stderr message =>
            let errorOutput := orEmpty stdout +:+ orEmpty stderr in
            ({| hasErrors := true;
                errors := parseErrors (errorOutput +:+ message);
                output := if JS.truthy errorOutput then errorOutput else message |},
             r', ev1)
        end
  end.

End TestRunner.


(** ** [aiTestingService.ts], class [AITestingService] *)

Module AITestingService.

(** [interface AISuggestion]; the optional field [fix] is [fix_] here, [fix]
    being a keyword. *)
Record AISuggestion := {
  service : string;
  suggestion : string;
  fix_ : option string;
  confidence : Q
}.

Inductive Backend := gemini | openai | claude.

(** [context.secrets.get(key)]: rejects, or resolves to the key or to
    [undefined]. *)
Inductive SecretOutcome :=
| SecretRejected
| SecretValue (apiKey : option string).

(** [axios.post(...)]: rejects (timeout after 10 s, transport failure, error
    status), or replies; [text] is what the optional chain down the reply
    reads, [None] for [undefined].  The reply is the service's to give,
    whatever the prompt. *)
Inductive PostOutcome :=
| PostRejected (error : string)
| PostReplied (text : option string).

Record Host := {
  enabledServices : list string;
  secrets : string -> SecretOutcome;
  post : Backend -> PostOutcome
}.

(** One entry of what [Promise.allSettled] resolves to. *)
Inductive Settled (A : Type) :=
| fulfilled (value : A)
| rejected (reason : string).
Arguments fulfilled {A} value.
Arguments rejected {A} reason.

Definition fence : string := "```".

Definition opt (r : JS.regex) : JS.regex := JS.RAlt r JS.REps.

(** [/```[\s\S]*?```/g] *)
Definition fencedBlock : JS.RegExp :=
  TestRunner.re false [JS.RLit fence; JS.RRep false 0 JS.CAll; JS.RLit fence].

(** [/```\w*\n?|\n?```/g] *)
Definition fenceMarker : JS.RegExp :=
  {| JS.source :=
       JS.RAlt
         (JS.RSeq (JS.RLit fence)
            (JS.RSeq (JS.RRep true 0 JS.CWord) (opt (JS.RLit TestRunner.nl))))
         (JS.RSeq (opt (JS.RLit TestRunner.nl)) (JS.RLit fence));
     JS.ignoreCase := false |}.

Definition extractSuggestion (text : string) : string :=
  let beforeCode := hd EmptyString (JS.split fence text) in
  JS.trim (JS.substring0 300 beforeCode).

Definition extractCodeFix (text : string) : option string :=
  match JS.matchAll fencedBlock text with
  | [] => None
  | block :: _ =>
      let cleanedBlock := JS.trim (JS.removeAll fenceMarker block) in
      if (10 <? JS.lengthOf cleanedBlock)%nat then Some cleanedBlock else None
  end.

(** The common shape of [getGeminiSuggestion], [getOpenAISuggestion] and
    [getClaudeSuggestion]: everything sits in a [try] whose [catch] returns
    [null], so the promise always fulfils. *)
Definition ask (h : Host) (secretName serviceName : string) (weight : Q)
           (b : Backend) : Settled (option AISuggestion) :=
  fulfilled
    match secrets h secretName with
    | SecretRejected => None
    | SecretValue None => None
    | SecretValue (Some apiKey) =>
        if negb (JS.truthy apiKey) then None
        else match post h b with
             | PostRejected _ => None
             | PostReplied None => None
             | PostReplied (Some text) =>
                 if negb (JS.truthy text) then None
                 else Some {| service := serviceName;
                              suggestion := extractSuggestion text;
                              fix_ := extractCodeFix text;
                              confidence := weight |}
             end
    end.

Definition getGeminiSuggestion (h : Host) : Settled (option AISuggestion) :=
  ask h "geminiApiKey" "Gemini" 0.8 gemini.

Definition getOpenAISuggestion (h : Host) : Settled (option AISuggestion) :=
  ask h "openaiApiKey" "ChatGPT" 0.85 openai.

Definition getClaudeSuggestion (h : Host) : Settled (option AISuggestion) :=
  ask h "claudeApiKey" "Claude" 0.9 claude.

(** [enabledServices.includes(service)] *)
Definition enabled (h : Host) (service : string) : bool :=
  existsb (String.eqb service) (enabledServices h).

(** [results.forEach]: a fulfilled, non-null value is pushed. *)
Definition collect (suggestions : list AISuggestion)
           (result : Settled (option AISuggestion)) : list AISuggestion :=
  match result with
  | fulfilled (Some value) => suggestions ++ [value]
  | _ => suggestions
  end.

Definition getSuggestions (h : Host) : list AISuggestion :=
  let promises :=
    (if enabled h "gemini" then [getGeminiSuggestion h] else [])
    ++ (if enabled h "openai" then [getOpenAISuggestion h] else [])
    ++ (if enabled h "claude" then [getClaudeSuggestion h] else []) in
  foldl collect [] promises.

(** *** The prompt *)

(** What the prompt reads of [errorAnalysis.context].  [gatherContext]
    fills [files] and [mostCommonError]; [testOutput] is [None] where the
    object has no such field. *)
Record Context := {
  files : list string;
  mostCommonError : string;
  testOutput : option string
}.

(** What the prompt reads of [errorAnalysis], with the types the fields
    have in the object [analyzeErrors] builds. *)
Record Analysis := {
  errorCount : nat;
  errorTypes : JSObject.t nat;
  patterns : list string;
  severity : ErrorAnalyzer.Severity;
  context : Context
}.

(** The string a severity is in the source. *)
Definition severityText (s : ErrorAnalyzer.Severity) : string :=
  match s with
  | ErrorAnalyzer.low => "low"
  | ErrorAnalyzer.medium => "medium"
  | ErrorAnalyzer.high => "high"
  | ErrorAnalyzer.critical => "critical"
  end.

Definition backslash : string := String (ascii_of_nat 92) EmptyString.

Definition hexDigit (n : nat) : string :=
  String (nth n (list_ascii_of_string "0123456789abcdef") "0"%char) EmptyString.

(** [JSON.stringify] of a string, character by character: the short
    escapes, [\u00XX] for the other control characters, the rest as is. *)
Definition quoteChar (c : ascii) : string :=
  let n := nat_of_ascii c in
  if (n =? 8)%nat then backslash +:+ "b"
  else if (n =? 9)%nat then backslash +:+ "t"
  else if (n =? 10)%nat then backslash +:+ "n"
  else if (n =? 12)%nat then backslash +:+ "f"
  else if (n =? 13)%nat then backslash +:+ "r"
  else if (n =? 34)%nat then backslash +:+ TestRunner.dquote
  else if (n =? 92)%nat then backslash +:+ backslash
  else if (n <? 32)%nat
       then backslash +:+ "u00" +:+ hexDigit (n / 16) +:+ hexDigit (n mod 16)
  else String c EmptyString.

Fixpoint quoteBody (s : string) : string :=
  match s with
  | EmptyString => EmptyString
  | String c s' => quoteChar c +:+ quoteBody s'
  end.

Definition quote (s : string) : string :=
  TestRunner.dquote +:+ quoteBody s +:+ TestRunner.dquote.

(** [JSON.stringify(counts, null, 2)] for an object of counts: one member a
    line, indented by two spaces, in the order of [Object.keys]. *)
Definition stringifyCounts (counts : JSObject.t nat) : string :=
  match JSObject.keys counts with
  | [] => "{}"
  | keys =>
      "{" +:+ TestRunner.nl
      +:+ JS.join ("," +:+ TestRunner.nl)
            (map (fun k =>
                    "  " +:+ quote k +:+ ": "
                    +:+ JS.showN (N.of_nat (default 0 (JSObject.get counts k))))
                 keys)
      +:+ TestRunner.nl +:+ "}"
  end.

(** [errorTypes[name] > 0] *)
Definition positive (errorTypes : JSObject.t nat) (name : string) : bool :=
  match JSObject.get errorTypes name with
  | Some n => (0 <? n)%nat
  | None => false
  end.

(** The array [hints] of [generateSpecializedHints] at its [return]. *)
Definition hintLines (errorAnalysis : Analysis) : list string :=
  let errorTypes := errorTypes errorAnalysis in
  let patterns := patterns errorAnalysis in
  let testOutput := default "" (testOutput (context errorAnalysis)) in
  (if positive errorTypes "Syntax Error"
   then [TestRunner.nl +:+ "🔧 SYNTAX ERROR HINTS:";
         "- Check for missing semicolons, brackets, or parentheses";
         "- Verify correct ES6+ syntax usage";
         "- Ensure proper import/export syntax"]
   else [])
  ++ (if positive errorTypes "Type Error"
      then [TestRunner.nl +:+ "🔧 TYPE ERROR HINTS:";
            "- Consider adding type conversions (parseInt, parseFloat, String, etc.)";
            "- Check for null/undefined values before accessing properties";
            "- Verify variable types match expected function parameters"]
      else [])
  ++ (if positive errorTypes "Reference Error"
      then [TestRunner.nl +:+ "🔧 REFERENCE ERROR HINTS:";
            "- Check if variables are declared before use";
            "- Verify correct variable scoping";
            "- Ensure imports are correctly named and paths are valid"]
      else [])
  ++ (if positive errorTypes "Undefined Variable"
      then [TestRunner.nl +:+ "🔧 UNDEFINED VARIABLE HINTS:";
            "- Add null/undefined checks before accessing properties";
            "- Initialize variables with default values";
            "- Use optional chaining (?.) for safer property access"]
      else [])
  ++ (if positive errorTypes "Test Assertion"
      then [TestRunner.nl +:+ "🔧 TEST ASSERTION HINTS:";
            "- Review expected vs actual values in assertions";
            "- Check if test data setup is correct";
            "- Verify mock functions are properly configured"]
      else [])
  ++ (if ErrorAnalyzer.listed "Async/Promise related issues" patterns
      then [TestRunner.nl +:+ "🔧 ASYNC/PROMISE HINTS:";
            "- Ensure async functions are properly awaited";
            "- Add proper error handling with try/catch blocks";
            "- Check for unhandled promise rejections";
            "- Consider using Promise.all() for parallel operations"]
      else [])
  ++ (if ErrorAnalyzer.listed "Module import/require issues" patterns
      then [TestRunner.nl +:+ "🔧 MODULE IMPORT HINTS:";
            "- Verify file paths are correct and case-sensitive";
            "- Check if modules are installed (npm list)";
            "- Ensure consistent import/require syntax throughout project";
            "- Consider using absolute imports or path mapping"]
      else [])
  ++ (if JS.includes testOutput "jest"
      then [TestRunner.nl +:+ "🔧 JEST SPECIFIC HINTS:";
            "- Check jest.config.js for proper setup";
            "- Ensure test files match the testMatch pattern";
            "- Consider using jest.mock() for external dependencies"]
      else [])
  ++ (if JS.includes testOutput "pytest"
      then [TestRunner.nl +:+ "🔧 PYTEST SPECIFIC HINTS:";
            "- Check fixture dependencies and scope";
            "- Verify test discovery patterns";
            "- Consider using parametrized tests for multiple inputs"]
      else []).

Definition generateSpecializedHints (errorAnalysis : Analysis) : string :=
  match hintLines errorAnalysis with
  | [] => ""
  | hints => TestRunner.nl +:+ JS.join TestRunner.nl hints
  end.

(** [createDetailedPrompt]: the template, a line an entry, and the hints
    after it. *)
Definition createDetailedPrompt (errorAnalysis : Analysis) (testOutput : string)
  : string :=
  let basePrompt :=
    JS.join TestRunner.nl
      [ "I need help fixing failing tests. Here's the detailed information:";
        "";
        "ERROR ANALYSIS:";
        "- Error Count: " +:+ JS.showN (N.of_nat (errorCount errorAnalysis));
        "- Error Types: " +:+ stringifyCounts (errorTypes errorAnalysis);
        "- Patterns Found: " +:+ JS.join ", " (patterns errorAnalysis);
        "- Severity: " +:+ severityText (severity errorAnalysis);
        "- Most Common Error: " +:+ mostCommonError (context errorAnalysis);
        "";
        "FULL TEST OUTPUT:";
        fence;
        JS.substring0 2000 testOutput
        +:+ (if (2000 <? JS.lengthOf testOutput)%nat
             then TestRunner.nl +:+ "... (truncated)" else "");
        fence;
        "";
        "AFFECTED FILES:";
        JS.join ", " (files (context errorAnalysis));
        "";
        "Please provide:";
        "1. A concise explanation of what's causing the errors";
        "2. Specific code fixes to resolve the issues";
        "3. Any additional recommendations";
        "";
        "Format your response with the explanation first, then any code fixes in proper code blocks." ] in
  let specializedHints := generateSpecializedHints errorAnalysis in
  basePrompt +:+ specializedHints.

End AITestingService.


(** ** The properties' vocabulary *)

Module Spec.

(** *** Analyzer *)

(** The ten labels [getErrorCategory] can return, in the order of its chain. *)
Definition categories : list string :=
  [ "Syntax Error"; "Type Error"; "Reference Error"; "Test Assertion";
    "Undefined Variable"; "Module Error"; "Async Error"; "Network Error";
    "File System Error"; "Other" ].

(** The count a category has in a [categoryCounts] mapping, 0 when absent. *)
Definition count (m : gmap string nat) (category : string) : nat :=
  default 0 (m !! category).

(** The sum of the values of a [categoryCounts] mapping. *)
Definition total (m : gmap string nat) : nat :=
  map_fold (fun _ n acc => n + acc) 0 m.

(** The number of errors of a list that fall in a category. *)
Definition occurrences (category : string) (errors : list TestError) : nat :=
  length (filter (fun e => ErrorAnalyzer.getErrorCategory (message e) = category)
                 errors).

(** The step function of the error count and the category counts, as the
    specification words it. *)
Definition severityStep (n : nat) (m : gmap string nat) : ErrorAnalyzer.Severity :=
  if decide (15 < n ∨ 0 < count m "Syntax Error") then ErrorAnalyzer.critical
  else if decide (10 < n ∨ 2 < count m "Reference Error") then ErrorAnalyzer.high
  else if decide (5 < n ∨ 1 < count m "Type Error") then ErrorAnalyzer.medium
  else ErrorAnalyzer.low.

(** low < medium < high < critical *)
Definition rank (s : ErrorAnalyzer.Severity) : nat :=
  match s with
  | ErrorAnalyzer.low => 0
  | ErrorAnalyzer.medium => 1
  | ErrorAnalyzer.high => 2
  | ErrorAnalyzer.critical => 3
  end.

(** *** Selector *)

(** No session command is locked in: the field is [null] (or holds the
    empty string, which the code reads as unset). *)
Definition unlocked (r : TestRunner.Runner) : Prop :=
  TestRunner.selectedFramework r = None
  ∨ TestRunner.selectedFramework r = Some "".

(** A framework with a command to run. *)
Definition named (fw : TestRunner.DetectedFramework) : Prop :=
  TestRunner.command fw ≠ "".

(** Whatever the computation [m] pushes has a command to run. *)
Definition pushesNamed {A} (m : TestRunner.Try A) : Prop :=
  ∀ frameworks, Forall named frameworks → Forall named (m frameworks).2.

(** A lock, when set, holds a command to run. *)
Definition wellLocked (r : TestRunner.Runner) : Prop :=
  ∀ s, TestRunner.selectedFramework r = Some s → s ≠ "".

(** The quick pick answers with one of the items it was given. *)
Definition picksOffered (h : TestRunner.Host) : Prop :=
  ∀ items chosen, TestRunner.showQuickPick h items = Some chosen → chosen ∈ items.

(** The quick pick was shown during the events [ev]. *)
Definition prompted (ev : list TestRunner.event) : Prop :=
  ∃ items, TestRunner.QuickPickShown items ∈ ev.

(** What [getTestCommand] resolves to, the instance afterwards, and the
    events it causes. *)
Definition resolved (h : TestRunner.Host) (r : TestRunner.Runner) : option string :=
  (TestRunner.getTestCommand h r).1.1.
Definition after (h : TestRunner.Host) (r : TestRunner.Runner) : TestRunner.Runner :=
  (TestRunner.getTestCommand h r).1.2.
Definition events (h : TestRunner.Host) (r : TestRunner.Runner)
  : list TestRunner.event :=
  (TestRunner.getTestCommand h r).2.

(** *** Executor *)

(** A test run takes place with command [cmd]. *)
Definition ran (h : TestRunner.Host) (r : TestRunner.Runner) (cmd : string) : Prop :=
  resolved h r = Some cmd ∧ cmd ≠ "".

(** The [hasErrors] field of the run's [TestResults]. *)
Definition reported (h : TestRunner.Host) (r : TestRunner.Runner) : bool :=
  TestRunner.hasErrors (TestRunner.runTests h r).1.1.

Definition exitedWithFailure (o : TestRunner.ExecOutcome) : Prop :=
  match o with
  | TestRunner.Rejected _ _ _ => True
  | TestRunner.Resolved _ _ => False
  end.

Definition stderrOf (o : TestRunner.ExecOutcome) : string :=
  match o with
  | TestRunner.Resolved _ stderr => stderr
  | TestRunner.Rejected _ stderr _ => TestRunner.orEmpty stderr
  end.

(** stdout followed by stderr *)
Definition combinedOutput (o : TestRunner.ExecOutcome) : string :=
  match o with
  | TestRunner.Resolved stdout stderr => stdout +:+ stderr
  | TestRunner.Rejected stdout stderr _ =>
      TestRunner.orEmpty stdout +:+ TestRunner.orEmpty stderr
  end.

(** [text] contains [indicator] when letter case is ignored. *)
Definition mentions (text indicator : string) : Prop :=
  ∃ pre mid post,
    text = pre +:+ mid +:+ post ∧ JS.toLowerCase mid = JS.toLowerCase indicator.

(** [text] contains at least one of the failure indicators, case ignored. *)
Definition showsFailure (text : string) : Prop :=
  ∃ indicator, indicator ∈ TestRunner.failureIndicators ∧ mentions text indicator.

(** *** Parser *)

(** A pattern family: what it makes of line [i] of [lines], if it matches. *)
Definition Family : Type := list string → nat → string → option TestError.

Definition jsFamily : Family := fun lines i line =>
  (fun m => TestRunner.located lines i m "jest")
    <$> TestRunner.orElse (JS.exec TestRunner.jestAt line)
                          (JS.exec TestRunner.jestFile line).

Definition pythonFamily : Family := fun lines i line =>
  (fun m => TestRunner.located lines i m "python")
    <$> TestRunner.orElse (JS.exec TestRunner.pythonFrame line)
                          (JS.exec TestRunner.pythonFile line).

Definition goFamily : Family := fun lines i line =>
  (fun m => TestRunner.located lines i m "go")
    <$> JS.exec TestRunner.goFile line.

Definition genericFamily : Family := fun _ _ line =>
  if TestRunner.isErrorLine line
  then Some {| file := "unknown"; line := 0; message := JS.trim line;
               type := "generic" |}
  else None.

(** The fixed priority order. *)
Definition families : list Family :=
  [jsFamily; pythonFamily; goFamily; genericFamily].

(** Try the families in order and stop at the first that matches. *)
Fixpoint firstMatch (fs : list Family) (lines : list string) (i : nat)
         (line : string) : option TestError :=
  match fs with
  | [] => None
  | f :: fs' =>
      match f lines i line with
      | Some e => Some e
      | None => firstMatch fs' lines i line
      end
  end.

(** What each line of the output yields, line by line. *)
Definition perLine (output : string) : list (option TestError) :=
  let lines := JS.split TestRunner.nl output in
  imap (fun i line => firstMatch families lines i line) lines.

(** *** Detector *)

(** The candidates of each signal source after the manifest, as a function
    of that source's own probes; a probe that failed reads [false] (a
    marker) or [None] (the directory scan). *)
Definition configSource (h : TestRunner.Host) (pytestIni requirements : bool)
  : list TestRunner.DetectedFramework :=
  if pytestIni || requirements
  then [TestRunner.mk "pytest (detected config)" (TestRunner.pytestCommand h) 0.9]
  else [].

Definition isPythonTest (file : string) : bool :=
  JS.startsWith file "test_" && JS.endsWith file ".py"
  || JS.endsWith file "_test.py".

Definition scanSource (h : TestRunner.Host) (listing : option (list string))
  : list TestRunner.DetectedFramework :=
  match List.filter isPythonTest (default [] listing) with
  | [] => []
  | found =>
      [TestRunner.mk ("pytest (" +:+ JS.showN (N.of_nat (length found))
                      +:+ " test files found)")
                     (TestRunner.pytestCommand h) 0.8]
  end.

Definition goSource (goMod : bool) : list TestRunner.DetectedFramework :=
  if goMod then [TestRunner.mk "Go test" "go test ./..." 0.9] else [].

Definition cargoSource (cargoToml : bool) : list TestRunner.DetectedFramework :=
  if cargoToml then [TestRunner.mk "Cargo test" "cargo test" 0.9] else [].

(** The computation [m] throws nothing and pushes exactly [l]. *)
Definition emits (m : TestRunner.Try unit) (l : list TestRunner.DetectedFramework)
  : Prop :=
  ∀ frameworks, m frameworks = (TestRunner.Ok tt, frameworks ++ l).

(** The manifest source raises nothing: there is no [package.json], or it
    was read and parsed to something other than [null]. *)
Definition manifestQuiet (ws : TestRunner.Workspace) : Prop :=
  TestRunner.stat ws "package.json" = false
  ∨ ∃ j, TestRunner.manifest ws = TestRunner.ManifestParsed j
         ∧ j ≠ TestRunner.JNull.

(** The manifest source fails with the error [e]: [package.json] is there
    and cannot be read, or cannot be parsed. *)
Definition manifestFails (ws : TestRunner.Workspace) (e : string) : Prop :=
  TestRunner.stat ws "package.json" = true
  ∧ (TestRunner.manifest ws = TestRunner.ManifestUnreadable e
     ∨ TestRunner.manifest ws = TestRunner.ManifestMalformed e).

(** *** Suggestion batch *)

Definition serviceId (b : AITestingService.Backend) : string :=
  match b with
  | AITestingService.gemini => "gemini"
  | AITestingService.openai => "openai"
  | AITestingService.claude => "claude"
  end.

Definition secretName (b : AITestingService.Backend) : string :=
  match b with
  | AITestingService.gemini => "geminiApiKey"
  | AITestingService.openai => "openaiApiKey"
  | AITestingService.claude => "claudeApiKey"
  end.

(** The method of the class that calls backend [b]. *)
Definition call (b : AITestingService.Backend) (h : AITestingService.Host)
  : AITestingService.Settled (option AITestingService.AISuggestion) :=
  match b with
  | AITestingService.gemini => AITestingService.getGeminiSuggestion h
  | AITestingService.openai => AITestingService.getOpenAISuggestion h
  | AITestingService.claude => AITestingService.getClaudeSuggestion h
  end.

(** The order in which the backends are dispatched. *)
Definition position (b : AITestingService.Backend) : nat :=
  match b with
  | AITestingService.gemini => 0
  | AITestingService.openai => 1
  | AITestingService.claude => 2
  end.

(** The suggestion backend [b] makes of the reply [text]. *)
Definition suggestionOf (b : AITestingService.Backend) (text : string)
  : AITestingService.AISuggestion :=
  {| AITestingService.service :=
       match b with
       | AITestingService.gemini => "Gemini"
       | AITestingService.openai => "ChatGPT"
       | AITestingService.claude => "Claude"
       end;
     AITestingService.suggestion := AITestingService.extractSuggestion text;
     AITestingService.fix_ := AITestingService.extractCodeFix text;
     AITestingService.confidence :=
       match b with
       | AITestingService.gemini => 0.8
       | AITestingService.openai => 0.85
       | AITestingService.claude => 0.9
       end |}.

(** Backend [b] has its credential and replies with the text [text]. *)
Definition succeeds (h : AITestingService.Host) (b : AITestingService.Backend)
           (text : string) : Prop :=
  ∃ apiKey,
    AITestingService.secrets h (secretName b)
    = AITestingService.SecretValue (Some apiKey)
    ∧ apiKey ≠ ""
    ∧ AITestingService.post h b = AITestingService.PostReplied (Some text)
    ∧ text ≠ "".

(** Backend [b] fails: its credential is missing or cannot be read, or its
    call times out or fails in transport. *)
Definition fails (h : AITestingService.Host) (b : AITestingService.Backend) : Prop :=
  AITestingService.secrets h (secretName b) = AITestingService.SecretRejected
  ∨ AITestingService.secrets h (secretName b) = AITestingService.SecretValue None
  ∨ ∃ e, AITestingService.post h b = AITestingService.PostRejected e.

(** The value a settled promise carries, if it fulfilled with one. *)
Definition valueOf {A} (p : AITestingService.Settled (option A)) : option A :=
  match p with
  | AITestingService.fulfilled v => v
  | AITestingService.rejected _ => None
  end.

(** *** Fix extraction *)

(** The text before the first occurrence of [sep], all of it when there is
    none. *)
Fixpoint before (sep s : string) : string :=
  if JS.startsWith s sep then EmptyString
  else match s with
       | EmptyString => EmptyString
       | String c s' => String c (before sep s')
       end.

(** The text after the first occurrence of [sep], when there is one. *)
Fixpoint afterFirst (sep s : string) : option string :=
  if JS.startsWith s sep then Some (JS.drop (String.length sep) s)
  else match s with
       | EmptyString => None
       | String _ s' => afterFirst sep s'
       end.

(** The first fenced block: from the first fence to the next one after it;
    none when the text has fewer than two fences. *)
Definition firstBlock (text : string) : option string :=
  match afterFirst AITestingService.fence text with
  | Some rest =>
      match afterFirst AITestingService.fence rest with
      | Some _ =>
          Some (AITestingService.fence
                +:+ before AITestingService.fence rest
                +:+ AITestingService.fence)
      | None => None
      end
  | None => None
  end.

(** What a block holds between its two fences. *)
Definition body (block : string) : string :=
  match afterFirst AITestingService.fence block with
  | Some rest => before AITestingService.fence rest
  | None => EmptyString
  end.

(** A text without the word (the language tag) it opens with: the letters,
    digits and underscores up to the first other character. *)
Fixpoint untagged (s : string) : string :=
  match s with
  | EmptyString => EmptyString
  | String c s' => if JS.inClass JS.CWord c then untagged s' else s
  end.

(** A block with its fence markers taken out, trimmed: the opening marker
    is the fence with the tag that follows it, the closing marker is the
    fence. *)
Definition stripped (block : string) : string :=
  JS.trim (untagged (body block)).

(** The code fix as the specification words it: the stripped first block,
    dropped when under 10 characters. *)
Definition statedCodeFix (text : string) : option string :=
  match firstBlock text with
  | Some block =>
      if (JS.lengthOf (stripped block) <? 10)%nat then None
      else Some (stripped block)
  | None => None
  end.

(** *** Sample hosts *)

(** The three backends enabled and provided with keys; Gemini times out,
    the other two reply. *)
Definition batchHost : AITestingService.Host :=
  {| AITestingService.enabledServices := ["gemini"; "openai"; "claude"];
     AITestingService.secrets := fun _ => AITestingService.SecretValue (Some "k");
     AITestingService.post := fun b =>
       match b with
       | AITestingService.gemini =>
           AITestingService.PostRejected "timeout of 10000ms exceeded"
       | AITestingService.openai =>
           AITestingService.PostReplied (Some "Await the call.")
       | AITestingService.claude =>
           AITestingService.PostReplied (Some "Mock the clock.")
       end |}.

(** A workspace holding the listed files and nothing else; [package.json],
    when listed, has the given content. *)
Definition holding (files : list string) (content : TestRunner.Manifest)
           (listing : option (list string)) : TestRunner.Workspace :=
  {| TestRunner.stat := fun f => existsb (String.eqb f) files;
     TestRunner.manifest := content;
     TestRunner.readdir := listing |}.

(** A host without a custom command, verbose, on a given workspace and with
    a given answer to the quick pick. *)
Definition plainHost (ws : TestRunner.Workspace)
           (answer : list TestRunner.QuickPickItem -> option TestRunner.QuickPickItem)
  : TestRunner.Host :=
  {| TestRunner.win32 := false;
     TestRunner.customTestCommand := "";
     TestRunner.verboseLogs := true;
     TestRunner.workspace := ws;
     TestRunner.showQuickPick := answer;
     TestRunner.execAsync := fun _ => TestRunner.Resolved "" "" |}.

Definition cancel : list TestRunner.QuickPickItem -> option TestRunner.QuickPickItem :=
  fun _ => None.

Definition bareWorkspace : TestRunner.Workspace :=
  {| TestRunner.stat := fun _ => false;
     TestRunner.manifest := TestRunner.ManifestUnreadable "ENOENT";
     TestRunner.readdir := Some [] |}.

(** A host configured with a custom command, whose child process ends as [o]. *)
Definition customHost (cmd : string) (o : TestRunner.ExecOutcome) : TestRunner.Host :=
  {| TestRunner.win32 := false;
     TestRunner.customTestCommand := cmd;
     TestRunner.verboseLogs := false;
     TestRunner.workspace := bareWorkspace;
     TestRunner.showQuickPick := fun _ => None;
     TestRunner.execAsync := fun _ => o |}.

Definition fresh : TestRunner.Runner := {| TestRunner.selectedFramework := None |}.

End Spec.
Module Notions.

(** The property names of an object. *)
Definition names {T} (o : JSObject.t T) : list string := map fst o.

(** The errors of a list that sit in file [f], in the order of the list. *)
Definition inFile (f : string) (errors : list TestError) : list TestError :=
  filter (fun e => file e = f) errors.

(** No error of the list names a file as [Object.prototype] names a member. *)
Definition plainFiles (errors : list TestError) : Prop :=
  Forall (fun e => JSObject.inherited (file e) = false) errors.

(** What the object holds once the errors [done] have been filed. *)
Definition filed (grouped : JSObject.t (list TestError)) (done : list TestError) : Prop :=
  NoDup (names grouped)
  ∧ ∀ f, JSObject.get grouped f
         = if decide (f ∈ map file done) then Some (inFile f done) else None.

(** The seven fixed checks of [findPatterns], in the order they are made. *)
Definition fixedPatterns : list string :=
  [ "Undefined variables detected"; "Async/Promise related issues";
    "Module import/require issues"; "Network/timeout issues";
    "Testing mock/spy issues"; "Test file specific errors";
    "Configuration/setup related errors" ].

(** The entry that names the files holding more than three errors. *)
Definition clusterEntry (files : list string) : string :=
  "Error clustering in specific files: " +:+ JS.join ", " files.

(** The tests [detectAffectedLanguages] makes on one error. *)
Definition looksJs (e : TestError) : bool :=
  String.eqb (type e) "jest"
  || ErrorAnalyzer.hasExtension [".js"; ".ts"; ".jsx"; ".tsx"] (file e).
Definition looksPython (e : TestError) : bool :=
  String.eqb (type e) "python" || ErrorAnalyzer.hasExtension [".py"] (file e).
Definition looksGo (e : TestError) : bool :=
  String.eqb (type e) "go" || ErrorAnalyzer.hasExtension [".go"] (file e).
Definition looksRust (e : TestError) : bool :=
  ErrorAnalyzer.hasExtension [".rs"; ".toml"] (file e).

(** Error [e] is evidence of language [l]. *)
Definition speaks (l : string) (e : TestError) : Prop :=
  (l = "JavaScript/TypeScript" ∧ looksJs e = true)
  ∨ (l = "Python" ∧ looksPython e = true)
  ∨ (l = "Go" ∧ looksGo e = true)
  ∨ (l = "Rust" ∧ looksRust e = true).

(** One turn of the [forEach]. *)
Definition turn (languages : list string) (e : TestError) : list string :=
  let l1 := if looksJs e then ErrorAnalyzer.add "JavaScript/TypeScript" languages else languages in
  let l2 := if looksPython e then ErrorAnalyzer.add "Python" l1 else l1 in
  let l3 := if looksGo e then ErrorAnalyzer.add "Go" l2 else l2 in
  if looksRust e then ErrorAnalyzer.add "Rust" l3 else l3.

(** Candidate [b] does not outrank candidate [a]. *)
Definition byConfidence (a b : TestRunner.DetectedFramework) : Prop :=
  (TestRunner.confidence b <= TestRunner.confidence a)%Q.

(** A candidate as the detector makes them: a command to run and a
    confidence between 0.8 and 0.95. *)
Definition wellFormed (fw : TestRunner.DetectedFramework) : Prop :=
  TestRunner.command fw ≠ ""
  ∧ (0.8 <= TestRunner.confidence fw)%Q ∧ (TestRunner.confidence fw <= 0.95)%Q.

(** Whatever the computation [m] pushes satisfies [P]. *)
Definition pushesOnly {A} (P : TestRunner.DetectedFramework → Prop)
           (m : TestRunner.Try A) : Prop :=
  ∀ frameworks, Forall P frameworks → Forall P (m frameworks).2.

(** Where an error points, its message left aside. *)
Definition location (e : TestError) : string * N * string :=
  (file e, line e, type e).

(** The text opens with a character of white space. *)
Definition startsSpace (s : string) : bool :=
  match s with
  | String c s1 =>
      JS.isSpace c
      || match s1 with
         | String d s2 =>
             JS.isSpace2 c d
             || match s2 with
                | String e _ => JS.isSpace3 c d e
                | EmptyString => false
                end
         | EmptyString => false
         end
  | EmptyString => false
  end.

(** A text that is empty or starts with something other than white space. *)
Definition flushLeft (s : string) : Prop := startsSpace s = false.

(** The heading of a block of hints. *)
Definition hintTitle (name : string) : string :=
  TestRunner.nl +:+ "🔧 " +:+ name +:+ " HINTS:".

(** The categories that have hints of their own, each with the name its
    heading gives it. *)
Definition categoryHints : list (string * string) :=
  [ ("Syntax Error", "SYNTAX ERROR"); ("Type Error", "TYPE ERROR");
    ("Reference Error", "REFERENCE ERROR");
    ("Undefined Variable", "UNDEFINED VARIABLE");
    ("Test Assertion", "TEST ASSERTION") ].

(** Some error's message holds one of the needles, case left aside. *)
Definition someMessage (needles : list string) (errors : list TestError) : Prop :=
  ∃ e, e ∈ errors
       ∧ existsb (JS.includes (JS.toLowerCase (message e))) needles = true.

(** A text of [n] letters x. *)
Definition filler (n : nat) : string :=
  string_of_list_ascii (replicate n "x"%char).

(** A text said [n] times over. *)
Fixpoint times (n : nat) (s : string) : string :=
  match n with
  | O => EmptyString
  | S k => s +:+ times k s
  end.

(** A text of ASCII characters. *)
Definition plain (p : string) : Prop :=
  Forall (fun c => (JS.code c < 128)%N) (list_ascii_of_string p).

(** A text none of whose bytes is an ASCII character. *)
Definition high (h : string) : Prop :=
  Forall (fun c => (128 <= JS.code c)%N) (list_ascii_of_string h).

End Notions.


(** ** Properties of [ErrorAnalyzer] *)

Section AnalyzerFacts.
Import ErrorAnalyzer Spec.

Lemma getErrorCategory_label (msg : string) :
  getErrorCategory msg ∈ categories.
Proof.
  unfold getErrorCategory, categories.
  repeat (match goal with |- context [if ?b then _ else _] => destruct b end;
          [set_solver|]).
  set_solver.
Qed.

Lemma total_empty : total ∅ = 0.
Proof. apply map_fold_empty. Qed.

Lemma total_insert_fresh (m : gmap string nat) k n :
  m !! k = None → total (<[k := n]> m) = n + total m.
Proof.
  intros Hk. unfold total. rewrite map_fold_insert_L; [done| |done].
  intros. lia.
Qed.

Lemma total_lookup (m : gmap string nat) k n :
  m !! k = Some n → total m = n + total (delete k m).
Proof.
  intros Hk. unfold total.
  rewrite (map_fold_delete_L _ _ k n m); [done| |done].
  intros. lia.
Qed.

Lemma total_bump (m : gmap string nat) k : total (bump m k) = S (total m).
Proof.
  unfold bump. destruct (m !! k) as [n|] eqn:Hk; simpl.
  - rewrite <- insert_delete_eq.
    rewrite total_insert_fresh by apply lookup_delete_eq.
    rewrite (total_lookup m k n Hk). lia.
  - by rewrite total_insert_fresh.
Qed.

Lemma count_bump (m : gmap string nat) k c :
  count (bump m k) c = count m c + (if decide (k = c) then 1 else 0).
Proof.
  unfold count, bump. destruct (decide (k = c)) as [->|Hne].
  - by rewrite lookup_insert_eq.
  - rewrite lookup_insert_ne by done. lia.
Qed.

Lemma total_foldl (es : list TestError) (m : gmap string nat) :
  total (foldl (fun acc e => bump acc (getErrorCategory (message e))) m es)
  = total m + length es.
Proof.
  revert m. induction es as [|e es IH]; intros m; simpl; [lia|].
  rewrite IH, total_bump. lia.
Qed.

Lemma count_foldl (es : list TestError) (m : gmap string nat) c :
  count (foldl (fun acc e => bump acc (getErrorCategory (message e))) m es) c
  = count m c + occurrences c es.
Proof.
  revert m. induction es as [|e es IH]; intros m; simpl.
  - unfold occurrences. simpl. lia.
  - rewrite IH, count_bump. unfold occurrences. rewrite filter_cons.
    destruct (decide (getErrorCategory (message e) = c)); simpl; lia.
Qed.

Lemma count_categorize (es : list TestError) c :
  count (categorizeErrors es) c = occurrences c es.
Proof. unfold categorizeErrors. rewrite count_foldl. unfold count. by rewrite lookup_empty. Qed.

Lemma exceeds_count (m : gmap string nat) k n :
  exceeds m k n = bool_decide (n < count m k).
Proof.
  unfold exceeds, count. destruct (m !! k) as [c|]; simpl.
  - destruct (Nat.ltb_spec n c).
    + by rewrite bool_decide_eq_true_2.
    + rewrite bool_decide_eq_false_2; [done|lia].
  - done.
Qed.

Lemma test_or (a b : nat) (Q : Prop) `{!Decision Q} {A} (x y : A) :
  (if (a <? b)%nat || bool_decide Q then x else y)
  = if decide (a < b ∨ Q) then x else y.
Proof.
  destruct (decide (a < b ∨ Q)) as [[Hab|HQ]|Hno].
  - apply Nat.ltb_lt in Hab. by rewrite Hab.
  - rewrite (bool_decide_eq_true_2 Q HQ). by rewrite orb_true_r.
  - destruct (Nat.ltb_spec a b) as [Hab|Hab]; [tauto|].
    rewrite bool_decide_eq_false_2; [done|tauto].
Qed.

Lemma assessSeverity_step (es : list TestError) :
  assessSeverity es = severityStep (length es) (categorizeErrors es).
Proof.
  unfold assessSeverity, severityStep.
  by rewrite !exceeds_count, !test_or.
Qed.

Lemma occurrences_sublist c (es es' : list TestError) :
  es `sublist_of` es' → occurrences c es ≤ occurrences c es'.
Proof.
  unfold occurrences.
  induction 1 as [|e es es' _ IH|e es es' _ IH]; [done| |];
    rewrite !filter_cons; case_decide; simpl; lia.
Qed.

Lemma severityStep_mono n n' (m m' : gmap string nat) :
  n ≤ n' → (∀ c, count m c ≤ count m' c) →
  rank (severityStep n m) ≤ rank (severityStep n' m').
Proof.
  intros Hn Hc. unfold severityStep.
  pose proof (Hc "Syntax Error"). pose proof (Hc "Reference Error").
  pose proof (Hc "Type Error").
  repeat match goal with
         | |- context [decide ?P] => destruct (decide P)
         end; simpl; lia.
Qed.

Lemma assessSeverity_sublist (es es' : list TestError) :
  es `sublist_of` es' → rank (assessSeverity es) ≤ rank (assessSeverity es').
Proof.
  intros H. rewrite !assessSeverity_step. apply severityStep_mono.
  - by apply sublist_length.
  - intros c. rewrite !count_categorize. by apply occurrences_sublist.
Qed.

End AnalyzerFacts.

(** C4.  For every error list the severity is the step function of the
    error count and the category counts: critical when the count is above 15
    or a Syntax Error is counted, else high when the count is above 10 or
    more than two Reference Errors are counted, else medium when the count is
    above 5 or more than one Type Error is counted, else low.  The severity
    field of the analysis is that function of its own [errorCount] and
    [errorTypes] fields, so it is determined by them. *)
Theorem C4_severity_step_function (errors : list TestError) :
  let analysis := ErrorAnalyzer.analyzeErrors errors in
  ErrorAnalyzer.assessSeverity errors
  = Spec.severityStep (length errors) (ErrorAnalyzer.categorizeErrors errors)
  ∧ ErrorAnalyzer.severity analysis
    = Spec.severityStep (ErrorAnalyzer.errorCount analysis)
                        (ErrorAnalyzer.errorTypes analysis).
Proof.
  simpl. split; apply assessSeverity_step.
Qed.

(** C8.  Every error of a list falls in one of the ten categories ("Other"
    when no trigger matches), each category's count is the number of errors
    that fall in it, and the counts sum to the number of errors; this holds
    for every list, the non-empty ones included. *)
Theorem C8_category_counts_sum (errors : list TestError) :
  Forall (fun e => ErrorAnalyzer.getErrorCategory (message e) ∈ Spec.categories)
         errors
  ∧ (∀ c, Spec.count (ErrorAnalyzer.categorizeErrors errors) c
          = Spec.occurrences c errors)
  ∧ Spec.total (ErrorAnalyzer.categorizeErrors errors) = length errors.
Proof.
  split; [|split].
  - apply Forall_forall. intros e _. apply getErrorCategory_label.
  - intros c. apply count_categorize.
  - unfold ErrorAnalyzer.categorizeErrors.
    rewrite total_foldl, total_empty. lia.
Qed.

(** C9.  Adding errors to a list, before it or after it, never lowers the
    severity in the order low < medium < high < critical. *)
Theorem C9_severity_monotone (errors before after : list TestError) :
  Spec.rank (ErrorAnalyzer.assessSeverity errors)
  ≤ Spec.rank (ErrorAnalyzer.assessSeverity (before ++ errors ++ after)).
Proof.
  apply assessSeverity_sublist.
  apply sublist_inserts_l, sublist_inserts_r. done.
Qed.


(** ** Facts about the string primitives *)

Section StringFacts.
Import JS.

Lemma app_empty_r (s : string) : s +:+ "" = s.
Proof. induction s; simpl; congruence. Qed.

Lemma app_assoc' (a b c : string) : (a +:+ b) +:+ c = a +:+ b +:+ c.
Proof. induction a; simpl; congruence. Qed.

Lemma app_length' (a b : string) :
  String.length (a +:+ b) = String.length a + String.length b.
Proof. induction a; simpl; congruence. Qed.

Lemma truthy_true (s : string) : truthy s = true ↔ s ≠ "".
Proof. destruct s; simpl; split; done. Qed.

Lemma truthy_false (s : string) : truthy s = false ↔ s = "".
Proof. destruct s; simpl; split; done. Qed.

Lemma startsWith_spec (s p : string) :
  startsWith s p = true ↔ ∃ t, s = p +:+ t.
Proof.
  revert s. induction p as [|a p IH]; intros s; simpl.
  - split; [intros _; by exists s|done].
  - destruct s as [|b s].
    + split; [done|]. intros [t Ht]. discriminate.
    + destruct (Ascii.eqb_spec a b) as [->|Hne].
      * rewrite IH. split; intros [t Ht]; exists t; congruence.
      * split; [done|]. intros [t Ht]. congruence.
Qed.

Lemma includes_spec (s t : string) :
  includes s t = true ↔ ∃ pre post, s = pre +:+ t +:+ post.
Proof.
  induction s as [|c s IH].
  - simpl. destruct (startsWith "" t) eqn:Hp.
    + split; [|done]. intros _. apply startsWith_spec in Hp as [post Hp].
      by exists "", post.
    + split; [done|]. intros ([|? pre] & post & H); [|discriminate].
      assert (startsWith "" t = true) by (apply startsWith_spec; eauto).
      congruence.
  - cbn [includes]. destruct (startsWith (String c s) t) eqn:Hp.
    + split; [|done]. intros _. apply startsWith_spec in Hp as [post Hp].
      by exists "", post.
    + rewrite IH. split.
      * intros (pre & post & ->). by exists (String c pre), post.
      * intros ([|c' pre] & post & H).
        -- assert (startsWith (String c s) t = true)
             by (apply startsWith_spec; eauto).
           congruence.
        -- injection H as -> ->. eauto.
Qed.

Lemma toLowerCase_app (a b : string) :
  toLowerCase (a +:+ b) = toLowerCase a +:+ toLowerCase b.
Proof. induction a; simpl; congruence. Qed.

Lemma toLowerCase_split (s a b : string) :
  toLowerCase s = a +:+ b →
  ∃ a' b', s = a' +:+ b' ∧ toLowerCase a' = a ∧ toLowerCase b' = b.
Proof.
  revert s. induction a as [|c a IH]; intros s H; simpl in H.
  - by exists "", s.
  - destruct s as [|d s]; [discriminate|]. simpl in H.
    injection H as Hc H. apply IH in H as (a' & b' & -> & <- & <-).
    exists (String d a'), b'. simpl. by rewrite Hc.
Qed.

(** Case-insensitive containment, said on the text itself: some stretch of
    [s] reads as [t] when letter case is ignored. *)
Lemma includes_lower (s t : string) :
  includes (toLowerCase s) (toLowerCase t) = true
  ↔ ∃ pre mid post, s = pre +:+ mid +:+ post ∧ toLowerCase mid = toLowerCase t.
Proof.
  rewrite includes_spec. split.
  - intros (pre & post & H).
    apply toLowerCase_split in H as (pre' & rest & -> & _ & H).
    apply toLowerCase_split in H as (mid & post' & -> & H & _).
    by exists pre', mid, post'.
  - intros (pre & mid & post & -> & H).
    exists (toLowerCase pre), (toLowerCase post).
    by rewrite !toLowerCase_app, H.
Qed.

Lemma includes_mono_lower (s t : string) :
  includes s t = true → includes (toLowerCase s) (toLowerCase t) = true.
Proof.
  rewrite includes_spec, includes_lower. intros (pre & post & ->). eauto.
Qed.

Lemma includes_trans (s t u : string) :
  includes s t = true → includes t u = true → includes s u = true.
Proof.
  rewrite !includes_spec. intros (p1 & q1 & ->) (p2 & q2 & ->).
  exists (p1 +:+ p2), (q2 +:+ q1). by rewrite !app_assoc'.
Qed.

End StringFacts.

Section TrimFacts.
Import JS Notions.

Lemma string_strong_ind (P : string → Prop) :
  (∀ s, (∀ t, String.length t < String.length s → P t) → P s) → ∀ s, P s.
Proof.
  intros H s. remember (String.length s) as n eqn:Hn.
  revert s Hn. induction (lt_wf n) as [n _ IH]. intros s ->.
  apply H. intros t Ht. by apply (IH (String.length t)).
Qed.

Lemma lengthOf_app (a b : string) : lengthOf (a +:+ b) = lengthOf a + lengthOf b.
Proof. induction a as [|c a IH]; simpl; [done|]. rewrite IH. lia. Qed.

Lemma trimStart_unfold (s : string) :
  trimStart s
  = match s with
    | EmptyString => EmptyString
    | String c s1 =>
        if isSpace c then trimStart s1
        else
          match s1 with
          | String d s2 =>
              if isSpace2 c d then trimStart s2
              else
                match s2 with
                | String e s3 => if isSpace3 c d e then trimStart s3 else s
                | EmptyString => s
                end
          | EmptyString => s
          end
    end.
Proof. by destruct s. Qed.

Lemma allSpace_unfold (s : string) :
  allSpace s
  = match s with
    | EmptyString => true
    | String c s1 =>
        if isSpace c then allSpace s1
        else
          match s1 with
          | String d s2 =>
              if isSpace2 c d then allSpace s2
              else
                match s2 with
                | String e s3 => if isSpace3 c d e then allSpace s3 else false
                | EmptyString => false
                end
          | EmptyString => false
          end
    end.
Proof. by destruct s. Qed.

Lemma trimStart_suffix (s : string) : ∃ pre, s = pre +:+ trimStart s.
Proof.
  induction s as [s IH] using string_strong_ind.
  rewrite trimStart_unfold.
  destruct s as [|c s1]; [by exists ""|].
  destruct (isSpace c).
  { destruct (IH s1) as [pre Hpre]; [simpl; lia|].
    exists (String c pre). simpl. by rewrite <- Hpre. }
  destruct s1 as [|d s2]; [by exists ""|].
  destruct (isSpace2 c d).
  { destruct (IH s2) as [pre Hpre]; [simpl; lia|].
    exists (String c (String d pre)). simpl. by rewrite <- Hpre. }
  destruct s2 as [|e s3]; [by exists ""|].
  destruct (isSpace3 c d e); [|by exists ""].
  destruct (IH s3) as [pre Hpre]; [simpl; lia|].
  exists (String c (String d (String e pre))). simpl. by rewrite <- Hpre.
Qed.

Lemma trimStart_flush (s : string) : flushLeft (trimStart s).
Proof.
  unfold flushLeft.
  induction s as [s IH] using string_strong_ind.
  rewrite trimStart_unfold.
  destruct s as [|c s1]; [done|].
  destruct (isSpace c) eqn:Hc; [apply IH; simpl; lia|].
  destruct s1 as [|d s2]; [by simpl; rewrite Hc|].
  destruct (isSpace2 c d) eqn:Hd; [apply IH; simpl; lia|].
  destruct s2 as [|e s3]; [by simpl; rewrite Hc, Hd|].
  destruct (isSpace3 c d e) eqn:He; [apply IH; simpl; lia|].
  simpl. by rewrite Hc, Hd, He.
Qed.

Lemma trimStart_fixed (s : string) : flushLeft s → trimStart s = s.
Proof.
  unfold flushLeft. rewrite trimStart_unfold.
  destruct s as [|c [|d [|e s3]]]; cbn [startsSpace]; [done|..].
  - rewrite orb_false_r. by intros ->.
  - rewrite orb_false_r. by intros [-> ->]%orb_false_elim.
  - by intros [-> [-> ->]%orb_false_elim]%orb_false_elim.
Qed.

Lemma startsSpace_prefix (p q : string) :
  startsSpace p = true → startsSpace (p +:+ q) = true.
Proof.
  destruct p as [|c [|d [|e p3]]]; cbn [startsSpace String.append]; [done|..].
  - rewrite orb_false_r. by intros ->.
  - rewrite orb_false_r. intros [->| ->]%orb_true_iff; [done|].
    destruct q; by rewrite ?orb_true_r.
  - done.
Qed.

Lemma allSpace_app (a b : string) :
  allSpace a = true → allSpace (a +:+ b) = allSpace b.
Proof.
  induction a as [a IH] using string_strong_ind.
  rewrite (allSpace_unfold a), (allSpace_unfold (a +:+ b)).
  destruct a as [|c s1]; [intros _; by rewrite <- allSpace_unfold|].
  cbn [String.append].
  destruct (isSpace c); [apply IH; simpl; lia|].
  destruct s1 as [|d s2]; [done|]. cbn [String.append].
  destruct (isSpace2 c d); [apply IH; simpl; lia|].
  destruct s2 as [|e s3]; [done|]. cbn [String.append].
  destruct (isSpace3 c d e); [apply IH; simpl; lia|done].
Qed.

Lemma trimEnd_prefix (s : string) :
  ∃ post, s = trimEnd s +:+ post ∧ allSpace post = true.
Proof.
  induction s as [|c s (post & IH & Hpost)]; [by exists ""|].
  cbn [trimEnd]. destruct (allSpace (String c s)) eqn:Hs.
  - by exists (String c s).
  - exists post. split; [|done]. simpl. by rewrite <- IH.
Qed.

Lemma trimEnd_flush (s : string) : flushLeft s → flushLeft (trimEnd s).
Proof.
  unfold flushLeft. intros Hs. apply not_true_is_false. intros H.
  destruct (trimEnd_prefix s) as (post & Hpost & _).
  apply (startsSpace_prefix _ post) in H. rewrite <- Hpost in H. congruence.
Qed.

Lemma trimEnd_idem (s : string) : trimEnd (trimEnd s) = trimEnd s.
Proof.
  induction s as [|c s IH]; [done|].
  cbn [trimEnd]. destruct (allSpace (String c s)) eqn:Hs; [done|].
  cbn [trimEnd]. rewrite IH.
  destruct (allSpace (String c (trimEnd s))) eqn:Ht; [|done].
  destruct (trimEnd_prefix s) as (post & Hpost & Hsp).
  apply (allSpace_app _ post) in Ht.
  change (String c (trimEnd s) +:+ post) with (String c (trimEnd s +:+ post)) in Ht.
  rewrite <- Hpost in Ht. congruence.
Qed.

Lemma trim_idem (s : string) : trim (trim s) = trim s.
Proof.
  unfold trim.
  rewrite (trimStart_fixed (trimEnd (trimStart s))).
  - apply trimEnd_idem.
  - apply trimEnd_flush, trimStart_flush.
Qed.

(** What [trim] returns is a piece of its argument. *)
Lemma trim_inside (s : string) : ∃ pre post, s = pre +:+ trim s +:+ post.
Proof.
  unfold trim.
  destruct (trimStart_suffix s) as [pre Hpre].
  destruct (trimEnd_prefix (trimStart s)) as (post & Hpost & _).
  exists pre, post. by rewrite <- Hpost.
Qed.

Lemma trim_lengthOf (s : string) : lengthOf (trim s) ≤ lengthOf s.
Proof.
  destruct (trim_inside s) as (pre & post & H).
  rewrite H at 2. rewrite !lengthOf_app. lia.
Qed.

End TrimFacts.

Section UnitFacts.
Import JS Notions.

Lemma code_of_N (n : N) : (n < 256)%N → code (ascii_of_N n) = n.
Proof. apply N_ascii_embedding. Qed.

Lemma continuation_of_N (k : N) :
  (k < 64)%N → isContinuation (ascii_of_N (128 + k)) = true.
Proof.
  intros Hk. unfold isContinuation, between. rewrite code_of_N by lia.
  apply andb_true_iff. split; apply N.leb_le; lia.
Qed.

Lemma highSurrogate_lengthOf (b0 b1 b2 : ascii) :
  lengthOf (highSurrogate b0 b1 b2) = 1.
Proof.
  unfold highSurrogate. cbv zeta. cbn [lengthOf]. unfold units at 2 3.
  rewrite !continuation_of_N by (apply N.mod_lt; lia). done.
Qed.

Lemma high_of_N (k : N) : (k < 64)%N → (128 <= code (ascii_of_N (128 + k)))%N.
Proof. intros Hk. rewrite code_of_N by lia. lia. Qed.

Lemma highSurrogate_high (b0 b1 b2 : ascii) : high (highSurrogate b0 b1 b2).
Proof.
  unfold high, highSurrogate. cbv zeta. cbn [list_ascii_of_string].
  repeat constructor.
  - by vm_compute.
  - apply high_of_N, N.mod_lt. lia.
  - apply high_of_N, N.mod_lt. lia.
Qed.

Lemma substring0_lengthOf (n : nat) (s : string) : lengthOf (substring0 n s) ≤ n.
Proof.
  revert n. induction s as [|c s IH]; intros n; cbn [substring0]; [simpl; lia|].
  destruct (isContinuation c) eqn:Hc.
  { cbn [lengthOf]. unfold units. rewrite Hc. apply IH. }
  destruct n as [|n]; [simpl; lia|].
  destruct (240 <=? code c)%N eqn:H4.
  - destruct n as [|n].
    + destruct s as [|d [|e s]]; [simpl; lia..|].
      by rewrite highSurrogate_lengthOf.
    + cbn [lengthOf]. unfold units. rewrite Hc, H4. specialize (IH n). lia.
  - cbn [lengthOf]. unfold units. rewrite Hc, H4. specialize (IH n). lia.
Qed.

Lemma eqb_code (a c : ascii) : Ascii.eqb a c = true → code a = code c.
Proof. by intros ->%Ascii.eqb_eq. Qed.

Lemma startsWith_high (h : string) (a : ascii) (p : string) :
  high h → (code a < 128)%N → startsWith h (String a p) = false.
Proof.
  intros Hh Ha. destruct h as [|c h]; [done|]. simpl.
  destruct (Ascii.eqb a c) eqn:Heq; [|done].
  apply eqb_code in Heq. apply Forall_cons in Hh as [Hc _]. lia.
Qed.

Lemma includes_high (h : string) (a : ascii) (p : string) :
  high h → (code a < 128)%N → includes h (String a p) = false.
Proof.
  intros Hh Ha. induction h as [|c h IH]; [done|].
  cbn [includes]. rewrite startsWith_high by done.
  apply IH. by apply Forall_cons in Hh as [_ ?].
Qed.

Lemma startsWith_substring0 (n : nat) (s p : string) :
  plain p → startsWith (substring0 n s) p = true → startsWith s p = true.
Proof.
  revert n s. induction p as [|a p IH]; intros n s Hp; [done|].
  apply Forall_cons in Hp as [Ha Hp].
  destruct s as [|c s]; [done|]. cbn [substring0].
  assert (∀ m, startsWith (String c (substring0 m s)) (String a p) = true →
               startsWith (String c s) (String a p) = true) as Hkeep.
  { intros m. simpl. destruct (Ascii.eqb a c); [by apply IH|done]. }
  destruct (isContinuation c) eqn:Hc; [apply Hkeep|].
  destruct n as [|n]; [done|].
  destruct (240 <=? code c)%N eqn:H4; [|apply Hkeep].
  destruct n as [|n]; [|apply Hkeep].
  destruct s as [|d [|e s]]; [done..|].
  rewrite startsWith_high; [done|apply highSurrogate_high|done].
Qed.

Lemma includes_cons (c : ascii) (s t : string) :
  includes s t = true → includes (String c s) t = true.
Proof.
  intros H.
  change (includes (String c s) t)
    with (if startsWith (String c s) t then true else includes s t).
  by destruct (startsWith (String c s) t).
Qed.

Lemma includes_substring0 (n : nat) (s : string) (a : ascii) (p : string) :
  plain (String a p) →
  includes (substring0 n s) (String a p) = true → includes s (String a p) = true.
Proof.
  intros Hp. pose proof Hp as Hp'. apply Forall_cons in Hp' as [Ha _].
  revert n. induction s as [|c s IH]; intros n; [done|].
  intros H.
  destruct (startsWith (substring0 n (String c s)) (String a p)) eqn:Hs.
  { apply (startsWith_substring0 _ _ _ Hp) in Hs.
    change (includes (String c s) (String a p))
      with (if startsWith (String c s) (String a p) then true
            else includes s (String a p)).
    by rewrite Hs. }
  apply includes_cons.
  assert (∀ m, substring0 n (String c s) = String c (substring0 m s) →
               includes s (String a p) = true) as Hkeep.
  { intros m Hm. rewrite Hm in H, Hs.
    change (includes (String c (substring0 m s)) (String a p))
      with (if startsWith (String c (substring0 m s)) (String a p) then true
            else includes (substring0 m s) (String a p)) in H.
    rewrite Hs in H. by apply (IH m). }
  revert H Hs Hkeep. cbn [substring0].
  destruct (isContinuation c) eqn:Hc; [by intros _ _ Hk; apply (Hk n)|].
  destruct n as [|n]; [done|].
  destruct (240 <=? code c)%N eqn:H4; [|by intros _ _ Hk; apply (Hk n)].
  destruct n as [|n]; [|by intros _ _ Hk; apply (Hk n)].
  destruct s as [|d [|e s]]; [done..|].
  rewrite includes_high; [done|apply highSurrogate_high|done].
Qed.

End UnitFacts.

Section LineFeedFacts.
Import JS.



Lemma allSpace_snoc_nl (a : string) :
  allSpace (a +:+ TestRunner.nl) = allSpace a.
Proof.
  induction a as [a IH] using string_strong_ind.
  rewrite (allSpace_unfold a), (allSpace_unfold (a +:+ TestRunner.nl)).
  destruct a as [|c s1]; [done|]. cbn [String.append].
  destruct (isSpace c); [apply IH; simpl; lia|].
  destruct s1 as [|d s2].
  { cbn [String.append TestRunner.nl]. unfold isSpace2.
    change (code (ascii_of_nat 10) =? 160)%N with false. by rewrite andb_false_r. }
  cbn [String.append].
  destruct (isSpace2 c d); [apply IH; simpl; lia|].
  destruct s2 as [|e s3].
  { cbn [String.append TestRunner.nl]. unfold isSpace3, between.
    change (code (ascii_of_nat 10)) with 10%N. simpl. by rewrite !andb_false_r. }
  cbn [String.append].
  destruct (isSpace3 c d e); [apply IH; simpl; lia|done].
Qed.

Lemma trimEnd_snoc_nl (t : string) : trimEnd (t +:+ TestRunner.nl) = trimEnd t.
Proof.
  induction t as [|c t IH]; [done|].
  change (trimEnd (String c t +:+ TestRunner.nl))
    with (if allSpace (String c t +:+ TestRunner.nl) then EmptyString
          else String c (trimEnd (t +:+ TestRunner.nl))).
  by rewrite allSpace_snoc_nl, IH.
Qed.

Lemma trimStart_allSpace (a : string) : allSpace a = true → trimStart a = "".
Proof.
  induction a as [a IH] using string_strong_ind.
  rewrite allSpace_unfold, trimStart_unfold.
  destruct a as [|c s1]; [done|].
  destruct (isSpace c); [apply IH; simpl; lia|].
  destruct s1 as [|d s2]; [done|].
  destruct (isSpace2 c d); [apply IH; simpl; lia|].
  destruct s2 as [|e s3]; [done|].
  destruct (isSpace3 c d e); [apply IH; simpl; lia|done].
Qed.

Lemma trimStart_snoc_nl (a : string) :
  allSpace a = false →
  trimStart (a +:+ TestRunner.nl) = trimStart a +:+ TestRunner.nl.
Proof.
  induction a as [a IH] using string_strong_ind.
  rewrite (allSpace_unfold a), (trimStart_unfold a),
    (trimStart_unfold (a +:+ TestRunner.nl)).
  destruct a as [|c s1]; [done|]. cbn [String.append].
  destruct (isSpace c); [apply IH; simpl; lia|].
  destruct s1 as [|d s2].
  { cbn [String.append TestRunner.nl]. unfold isSpace2.
    change (code (ascii_of_nat 10) =? 160)%N with false. by rewrite andb_false_r. }
  cbn [String.append].
  destruct (isSpace2 c d); [apply IH; simpl; lia|].
  destruct s2 as [|e s3].
  { cbn [String.append TestRunner.nl]. unfold isSpace3, between.
    change (code (ascii_of_nat 10)) with 10%N. simpl. by rewrite !andb_false_r. }
  cbn [String.append].
  destruct (isSpace3 c d e); [apply IH; simpl; lia|done].
Qed.

(** A line feed at either end does not show after [trim]. *)
Lemma trim_snoc_nl (a : string) : trim (a +:+ TestRunner.nl) = trim a.
Proof.
  unfold trim. destruct (allSpace a) eqn:Ha.
  - rewrite (trimStart_allSpace a Ha), (trimStart_allSpace (a +:+ TestRunner.nl)); [done|].
    by rewrite allSpace_snoc_nl.
  - by rewrite trimStart_snoc_nl, trimEnd_snoc_nl.
Qed.

Lemma trim_cons_nl (a : string) : trim (TestRunner.nl +:+ a) = trim a.
Proof. done. Qed.

End LineFeedFacts.



(** ** Properties of the executor *)

Section ExecutorFacts.
Import TestRunner Spec.

Lemma containsTestFailures_spec (text : string) :
  containsTestFailures text = true ↔ showsFailure text.
Proof.
  unfold containsTestFailures, showsFailure, mentions.
  rewrite existsb_exists. split.
  - intros (ind & Hin & H). exists ind. split; [by apply list_elem_of_In|].
    by apply includes_lower.
  - intros (ind & Hin & H). exists ind. split; [by apply list_elem_of_In|].
    by apply includes_lower.
Qed.

Lemma containsTestFailures_failing (text : string) :
  JS.includes text "2 failing" = true → containsTestFailures text = true.
Proof.
  intros H. unfold containsTestFailures. apply existsb_exists.
  exists "FAIL". split; [unfold failureIndicators; simpl; tauto|].
  apply includes_mono_lower in H.
  eapply includes_trans; [exact H|]. reflexivity.
Qed.

(** The [hasErrors] field of a run that takes place. *)
Lemma reported_ran (h : Host) (r : Runner) (cmd : string) :
  ran h r cmd →
  reported h r =
  match execAsync h cmd with
  | Resolved stdout stderr =>
      (0 <? String.length stderr)%nat || containsTestFailures (stdout +:+ stderr)
  | Rejected _ _ _ => true
  end.
Proof.
  intros [Hres Hne]. unfold reported, resolved, runTests in *.
  destruct (getTestCommand h r) as [[res r'] ev]. simpl in Hres. subst res.
  apply truthy_true in Hne. rewrite Hne. simpl.
  by destruct (execAsync h cmd).
Qed.

Lemma length_pos (s : string) : (0 <? String.length s)%nat = true ↔ s ≠ "".
Proof. destruct s; simpl; split; done. Qed.

End ExecutorFacts.

(** C2, as amended.  For every test run that takes place, [hasErrors] is
    true exactly when the child process ends in failure, or it wrote to
    stderr, or stdout followed by stderr contains one of the fixed failure
    indicators with letter case ignored; so a run that exits cleanly with
    "2 failing" in its output has [hasErrors] true. *)
Theorem C2_has_errors_iff (h : TestRunner.Host) (r : TestRunner.Runner)
        (cmd : string) :
  Spec.ran h r cmd →
  let o := TestRunner.execAsync h cmd in
  (Spec.reported h r = true
   ↔ Spec.exitedWithFailure o ∨ Spec.stderrOf o ≠ ""
     ∨ Spec.showsFailure (Spec.combinedOutput o))
  ∧ (JS.includes (Spec.combinedOutput o) "2 failing" = true
     → Spec.reported h r = true).
Proof.
  intros Hran. simpl. rewrite (reported_ran h r cmd Hran).
  destruct (TestRunner.execAsync h cmd) as [out err|out err msg]; simpl.
  - rewrite orb_true_iff, length_pos, containsTestFailures_spec. split.
    + tauto.
    + intros H. right. by apply containsTestFailures_spec,
                            containsTestFailures_failing.
  - split; [|done]. split; [by left|done].
Qed.

Lemma C2_has_errors_iff_witness :
  Spec.reported (Spec.customHost "npx mocha" (TestRunner.Resolved "2 failing" ""))
                Spec.fresh = true.
Proof.
  apply (C2_has_errors_iff
           (Spec.customHost "npx mocha" (TestRunner.Resolved "2 failing" ""))
           Spec.fresh "npx mocha").
  - split; [vm_compute; reflexivity|discriminate].
  - vm_compute; reflexivity.
Defined.

(** C2 as stated fails: a run that exits cleanly and prints no failure
    indicator, but writes a warning to stderr, is reported as erroring. *)
Lemma C2_counterexample :
  let o := TestRunner.Resolved "3 passing" "npm WARN deprecated" in
  let h := Spec.customHost "npm test" o in
  Spec.ran h Spec.fresh "npm test"
  ∧ TestRunner.execAsync h "npm test" = o
  ∧ ¬ (Spec.reported h Spec.fresh = true
       ↔ Spec.exitedWithFailure o ∨ Spec.showsFailure (Spec.combinedOutput o)).
Proof.
  simpl. split; [split; [vm_compute; reflexivity|discriminate]|].
  split; [reflexivity|].
  intros [H _]. destruct (H eq_refl) as [[]|Hshow].
  apply containsTestFailures_spec in Hshow. vm_compute in Hshow. discriminate.
Qed.

(** C10.  When the child process resolves (it did not throw) and wrote
    anything to stderr, [hasErrors] is true, whatever the output contains. *)
Theorem C10_stderr_suffices (h : TestRunner.Host) (r : TestRunner.Runner)
        (cmd stdout stderr : string) :
  Spec.ran h r cmd →
  TestRunner.execAsync h cmd = TestRunner.Resolved stdout stderr →
  stderr ≠ "" →
  Spec.reported h r = true.
Proof.
  intros Hran Hexec Hne. rewrite (reported_ran h r cmd Hran), Hexec.
  apply orb_true_iff. left. by apply length_pos.
Qed.

Lemma C10_stderr_suffices_witness :
  TestRunner.containsTestFailures ("3 passing" +:+ "npm WARN deprecated") = false
  ∧ Spec.reported
      (Spec.customHost "npm test"
         (TestRunner.Resolved "3 passing" "npm WARN deprecated"))
      Spec.fresh = true.
Proof.
  split; [vm_compute; reflexivity|].
  apply (C10_stderr_suffices
           (Spec.customHost "npm test"
              (TestRunner.Resolved "3 passing" "npm WARN deprecated"))
           Spec.fresh "npm test" "3 passing" "npm WARN deprecated").
  - split; [vm_compute; reflexivity|discriminate].
  - reflexivity.
  - discriminate.
Defined.


(** ** Properties of the selector *)

Section SelectorFacts.
Import TestRunner Spec.

Lemma locked_unlocked (r : Runner) : locked r = None ↔ unlocked r.
Proof.
  unfold locked, unlocked. destruct (selectedFramework r) as [[|c s]|]; simpl.
  - split; [by right|done].
  - split; [done|]. intros [|]; congruence.
  - split; [by left|done].
Qed.

Lemma locked_Some (r : Runner) (s : string) :
  selectedFramework r = Some s → s ≠ "" → locked r = Some s.
Proof.
  intros H Hne. unfold locked. rewrite H.
  apply truthy_true in Hne. by rewrite Hne.
Qed.

Lemma logVerbose_quiet (h : Host) (msg : string) : ¬ prompted (logVerbose h msg).
Proof.
  unfold prompted, logVerbose. intros [items H].
  destruct (verboseLogs h).
  - apply list_elem_of_singleton in H. discriminate.
  - by apply not_elem_of_nil in H.
Qed.

Lemma detect_quiet (h : Host) : ¬ prompted (detectAllFrameworks h).2.
Proof.
  unfold detectAllFrameworks.
  destruct (detectBody h []) as [[?|e] fws]; simpl.
  - intros [items H]. by apply not_elem_of_nil in H.
  - apply logVerbose_quiet.
Qed.

Lemma custom_wins (h : Host) (r : Runner) :
  let custom := JS.trim (customTestCommand h) in
  custom ≠ "" →
  getTestCommand h r
  = (Some custom, r, logVerbose h ("Using custom test command: " +:+ custom)).
Proof.
  intros custom Hne. unfold getTestCommand. fold custom.
  apply truthy_true in Hne. by rewrite Hne.
Qed.

Lemma lock_reused (h : Host) (r : Runner) (s : string) :
  JS.trim (customTestCommand h) = "" →
  selectedFramework r = Some s → s ≠ "" →
  getTestCommand h r
  = (Some s, r, logVerbose h ("Using previously selected framework: " +:+ s)).
Proof.
  intros Hcustom Hsel Hne. unfold getTestCommand.
  by rewrite Hcustom, (locked_Some r s Hsel Hne).
Qed.

Lemma detection_decides (h : Host) (r : Runner) :
  JS.trim (customTestCommand h) = "" → unlocked r →
  getTestCommand h r
  = let log := (detectAllFrameworks h).2 in
    match (detectAllFrameworks h).1 with
    | [] => (None, r, log)
    | [fw] => (Some (command fw), {| selectedFramework := Some (command fw) |}, log)
    | fws =>
        let '(res, r', ev) := showFrameworkPicker h r fws in (res, r', log ++ ev)
    end.
Proof.
  intros Hcustom Hun. apply locked_unlocked in Hun. unfold getTestCommand.
  rewrite Hcustom, Hun. cbn [JS.truthy].
  destruct (detectAllFrameworks h) as [fws log]. cbn [fst snd].
  by destruct fws as [|fw1 [|fw2 fws]].
Qed.

End SelectorFacts.

(** C1.  [getTestCommand] resolves by strict priority, for every host and
    every state of the instance: (1) a custom command that is non-empty
    after trimming is returned, whatever is locked in or detected;
    (2) otherwise a locked-in command is returned as it is; (3) otherwise a
    single detected candidate is locked in and returned without a prompt;
    (4) with two or more candidates the quick pick is shown with them, a
    cancelled pick gives null and leaves the instance as it was, a pick is
    locked in and returned; (5) with no candidate null is returned. *)
Theorem C1_selector_priority (h : TestRunner.Host) (r : TestRunner.Runner) :
  let custom := JS.trim (TestRunner.customTestCommand h) in
  let detected := (TestRunner.detectAllFrameworks h).1 in
  let items := map TestRunner.toItem detected in
  (custom ≠ "" →
     Spec.resolved h r = Some custom ∧ Spec.after h r = r
     ∧ ¬ Spec.prompted (Spec.events h r))
  ∧ (custom = "" →
     ∀ s, TestRunner.selectedFramework r = Some s → s ≠ "" →
       Spec.resolved h r = Some s ∧ Spec.after h r = r
       ∧ ¬ Spec.prompted (Spec.events h r))
  ∧ (custom = "" → Spec.unlocked r →
     ∀ fw, detected = [fw] →
       Spec.resolved h r = Some (TestRunner.command fw)
       ∧ TestRunner.selectedFramework (Spec.after h r)
         = Some (TestRunner.command fw)
       ∧ ¬ Spec.prompted (Spec.events h r))
  ∧ (custom = "" → Spec.unlocked r → 2 ≤ length detected →
     TestRunner.QuickPickShown items ∈ Spec.events h r
     ∧ (TestRunner.showQuickPick h items = None →
        Spec.resolved h r = None ∧ Spec.after h r = r)
     ∧ (∀ chosen, TestRunner.showQuickPick h items = Some chosen →
        Spec.resolved h r = Some (TestRunner.itemCommand chosen)
        ∧ TestRunner.selectedFramework (Spec.after h r)
          = Some (TestRunner.itemCommand chosen)))
  ∧ (custom = "" → Spec.unlocked r → detected = [] →
     Spec.resolved h r = None ∧ Spec.after h r = r
     ∧ ¬ Spec.prompted (Spec.events h r)).
Proof.
  cbv zeta. unfold Spec.resolved, Spec.after, Spec.events.
  split; [|split; [|split; [|split]]].
  - intros Hne. rewrite (custom_wins h r Hne). simpl.
    auto using logVerbose_quiet.
  - intros Hcustom s Hsel Hne. rewrite (lock_reused h r s Hcustom Hsel Hne).
    simpl. auto using logVerbose_quiet.
  - intros Hcustom Hun fw Hone. rewrite (detection_decides h r Hcustom Hun).
    rewrite Hone. simpl. auto using detect_quiet.
  - intros Hcustom Hun Htwo. rewrite (detection_decides h r Hcustom Hun).
    destruct (TestRunner.detectAllFrameworks h).1 as [|fw1 [|fw2 fws]] eqn:Hd;
      simpl in Htwo; [lia..|].
    unfold TestRunner.showFrameworkPicker. cbv zeta.
    destruct (TestRunner.showQuickPick h _) as [chosen|]; simpl.
    + split; [|split; [done|]].
      * apply elem_of_app. right. apply list_elem_of_here.
      * by intros ? [= <-].
    + split; [|split; [done|done]].
      apply elem_of_app. right. apply list_elem_of_here.
  - intros Hcustom Hun Hnone. rewrite (detection_decides h r Hcustom Hun).
    rewrite Hnone. simpl. auto using detect_quiet.
Qed.

Lemma C1_selector_priority_witness :
  let go := Spec.holding ["go.mod"] (TestRunner.ManifestUnreadable "ENOENT") (Some ["go.mod"]) in
  let both := Spec.holding ["go.mod"; "Cargo.toml"]
                (TestRunner.ManifestUnreadable "ENOENT") (Some []) in
  let jest := {| TestRunner.selectedFramework := Some "npx jest" |} in
  Spec.resolved (Spec.customHost "pytest -q" (TestRunner.Resolved "" "")) jest
  = Some "pytest -q"
  ∧ Spec.resolved (Spec.plainHost both Spec.cancel) jest = Some "npx jest"
  ∧ Spec.resolved (Spec.plainHost go Spec.cancel) Spec.fresh = Some "go test ./..."
  ∧ Spec.resolved (Spec.plainHost both Spec.cancel) Spec.fresh = None
  ∧ Spec.resolved (Spec.plainHost Spec.bareWorkspace Spec.cancel) Spec.fresh = None.
Proof.
  cbv zeta. split; [|split; [|split; [|split]]].
  - refine (proj1 (proj1 (C1_selector_priority _ _) _)).
    vm_compute. discriminate.
  - refine (proj1 (proj1 (proj2 (C1_selector_priority _ _)) _ "npx jest" _ _)).
    + vm_compute; reflexivity.
    + reflexivity.
    + discriminate.
  - refine (proj1 (proj1 (proj2 (proj2 (C1_selector_priority _ _))) _ _
                         (TestRunner.mk "Go test" "go test ./..." 0.9) _)).
    + vm_compute; reflexivity.
    + by left.
    + vm_compute; reflexivity.
  - refine (proj1 (proj1 (proj2 (proj1 (proj2 (proj2 (proj2
              (C1_selector_priority _ _)))) _ _ _)) _)).
    + vm_compute; reflexivity.
    + by left.
    + vm_compute. lia.
    + vm_compute; reflexivity.
  - refine (proj1 (proj2 (proj2 (proj2 (proj2 (C1_selector_priority _ _)))) _ _ _)).
    + vm_compute; reflexivity.
    + by left.
    + vm_compute; reflexivity.
Defined.


(** ** Properties of the detector *)

Section DetectorFacts.
Import TestRunner Spec.

Lemma emits_ret : emits (ret tt) [].
Proof. intros fws. unfold ret. by rewrite app_nil_r. Qed.

Lemma emits_push fw : emits (push fw) [fw].
Proof. by intros fws. Qed.

Lemma emits_when (b : bool) fw : emits (when b (push fw)) (if b then [fw] else []).
Proof. destruct b; [apply emits_push|apply emits_ret]. Qed.

Lemma emits_seq (m k : Try unit) l1 l2 :
  emits m l1 → emits k l2 → emits (m ;; k) (l1 ++ l2).
Proof.
  intros Hm Hk fws. unfold bind. rewrite Hm, Hk. by rewrite app_assoc.
Qed.

Lemma bind_ret {A B} (a : A) (k : A → Try B) fws : (x <- ret a ;; k x) fws = k a fws.
Proof. done. Qed.

Lemma member_nonnull (key : string) (j : json) :
  j ≠ JNull → member key j = ret (prop key j).
Proof. by destruct j. Qed.

Lemma scanSource_find (h : Host) :
  (if (0 <? length (findPythonTestFiles (workspace h)))%nat
   then [mk ("pytest (" +:+ JS.showN (N.of_nat (length (findPythonTestFiles (workspace h))))
             +:+ " test files found)") (pytestCommand h) 0.8]
   else [])
  = scanSource h (readdir (workspace h)).
Proof.
  unfold scanSource, findPythonTestFiles.
  destruct (readdir (workspace h)) as [files|]; [|done].
  change (default [] (Some files)) with files.
  change (List.filter _ files) with (List.filter isPythonTest files).
  by destruct (List.filter isPythonTest files).
Qed.

Lemma detectMarkers_emits (h : Host) :
  let ws := workspace h in
  emits (detectMarkers h)
        (configSource h (stat ws "pytest.ini") (stat ws "requirements.txt")
         ++ scanSource h (readdir ws)
         ++ goSource (stat ws "go.mod") ++ cargoSource (stat ws "Cargo.toml")).
Proof.
  cbv zeta. unfold detectMarkers.
  apply emits_seq; [apply emits_when|].
  rewrite <- scanSource_find.
  apply emits_seq; [apply emits_when|].
  apply emits_seq; apply emits_when.
Qed.

Lemma detectManifest_quiet (h : Host) :
  manifestQuiet (workspace h) → ∃ ms, emits (detectManifest h) ms.
Proof.
  intros Hq. unfold detectManifest, fileExists.
  destruct (stat (workspace h) "package.json") eqn:Hstat;
    [|eexists; apply emits_ret].
  destruct Hq as [Hq|(j & Hj & Hnn)]; [congruence|].
  unfold readManifest. rewrite Hj.
  eexists. intros fws. rewrite bind_ret.
  rewrite (member_nonnull "scripts" j Hnn), bind_ret.
  revert fws. apply emits_seq; [apply emits_when|].
  intros fws.
  rewrite (member_nonnull "dependencies" j Hnn), bind_ret.
  rewrite (member_nonnull "devDependencies" j Hnn), bind_ret.
  revert fws.
  repeat (apply emits_seq; [apply emits_when|]). apply emits_when.
Qed.

Lemma detectManifest_fails (h : Host) (e : string) :
  manifestFails (workspace h) e → detectManifest h [] = (Throw e, []).
Proof.
  intros [Hstat Hm]. unfold detectManifest, fileExists, readManifest.
  rewrite Hstat. by destruct Hm as [-> | ->].
Qed.

Lemma elem_of_insertByConfidence fw x l :
  x ∈ insertByConfidence fw l ↔ x = fw ∨ x ∈ l.
Proof.
  induction l as [|y l IH]; simpl.
  - rewrite list_elem_of_singleton, elem_of_nil. tauto.
  - destruct (Qle_bool _ _); rewrite !elem_of_cons; [rewrite IH|]; tauto.
Qed.

Lemma elem_of_sortByConfidence x l : x ∈ sortByConfidence l ↔ x ∈ l.
Proof.
  unfold sortByConfidence.
  assert (∀ acc, x ∈ foldl (fun sorted fw => insertByConfidence fw sorted) acc l
                 ↔ x ∈ acc ∨ x ∈ l) as H.
  { induction l as [|y l IH]; intros acc; simpl.
    - rewrite elem_of_nil. tauto.
    - rewrite IH, elem_of_insertByConfidence, elem_of_cons. tauto. }
  rewrite H, elem_of_nil. tauto.
Qed.

End DetectorFacts.

(** C5, as amended.  When the manifest source raises nothing, the candidates
    found are those of the manifest together with those of every other
    source, each a function of its own probes alone: a marker probe or a
    directory scan that fails is silent, reads as an absent file or an empty
    listing, and takes nothing from the other sources; nothing is logged.
    When [package.json] cannot be read or parsed, the error is caught and
    logged through the verbose log. *)
Theorem C5_detection_sources (h : TestRunner.Host) :
  let ws := TestRunner.workspace h in
  let found := (TestRunner.detectAllFrameworks h).1 in
  let log := (TestRunner.detectAllFrameworks h).2 in
  (Spec.manifestQuiet ws →
   ∃ ms, Spec.emits (TestRunner.detectManifest h) ms
     ∧ (∀ fw, fw ∈ found
         ↔ fw ∈ ms
              ++ Spec.configSource h (TestRunner.stat ws "pytest.ini")
                                     (TestRunner.stat ws "requirements.txt")
              ++ Spec.scanSource h (TestRunner.readdir ws)
              ++ Spec.goSource (TestRunner.stat ws "go.mod")
              ++ Spec.cargoSource (TestRunner.stat ws "Cargo.toml"))
     ∧ log = [])
  ∧ (∀ e, Spec.manifestFails ws e →
     log = TestRunner.logVerbose h ("Error detecting test frameworks: " +:+ e)).
Proof.
  cbv zeta. split.
  - intros Hq. destruct (detectManifest_quiet h Hq) as [ms Hms].
    exists ms. split; [done|].
    pose proof (emits_seq _ _ _ _ Hms (detectMarkers_emits h) []) as Hbody.
    unfold TestRunner.detectAllFrameworks, TestRunner.detectBody.
    rewrite Hbody. simpl. split; [|done].
    intros fw. apply elem_of_sortByConfidence.
  - intros e He. unfold TestRunner.detectAllFrameworks, TestRunner.detectBody.
    unfold TestRunner.bind at 1. by rewrite (detectManifest_fails h e He).
Qed.

Lemma C5_detection_sources_witness :
  let ws := Spec.holding ["go.mod"] (TestRunner.ManifestUnreadable "ENOENT") None in
  TestRunner.readdir ws = None
  ∧ TestRunner.mk "Go test" "go test ./..." 0.9
    ∈ (TestRunner.detectAllFrameworks (Spec.plainHost ws Spec.cancel)).1.
Proof.
  cbv zeta. split; [reflexivity|].
  destruct (proj1 (C5_detection_sources
                     (Spec.plainHost
                        (Spec.holding ["go.mod"]
                           (TestRunner.ManifestUnreadable "ENOENT") None)
                        Spec.cancel)))
    as (ms & _ & Hfound & _).
  - left. reflexivity.
  - apply Hfound. do 3 (apply elem_of_app; right).
    apply elem_of_app. left. apply list_elem_of_here.
Defined.

(** C5 as stated fails.  With a [package.json] that does not parse, the
    Go source, whose own probe succeeds, contributes nothing; and a
    directory scan that fails is not logged, even with verbose logs on. *)
Lemma C5_counterexample :
  let broken :=
    Spec.holding ["package.json"; "go.mod"]
      (TestRunner.ManifestMalformed "SyntaxError: Unexpected end of JSON input")
      (Some ["package.json"; "go.mod"]) in
  let unlistable :=
    Spec.holding ["go.mod"] (TestRunner.ManifestUnreadable "ENOENT") None in
  (TestRunner.fileExists broken "go.mod" = true
   ∧ (TestRunner.detectAllFrameworks (Spec.plainHost broken Spec.cancel)).1 = [])
  ∧ (TestRunner.readdir unlistable = None
     ∧ TestRunner.verboseLogs (Spec.plainHost unlistable Spec.cancel) = true
     ∧ (TestRunner.detectAllFrameworks (Spec.plainHost unlistable Spec.cancel)).2
       = []).
Proof. vm_compute. repeat split. Qed.


(** ** The lock stays well-formed *)

Section LockFacts.
Import TestRunner Spec.

Lemma pushesNamed_ret {A} (a : A) : pushesNamed (ret a).
Proof. by intros fws H. Qed.

Lemma pushesNamed_throw {A} (e : string) : pushesNamed (throw (A:=A) e).
Proof. by intros fws H. Qed.

Lemma pushesNamed_bind {A B} (m : Try A) (k : A → Try B) :
  pushesNamed m → (∀ a, pushesNamed (k a)) → pushesNamed (bind m k).
Proof.
  intros Hm Hk fws H. unfold bind. specialize (Hm fws H).
  destruct (m fws) as [[a|e] fws']; simpl in *; [by apply Hk|done].
Qed.

Lemma pushesNamed_when (b : bool) (fw : DetectedFramework) :
  named fw → pushesNamed (when b (push fw)).
Proof.
  intros Hfw. destruct b; [|apply pushesNamed_ret].
  intros fws H. simpl. apply Forall_app. split; [done|]. by constructor.
Qed.

Lemma pushesNamed_member (key : string) (j : json) : pushesNamed (member key j).
Proof. destruct j; first [apply pushesNamed_throw|apply pushesNamed_ret]. Qed.

Lemma pushesNamed_readManifest (ws : Workspace) : pushesNamed (readManifest ws).
Proof.
  unfold readManifest.
  destruct (manifest ws); first [apply pushesNamed_throw|apply pushesNamed_ret].
Qed.

Lemma named_node (h : Host) (name : string) (q : Q) (cmd : string) :
  getNodeCommand h cmd ≠ "" → named (mk name (getNodeCommand h cmd) q).
Proof. done. Qed.

Lemma pushesNamed_detectBody (h : Host) : pushesNamed (detectBody h).
Proof.
  unfold detectBody, detectManifest, detectMarkers, pytestCommand.
  assert (∀ name cmd q, cmd ≠ "" → named (mk name cmd q)) as Hmk by done.
  repeat first
    [ apply pushesNamed_bind; [|intros ?]
    | apply pushesNamed_when
    | apply pushesNamed_readManifest
    | apply pushesNamed_member
    | apply pushesNamed_ret
    | match goal with |- pushesNamed (if ?b then _ else _) => destruct b end
    | apply Hmk ];
    cbv [getNodeCommand getPythonCommand]; destruct (win32 h);
    vm_compute; intros Heq; discriminate Heq.
Qed.

Lemma detected_named (h : Host) : Forall named (detectAllFrameworks h).1.
Proof.
  pose proof (pushesNamed_detectBody h [] (Forall_nil_2 _)) as H.
  unfold detectAllFrameworks.
  destruct (detectBody h []) as [[?|e] fws]; cbn [fst snd] in *;
    rewrite Forall_forall in H |- *; intros fw Hfw; apply H;
    by apply elem_of_sortByConfidence.
Qed.

(** Once well-formed, the lock stays so: [getTestCommand] only ever locks in
    a detected command or the command of an item that was offered. *)
Lemma lock_stays_named (h : Host) (r : Runner) :
  picksOffered h → wellLocked r → wellLocked (after h r).
Proof.
  intros Hpick Hr. unfold after, getTestCommand.
  destruct (JS.truthy (JS.trim (customTestCommand h))); [done|].
  destruct (locked r); [done|].
  pose proof (detected_named h) as Hd.
  destruct (detectAllFrameworks h) as [fws log]. simpl in Hd.
  destruct fws as [|fw1 [|fw2 fws]]; [done| |].
  - intros s [= <-]. by apply Forall_inv in Hd.
  - unfold showFrameworkPicker. cbv zeta.
    destruct (showQuickPick h _) as [chosen|] eqn:Hc; [|done].
    intros s [= <-]. apply Hpick in Hc.
    apply list_elem_of_fmap in Hc as (fw & -> & Hfw).
    eapply Forall_forall in Hd; [exact Hd|done].
Qed.

Lemma reset_unlocks (h : Host) (r : Runner) :
  unlocked (resetFrameworkSelection h r).1.
Proof. by left. Qed.

End LockFacts.


(** ** Properties of the parser *)

Section ParserFacts.
Import TestRunner Spec.

(** One turn of the loop adds what the families make of the line. *)
Lemma parseFrom_cons (lines : list string) (i : nat) (line : string)
      (rest : list string) (errors : list TestError) :
  parseFrom lines i (line :: rest) errors
  = parseFrom lines (S i) rest
      (errors ++ option_list (firstMatch families lines i line)).
Proof.
  cbn [parseFrom firstMatch families].
  unfold jsFamily, pythonFamily, goFamily, genericFamily.
  destruct (orElse (JS.exec jestAt line) (JS.exec jestFile line)); [done|].
  destruct (orElse (JS.exec pythonFrame line) (JS.exec pythonFile line)); [done|].
  destruct (JS.exec goFile line); [done|].
  cbn [fmap option_fmap option_map].
  destruct (isErrorLine line); [done|].
  cbn [option_list]. by rewrite app_nil_r.
Qed.

Lemma parseFrom_spec (lines rest : list string) (i : nat) (errors : list TestError) :
  parseFrom lines i rest errors
  = errors ++ omap id (imap (fun j l => firstMatch families lines (i + j) l) rest).
Proof.
  revert i errors. induction rest as [|l rest IH]; intros i errors.
  - simpl. by rewrite app_nil_r.
  - rewrite parseFrom_cons, IH, imap_cons. cbn [omap list_omap].
    rewrite Nat.add_0_r. rewrite <- app_assoc. f_equal.
    assert (imap (fun j l0 => firstMatch families lines (S i + j) l0) rest
            = imap ((fun j l0 => firstMatch families lines (i + j) l0) ∘ S) rest)
      as ->.
    { apply imap_ext. intros j x _. unfold compose.
      by rewrite Nat.add_succ_r. }
    unfold id at 2. by destruct (firstMatch families lines i l).
Qed.

Lemma firstMatch_shape (lines : list string) (i : nat) (l : string) (e : TestError) :
  firstMatch families lines i l = Some e →
  type e = "jest" ∨ type e = "python" ∨ type e = "go"
  ∨ (type e = "generic" ∧ file e = "unknown" ∧ line e = 0%N).
Proof.
  cbn [firstMatch families].
  unfold jsFamily, pythonFamily, goFamily, genericFamily.
  destruct (orElse (JS.exec jestAt l) (JS.exec jestFile l));
    [intros [= <-]; by left|].
  destruct (orElse (JS.exec pythonFrame l) (JS.exec pythonFile l));
    [intros [= <-]; by right; left|].
  destruct (JS.exec goFile l); [intros [= <-]; by right; right; left|].
  cbn [fmap option_fmap option_map].
  destruct (isErrorLine l); [intros [= <-]; by right; right; right|done].
Qed.

End ParserFacts.

(** C3.  [parseErrors] walks the lines of the output once, in order; each
    line yields at most one error, the one of the first pattern family that
    matches it in the order JS/TS stack frame (tagged "jest"), Python
    traceback ("python"), Go ("go"), generic error line (file "unknown",
    line 0, tagged "generic"); the errors come out in the order of the
    lines. *)
Theorem C3_parse_line_by_line (output : string) :
  TestRunner.parseErrors output = omap id (Spec.perLine output)
  ∧ length (Spec.perLine output) = length (JS.split TestRunner.nl output)
  ∧ Forall (fun e =>
              type e = "jest" ∨ type e = "python" ∨ type e = "go"
              ∨ (type e = "generic" ∧ file e = "unknown" ∧ line e = 0%N))
           (TestRunner.parseErrors output).
Proof.
  assert (TestRunner.parseErrors output = omap id (Spec.perLine output)) as Heq.
  { unfold TestRunner.parseErrors, Spec.perLine. cbv zeta.
    by rewrite parseFrom_spec. }
  split; [done|]. split.
  - unfold Spec.perLine. cbv zeta. by rewrite length_imap.
  - rewrite Heq. apply Forall_forall. intros e He.
    apply list_elem_of_omap in He as (o & Ho & Hid).
    unfold id in Hid. subst o. unfold Spec.perLine in Ho. cbv zeta in Ho.
    apply list_elem_of_lookup in Ho as [i Hi].
    rewrite list_lookup_imap in Hi.
    destruct (JS.split TestRunner.nl output !! i) as [l|]; [|done].
    cbn [fmap option_fmap option_map] in Hi. injection Hi as Hi.
    exact (firstMatch_shape _ _ _ _ Hi).
Qed.


(** ** Properties of the suggestion batch *)

Section BatchFacts.
Import AITestingService Spec.

Lemma call_ask (b : Backend) (h : Host) :
  call b h
  = ask h (secretName b) (service (suggestionOf b "")) (confidence (suggestionOf b "")) b.
Proof. by destruct b. Qed.

Lemma call_succeeds (h : Host) (b : Backend) (text : string) :
  succeeds h b text → call b h = fulfilled (Some (suggestionOf b text)).
Proof.
  intros (apiKey & Hkey & Hne & Hpost & Htext). rewrite call_ask. unfold ask.
  rewrite Hkey, Hpost.
  apply truthy_true in Hne, Htext. rewrite Hne, Htext. simpl.
  by destruct b.
Qed.

Lemma call_fails (h : Host) (b : Backend) :
  fails h b → call b h = fulfilled None.
Proof.
  intros Hf. rewrite call_ask. unfold ask.
  destruct Hf as [-> | [-> | [e He]]]; [done..|].
  destruct (secrets h (secretName b)) as [|[apiKey|]]; [done| |done].
  rewrite He. by destruct (negb (JS.truthy apiKey)).
Qed.

Lemma collect_foldl (ps : list (Settled (option AISuggestion)))
      (acc : list AISuggestion) :
  foldl collect acc ps = acc ++ omap valueOf ps.
Proof.
  revert acc. induction ps as [|p ps IH]; intros acc; simpl.
  - by rewrite app_nil_r.
  - rewrite IH. destruct p as [[v|]|]; simpl; [|done..].
    by rewrite <- app_assoc.
Qed.

(** The batch, backend by backend. *)
Lemma getSuggestions_batch (h : Host) :
  getSuggestions h
  = omap (fun b => if enabled h (serviceId b) then valueOf (call b h) else None)
         [gemini; openai; claude].
Proof.
  unfold getSuggestions. rewrite collect_foldl. simpl.
  destruct (enabled h "gemini"), (enabled h "openai"), (enabled h "claude");
    simpl;
    repeat match goal with
           | |- context [match ?x with Some _ => _ | None => _ end] => destruct x
           end; reflexivity.
Qed.

End BatchFacts.

(** C6.  Each backend's call stands alone.  A backend that fails (missing
    or unreadable credential, timeout, transport failure) fulfils with null
    instead of raising.  An enabled backend that has its credential and gets
    a reply has its suggestion in the returned list, whatever happens to the
    others; and with the three backends enabled, one of them failing and the
    other two replying, the returned list is the other two's suggestions, in
    dispatch order. *)
Theorem C6_backends_isolated (h : AITestingService.Host) :
  (∀ b, Spec.fails h b → Spec.call b h = AITestingService.fulfilled None)
  ∧ (∀ b text,
     AITestingService.enabled h (Spec.serviceId b) = true →
     Spec.succeeds h b text →
     Spec.suggestionOf b text ∈ AITestingService.getSuggestions h)
  ∧ (∀ bad ok1 ok2 text1 text2,
     (∀ b, AITestingService.enabled h (Spec.serviceId b) = true) →
     Spec.fails h bad → bad ≠ ok1 → bad ≠ ok2 →
     Spec.position ok1 < Spec.position ok2 →
     Spec.succeeds h ok1 text1 → Spec.succeeds h ok2 text2 →
     AITestingService.getSuggestions h
     = [Spec.suggestionOf ok1 text1; Spec.suggestionOf ok2 text2]).
Proof.
  split; [exact (call_fails h)|]. split.
  - intros b text Hen Hok. rewrite getSuggestions_batch.
    apply list_elem_of_omap. exists b. split.
    + destruct b; repeat constructor.
    + by rewrite Hen, (call_succeeds h b text Hok).
  - intros bad ok1 ok2 text1 text2 Hen Hbad Hne1 Hne2 Hpos Hok1 Hok2.
    rewrite getSuggestions_batch. cbn [omap list_omap].
    rewrite !Hen.
    apply call_fails in Hbad. apply call_succeeds in Hok1, Hok2.
    destruct bad, ok1, ok2; try done; simpl in Hpos; try lia;
      rewrite Hbad, Hok1, Hok2; reflexivity.
Qed.

Lemma C6_backends_isolated_witness :
  AITestingService.getSuggestions Spec.batchHost
  = [Spec.suggestionOf AITestingService.openai "Await the call.";
     Spec.suggestionOf AITestingService.claude "Mock the clock."].
Proof.
  apply (proj2 (proj2 (C6_backends_isolated Spec.batchHost))
               AITestingService.gemini).
  - by intros [].
  - right. right. by eexists.
  - discriminate.
  - discriminate.
  - simpl. lia.
  - exists "k". by repeat split.
  - exists "k". by repeat split.
Defined.


(** ** Properties of the fix extraction *)

Section ExtractFacts.
Import JS AITestingService Spec.

Lemma eatLit_startsWith (p s : string) :
  eatLit false p s = if startsWith s p then Some (drop (String.length p) s) else None.
Proof.
  revert s. induction p as [|a p IH]; intros s; simpl; [done|].
  destruct s as [|b s]; [done|]. unfold charEq. simpl.
  destruct (Ascii.eqb a b); [apply IH|done].
Qed.

Lemma startsWith_drop (s p : string) :
  startsWith s p = true → s = p +:+ drop (String.length p) s.
Proof.
  revert s. induction p as [|a p IH]; intros s; simpl; [done|].
  destruct s as [|b s]; [done|].
  destruct (Ascii.eqb_spec a b) as [->|]; [|done].
  intros H. f_equal. by apply IH.
Qed.

Lemma take_app_length (a b : string) : take (String.length a) (a +:+ b) = a.
Proof. induction a; simpl; [by destruct b|congruence]. Qed.

Lemma drop_app_length (a b : string) : drop (String.length a) (a +:+ b) = b.
Proof. induction a; simpl; congruence. Qed.

Lemma before_after (sep s rest : string) :
  afterFirst sep s = Some rest → s = before sep s +:+ sep +:+ rest.
Proof.
  induction s as [|c s IH]; cbn [afterFirst before].
  - destruct (startsWith "" sep) eqn:Hp; [|done].
    intros [= <-]. simpl. by apply startsWith_drop.
  - destruct (startsWith (String c s) sep) eqn:Hp.
    + intros [= <-]. simpl. by apply startsWith_drop.
    + intros H. simpl. f_equal. by apply IH.
Qed.

Lemma afterFirst_includes (sep s : string) :
  includes s sep = true ↔ is_Some (afterFirst sep s).
Proof.
  induction s as [|c s IH]; cbn [afterFirst includes].
  - destruct (startsWith "" sep); split; try done. all: by intros [? ?].
  - destruct (startsWith (String c s) sep); [split; eauto|done].
Qed.

(** The lazy wildcard stops at the first place its continuation accepts. *)
Lemma repLazy_all {R} (s sep : string) (cont : string → option R) (g : string → R) :
  (∀ s2, cont s2 = if startsWith s2 sep then Some (g s2) else None) →
  repLazy CAll 0 s cont = (fun rest => g (sep +:+ rest)) <$> afterFirst sep s.
Proof.
  intros Hcont.
  induction s as [|c s IH]; cbn [repLazy afterFirst inClass Nat.pred]; rewrite Hcont.
  - destruct (startsWith "" sep) eqn:Hp; [|done]. simpl.
    by rewrite <- startsWith_drop.
  - destruct (startsWith (String c s) sep) eqn:Hp; [|apply IH]. simpl.
    by rewrite <- startsWith_drop.
Qed.

Lemma matchHere_fenced (s : string) :
  matchHere fencedBlock s
  = if startsWith s fence then
      match afterFirst fence (drop 3 s) with
      | Some _ => Some (fence +:+ before fence (drop 3 s) +:+ fence, [])
      | None => None
      end
    else None.
Proof.
  unfold matchHere, fencedBlock, TestRunner.re. cbn [foldr source ignoreCase matchAt].
  rewrite eatLit_startsWith. destruct (startsWith s fence) eqn:Hs; [|done].
  change (String.length fence) with 3.
  set (s1 := drop 3 s).
  rewrite (repLazy_all s1 fence _
             (fun s2 => (take (String.length s - String.length (drop 3 s2)) s,
                         [] : captures)));
    [|intros s2; rewrite eatLit_startsWith;
      by destruct (startsWith s2 fence)].
  destruct (afterFirst fence s1) as [rest|] eqn:Hrest; [|done].
  cbn [fmap option_fmap option_map]. f_equal. f_equal.
  apply before_after in Hrest. apply startsWith_drop in Hs.
  change (drop (String.length fence) s) with s1 in Hs.
  change (drop 3 (fence +:+ rest)) with rest.
  set (body := before fence s1) in *. clearbody body s1. subst s s1.
  assert (fence +:+ body +:+ fence +:+ rest = (fence +:+ body +:+ fence) +:+ rest)
    as -> by (by rewrite !app_assoc').
  replace (String.length ((fence +:+ body +:+ fence) +:+ rest) - String.length rest)
    with (String.length (fence +:+ body +:+ fence))
    by (rewrite (app_length' _ rest); lia).
  apply take_app_length.
Qed.

(** The first entry of a global match is the leftmost match. *)
Lemma matchAll_head (re : RegExp) (s : string) :
  head (matchAll re s) = fst <$> exec re s.
Proof.
  unfold matchAll. induction s as [|c s IH]; cbn [matchAll_from exec].
  - by destruct (matchHere re "") as [[m cs]|].
  - by destruct (matchHere re (String c s)) as [[m cs]|].
Qed.

Lemma drop_app_le (n : nat) (p q : string) :
  n ≤ String.length p → drop n (p +:+ q) = drop n p +:+ q.
Proof.
  revert p. induction n as [|n IH]; intros p Hn; [done|].
  destruct p as [|c p]; simpl in *; [lia|]. apply IH. lia.
Qed.

(** Two fences in [s] leave one in [s] without its first two characters. *)
Lemma second_fence_survives (s rest rest2 : string) :
  afterFirst fence s = Some rest → afterFirst fence rest = Some rest2 →
  is_Some (afterFirst fence (drop 2 s)).
Proof.
  intros H1 H2. apply before_after in H1, H2.
  apply afterFirst_includes, includes_spec.
  exists (drop 2 (before fence s +:+ fence +:+ before fence rest)), rest2.
  rewrite <- drop_app_le.
  - rewrite H1 at 1. rewrite H2 at 1. by rewrite !app_assoc'.
  - rewrite !app_length'. simpl. lia.
Qed.

Lemma exec_fenced (text : string) :
  fst <$> exec fencedBlock text = firstBlock text.
Proof.
  induction text as [|c s IH]; [done|].
  cbn [exec]. rewrite matchHere_fenced. unfold firstBlock at 1.
  cbn [afterFirst].
  destruct (startsWith (String c s) fence) eqn:Hs.
  - change (String.length fence) with 3.
    destruct (afterFirst fence (drop 3 (String c s))) as [rest|] eqn:Hrest; [done|].
    rewrite IH. unfold firstBlock.
    destruct (afterFirst fence s) as [r1|] eqn:H1; [|done].
    destruct (afterFirst fence r1) as [r2|] eqn:H2; [|done].
    destruct (second_fence_survives s r1 r2 H1 H2) as [x Hx].
    change (drop 3 (String c s)) with (drop 2 s) in Hrest. congruence.
  - exact IH.
Qed.

(** *** The fence markers

    What [/```\w*\n?|\n?```/g] takes out of a block. *)

Lemma repGreedy_word {R} (s : string) (cont : string → option R) :
  (∀ s', is_Some (cont s')) → repGreedy CWord 0 s cont = cont (untagged s).
Proof.
  intros Hcont. induction s as [|c s IH]; [done|].
  cbn [repGreedy untagged Nat.pred].
  destruct (inClass CWord c); [|done].
  rewrite IH. by destruct (Hcont (untagged s)) as [r ->].
Qed.

Lemma untagged_suffix (s : string) : ∃ tag, s = tag +:+ untagged s.
Proof.
  induction s as [|c s [tag IH]]; [by exists ""|].
  cbn [untagged]. destruct (inClass CWord c); [|by exists ""].
  exists (String c tag). simpl. by rewrite <- IH.
Qed.

Lemma untagged_fence (s : string) : untagged (s +:+ fence) = untagged s +:+ fence.
Proof.
  induction s as [|c s IH]; [done|].
  cbn [untagged String.append]. by destruct (inClass CWord c).
Qed.

Lemma startsWith_app (s p q : string) :
  startsWith s (p +:+ q)
  = startsWith s p && startsWith (drop (String.length p) s) q.
Proof.
  revert s. induction p as [|a p IH]; intros s; [done|].
  destruct s as [|b s]; [done|]. cbn [String.append startsWith String.length drop].
  destruct (Ascii.eqb a b); [apply IH|done].
Qed.

(** A match of the marker, by what it leaves of the text. *)
Lemma matchHere_marker (s : string) :
  matchHere fenceMarker s
  = if startsWith s fence then
      let rest := untagged (drop 3 s) in
      let rest' := if startsWith rest TestRunner.nl then drop 1 rest else rest in
      Some (take (String.length s - String.length rest') s, [])
    else if startsWith s (TestRunner.nl +:+ fence) then
      Some (take (String.length s - String.length (drop 4 s)) s, [])
    else None.
Proof.
  unfold matchHere, fenceMarker, opt. cbn [source ignoreCase matchAt].
  rewrite !eatLit_startsWith. change (String.length fence) with 3.
  destruct (startsWith s fence) eqn:Hs.
  - rewrite repGreedy_word.
    + rewrite eatLit_startsWith. cbv zeta.
      by destruct (startsWith (untagged (drop 3 s)) TestRunner.nl).
    + intros s'. rewrite eatLit_startsWith.
      by destruct (startsWith s' TestRunner.nl).
  - change (String.length TestRunner.nl) with 1.
    rewrite (startsWith_app s TestRunner.nl fence).
    change (String.length TestRunner.nl) with 1.
    destruct (startsWith s TestRunner.nl); [|done].
    rewrite eatLit_startsWith. change (String.length fence) with 3.
    cbn [andb]. destruct (startsWith (drop 1 s) fence); [|done].
    by destruct s.
Qed.

Lemma removeAll_skip (re : RegExp) (k : nat) (s : string) :
  removeAll_from re k s = removeAll_from re 0 (drop k s).
Proof.
  revert s. induction k as [|k IH]; intros s; [done|].
  destruct s as [|c s]; [done|]. cbn [removeAll_from drop]. apply IH.
Qed.

(** A match that leaves [rest] of the text makes the search go on there. *)
Lemma removeAll_step (re : RegExp) (found rest : string) (cs : captures) :
  found ≠ "" →
  matchHere re (found +:+ rest)
  = Some (take (String.length (found +:+ rest) - String.length rest)
               (found +:+ rest), cs) →
  removeAll_from re 0 (found +:+ rest) = removeAll_from re 0 rest.
Proof.
  intros Hne Hm.
  replace (String.length (found +:+ rest) - String.length rest)
    with (String.length found) in Hm by (rewrite app_length'; lia).
  rewrite take_app_length in Hm.
  destruct found as [|c found]; [done|].
  cbn [String.append removeAll_from] in *. rewrite Hm.
  rewrite removeAll_skip. by rewrite drop_app_length.
Qed.

Lemma removeAll_keep (re : RegExp) (c : ascii) (s : string) :
  matchHere re (String c s) = None →
  removeAll_from re 0 (String c s) = String c (removeAll_from re 0 s).
Proof. intros Hm. cbn [removeAll_from]. by rewrite Hm. Qed.

(** The text up to a fence has its first fence at its end once the fence
    is put back. *)
Lemma before_fence (rest rest2 : string) :
  afterFirst fence rest = Some rest2 →
  before fence (before fence rest +:+ fence) = before fence rest.
Proof.
  revert rest2. induction rest as [|c rest IH]; intros rest2; [done|].
  cbn [afterFirst before].
  destruct (startsWith (String c rest) fence) eqn:Hs; [done|].
  intros Hrest. cbn [String.append before].
  destruct (startsWith (String c (before fence rest +:+ fence)) fence) eqn:Hs'.
  - apply startsWith_spec in Hs' as [t Ht].
    apply before_after in Hrest.
    assert (startsWith (String c rest) fence = true); [|congruence].
    apply startsWith_spec. exists (t +:+ rest2).
    rewrite <- app_assoc', <- Ht. rewrite Hrest at 1.
    by rewrite <- !app_assoc'.
  - f_equal. by apply (IH rest2).
Qed.

Lemma before_here (s : string) : startsWith s fence = true → before fence s = "".
Proof. intros H. destruct s; cbn [before]; by rewrite H. Qed.

(** Past the opening marker the search takes out the closing fence, with
    the line feed before it when there is one. *)
Lemma removeAll_closing (y : string) :
  before fence (y +:+ fence) = y →
  ∃ v, removeAll_from fenceMarker 0 (y +:+ fence) = v
       ∧ (y = v ∨ y = v +:+ TestRunner.nl).
Proof.
  induction y as [|c y IH].
  - intros _. exists "". split; [|by left]. by vm_compute.
  - cbn [String.append before].
    destruct (startsWith (String c (y +:+ fence)) fence) eqn:Hs; [done|].
    intros [= Hy].
    destruct (startsWith (String c (y +:+ fence)) (TestRunner.nl +:+ fence)) eqn:Hn.
    + assert (c = ascii_of_nat 10 ∧ y = "") as [-> ->].
      { rewrite startsWith_app in Hn. apply andb_true_iff in Hn as [Hc Hf].
        change (drop (String.length TestRunner.nl) (String c (y +:+ fence)))
          with (y +:+ fence) in Hf.
        split.
        - cbn [startsWith TestRunner.nl] in Hc.
          by destruct (Ascii.eqb_spec (ascii_of_nat 10) c).
        - by rewrite (before_here _ Hf) in Hy. }
      exists "". split; [by vm_compute|by right].
    + destruct (IH Hy) as (v & Hv & Hyv).
      exists (String c v). split.
      * rewrite removeAll_keep; [by rewrite Hv|].
        by rewrite matchHere_marker, Hs, Hn.
      * destruct Hyv as [->| ->]; [by left|by right].
Qed.

Lemma before_tail (c : ascii) (y : string) :
  before fence (String c y +:+ fence) = String c y →
  before fence (y +:+ fence) = y.
Proof.
  cbn [String.append before].
  destruct (startsWith (String c (y +:+ fence)) fence); [done|]. by intros [= ?].
Qed.

Lemma before_suffix (pre y : string) :
  before fence ((pre +:+ y) +:+ fence) = pre +:+ y →
  before fence (y +:+ fence) = y.
Proof.
  induction pre as [|c pre IH]; [done|]. intros H. by apply IH, (before_tail c).
Qed.

(** Taking the markers out of a block leaves, up to [trim], its body
    without the tag. *)
Lemma removeAll_block (x : string) :
  before fence (x +:+ fence) = x →
  trim (removeAll fenceMarker (fence +:+ x +:+ fence)) = trim (untagged x).
Proof.
  intros Hx. unfold removeAll.
  destruct (untagged_suffix x) as [tag Htag].
  set (z := untagged x) in *.
  set (y := if startsWith z TestRunner.nl then drop 1 z else z).
  assert (∃ lead, z = lead +:+ y ∧ trim y = trim z) as (lead & Hlead & Htrim).
  { unfold y. destruct (startsWith z TestRunner.nl) eqn:Hz.
    - exists TestRunner.nl. apply startsWith_drop in Hz.
      change (String.length TestRunner.nl) with 1 in Hz.
      split; [done|]. rewrite Hz at 2. by rewrite trim_cons_nl.
    - by exists "". }
  assert (before fence (y +:+ fence) = y) as Hy.
  { apply (before_suffix (tag +:+ lead)).
    by rewrite (app_assoc' tag lead y), <- Hlead, <- Htag. }
  assert (fence +:+ x +:+ fence = (fence +:+ tag +:+ lead) +:+ y +:+ fence) as Hsplit.
  { rewrite Htag at 1. rewrite Hlead at 1. by rewrite <- !app_assoc'. }
  rewrite Hsplit,
    (removeAll_step fenceMarker (fence +:+ tag +:+ lead) (y +:+ fence) []).
  - destruct (removeAll_closing y Hy) as (v & -> & [Hv|Hv]).
    + by rewrite <- Hv.
    + rewrite <- Htrim, Hv. by rewrite trim_snoc_nl.
  - done.
  - rewrite <- Hsplit, matchHere_marker.
    change (startsWith (fence +:+ x +:+ fence) fence) with true. cbv iota zeta.
    change (drop 3 (fence +:+ x +:+ fence)) with (x +:+ fence).
    rewrite untagged_fence. fold z.
    assert ((if startsWith (z +:+ fence) TestRunner.nl
             then drop 1 (z +:+ fence) else z +:+ fence) = y +:+ fence) as ->; [|done].
    unfold y. destruct z as [|d z']; [done|].
    cbn [String.append startsWith TestRunner.nl drop].
    by destruct (Ascii.eqb (ascii_of_nat 10) d).
Qed.

Lemma body_block (x : string) :
  before fence (x +:+ fence) = x → body (fence +:+ x +:+ fence) = x.
Proof. intros Hx. unfold body. by change (afterFirst fence (fence +:+ x +:+ fence)) with (Some (x +:+ fence)). Qed.

(** What the code makes of a first block is the block stripped. *)
Lemma cleaned_stripped (text block : string) :
  firstBlock text = Some block →
  trim (removeAll fenceMarker block) = stripped block.
Proof.
  unfold firstBlock, stripped.
  destruct (afterFirst fence text) as [rest|]; [|done].
  destruct (afterFirst fence rest) as [rest2|] eqn:Hrest; [|done].
  intros [= <-]. apply before_fence in Hrest.
  change (trim (removeAll fenceMarker (fence +:+ before fence rest +:+ fence))
          = trim (untagged (body (fence +:+ before fence rest +:+ fence)))).
  by rewrite (removeAll_block _ Hrest), (body_block _ Hrest).
Qed.

Lemma extractCodeFix_firstBlock (text : string) :
  extractCodeFix text
  = match firstBlock text with
    | Some block =>
        if (10 <? lengthOf (stripped block))%nat
        then Some (stripped block) else None
    | None => None
    end.
Proof.
  unfold extractCodeFix. rewrite <- exec_fenced.
  pose proof (cleaned_stripped text) as Hclean. rewrite <- exec_fenced in Hclean.
  rewrite <- matchAll_head in *.
  destruct (matchAll fencedBlock text) as [|block l]; [done|].
  cbv zeta. by rewrite (Hclean block eq_refl).
Qed.

Lemma split_head (sep s : string) : hd "" (split sep s) = before sep s.
Proof.
  unfold split. induction s as [|c s IH]; cbn [split_from before].
  - by destruct (startsWith "" sep).
  - destruct (startsWith (String c s) sep); [done|].
    destruct (split_from sep 0 s); simpl in *; congruence.
Qed.

Lemma before_none (sep s : string) : includes s sep = false → before sep s = s.
Proof.
  induction s as [|c s IH]; cbn [includes before].
  - by destruct (startsWith "" sep).
  - destruct (startsWith (String c s) sep); [done|]. intros H. f_equal. auto.
Qed.

Lemma firstBlock_none (text : string) :
  includes text fence = false → firstBlock text = None.
Proof.
  intros H. unfold firstBlock.
  destruct (afterFirst fence text) eqn:Ha; [|done].
  assert (includes text fence = true) by (apply afterFirst_includes; eauto).
  congruence.
Qed.

End ExtractFacts.

(** C7, as amended.  The suggestion is the text before the first fence
    marker (all of the text when there is none), cut to 300 characters and
    then trimmed.  The code fix is the first fenced block with its fence
    markers taken out (the opening fence with the tag that follows it, and
    the closing fence) and trimmed, kept only when that is longer than 10
    characters.  A text without a fence marker gives its own first 300
    characters, trimmed, and no code fix.  Characters are counted as the
    language counts them, in UTF-16 code units. *)
Theorem C7_extraction (text : string) :
  AITestingService.extractSuggestion text
  = JS.trim (JS.substring0 300 (Spec.before AITestingService.fence text))
  ∧ AITestingService.extractCodeFix text
    = match Spec.firstBlock text with
      | Some block =>
          if (10 <? JS.lengthOf (Spec.stripped block))%nat
          then Some (Spec.stripped block) else None
      | None => None
      end
  ∧ (JS.includes text AITestingService.fence = false →
     AITestingService.extractSuggestion text = JS.trim (JS.substring0 300 text)
     ∧ AITestingService.extractCodeFix text = None).
Proof.
  split; [|split].
  - unfold AITestingService.extractSuggestion. cbv zeta.
    by rewrite split_head.
  - apply extractCodeFix_firstBlock.
  - intros Hno. split.
    + unfold AITestingService.extractSuggestion. cbv zeta.
      by rewrite split_head, before_none.
    + by rewrite extractCodeFix_firstBlock, firstBlock_none.
Qed.

Lemma C7_extraction_witness :
  AITestingService.extractSuggestion " Check the import path. "
  = "Check the import path."
  ∧ AITestingService.extractCodeFix " Check the import path. " = None.
Proof.
  apply (proj2 (proj2 (C7_extraction " Check the import path. "))).
  vm_compute; reflexivity.
Defined.

(** C7 as stated fails.  A first block that strips to exactly 10 characters
    is not under 10 characters, and is dropped all the same; and a text with
    a lone fence marker has no fenced block, yet its suggestion stops at the
    marker. *)
Lemma C7_counterexample :
  let text := AITestingService.fence +:+ TestRunner.nl +:+ "0123456789"
              +:+ TestRunner.nl +:+ AITestingService.fence in
  let lone := "Use a guard " +:+ AITestingService.fence +:+ " around the call" in
  (Spec.firstBlock text = Some text
   ∧ Spec.stripped text = "0123456789"
   ∧ Spec.statedCodeFix text = Some "0123456789"
   ∧ AITestingService.extractCodeFix text = None)
  ∧ (Spec.firstBlock lone = None
     ∧ AITestingService.extractSuggestion lone = "Use a guard").
Proof. vm_compute. repeat split. Qed.


(** ** Worked examples *)

(** A stack frame at the end of a [TypeError] line: one error, tagged
    "jest", in the category "Type Error". *)
Example parse_type_error_frame :
  let out := "TypeError: Cannot read properties of undefined (reading 'foo') at file.js:10:5" in
  TestRunner.parseErrors out
  = [{| file := "file.js"; line := 10; message := out; type := "jest" |}]
  ∧ ErrorAnalyzer.getErrorCategory out = "Type Error".
Proof. vm_compute. split; reflexivity. Qed.

(** A Python frame, a Go position and a generic line, each with its window
    of context. *)
Example parse_mixed_output :
  map (fun e => (file e, line e, type e))
      (TestRunner.parseErrors
         ("  File " +:+ TestRunner.dquote +:+ "app/test_io.py" +:+ TestRunner.dquote
          +:+ ", line 42, in test_read" +:+ TestRunner.nl
          +:+ "pkg/io_test.go:17: unexpected EOF" +:+ TestRunner.nl
          +:+ "2 passing" +:+ TestRunner.nl
          +:+ "✕ reads the header"))
  = [("app/test_io.py", 42%N, "python"); ("pkg/io_test.go", 17%N, "go");
     ("unknown", 0%N, "generic")].
Proof. vm_compute. reflexivity. Qed.

(** A fenced block with a language tag. *)
Example extract_tagged_block :
  let text := "Await the promise." +:+ TestRunner.nl
              +:+ AITestingService.fence +:+ "js" +:+ TestRunner.nl
              +:+ "await load(file);" +:+ TestRunner.nl
              +:+ AITestingService.fence in
  AITestingService.extractSuggestion text = "Await the promise."
  ∧ AITestingService.extractCodeFix text = Some "await load(file);".
Proof. vm_compute. split; reflexivity. Qed.

(** Seventeen errors without a syntax error are critical by their number. *)
Example severity_by_count :
  ErrorAnalyzer.assessSeverity
    (replicate 17 {| file := "a.js"; line := 1; message := "boom"; type := "jest" |})
  = ErrorAnalyzer.critical.
Proof. vm_compute. reflexivity. Qed.

(** A workspace with a manifest naming jest and a test script, on Windows:
    two candidates, the script first. *)
Example detect_manifest :
  let pkg := TestRunner.JObj
               [("scripts", TestRunner.JObj [("test", TestRunner.JStr "jest")]);
                ("devDependencies",
                 TestRunner.JObj [("jest", TestRunner.JStr "^29.0.0")])] in
  let h := {| TestRunner.win32 := true;
              TestRunner.customTestCommand := "";
              TestRunner.verboseLogs := false;
              TestRunner.workspace :=
                Spec.holding ["package.json"] (TestRunner.ManifestParsed pkg)
                             (Some ["package.json"]);
              TestRunner.showQuickPick := Spec.cancel;
              TestRunner.execAsync := fun _ => TestRunner.Resolved "" "" |} in
  map TestRunner.command (TestRunner.detectAllFrameworks h).1
  = ["npm.cmd test"; "npx.cmd jest --no-coverage --passWithNoTests"].
Proof. vm_compute. reflexivity. Qed.

(** Lengths count characters as the language does, not bytes: four check
    marks are under the threshold of the code fix and eleven are over it; a
    reply of 204 characters, 200 of them accented, is a suggestion as it
    stands, and a longer one is cut to 300. *)
Example extract_counts_characters :
  let block body := AITestingService.fence +:+ TestRunner.nl +:+ body
                    +:+ TestRunner.nl +:+ AITestingService.fence in
  AITestingService.extractCodeFix (block "✓✓✓✓") = None
  ∧ AITestingService.extractCodeFix (block "✓✓✓✓✓✓✓✓✓✓✓") = Some "✓✓✓✓✓✓✓✓✓✓✓"
  ∧ AITestingService.extractSuggestion (Notions.times 200 "é" +:+ " end")
    = Notions.times 200 "é" +:+ " end"
  ∧ AITestingService.extractSuggestion (Notions.times 400 "é")
    = Notions.times 300 "é".
Proof. vm_compute. repeat split. Qed.

(** A character outside the basic plane counts for two, and a cut between
    its two halves keeps the first half alone. *)
Example cut_inside_pair :
  JS.lengthOf "a🔧b" = 4
  ∧ JS.substring0 3 "a🔧b" = "a🔧"
  ∧ JS.substring0 2 "a🔧b"
    = String "a" (String (ascii_of_nat 237)
                    (String (ascii_of_nat 160) (String (ascii_of_nat 189) "")))
  ∧ JS.lengthOf (JS.substring0 2 "a🔧b") = 2.
Proof. vm_compute. repeat split. Qed.

(** [trim] takes off a no-break space and a line separator as it does a
    blank, so a custom command of white space alone is no command. *)
Example trim_white_space :
  let nbsp := String (ascii_of_nat 194) (String (ascii_of_nat 160) "") in
  let ls := String (ascii_of_nat 226)
              (String (ascii_of_nat 128) (String (ascii_of_nat 168) "")) in
  JS.trim (nbsp +:+ " npm test" +:+ ls +:+ TestRunner.nl) = "npm test"
  ∧ JS.trim (nbsp +:+ ls) = "".
Proof. vm_compute. split; reflexivity. Qed.

(** The first 2000 characters of an output of marks go into the prompt
    whole, with no truncation mark; one mark more and the mark is there. *)
Example prompt_of_marks :
  let a := {| AITestingService.errorCount := 1;
              AITestingService.errorTypes := [("Other", 1)];
              AITestingService.patterns := [];
              AITestingService.severity := ErrorAnalyzer.low;
              AITestingService.context :=
                {| AITestingService.files := ["unknown"];
                   AITestingService.mostCommonError := "FAIL";
                   AITestingService.testOutput := None |} |} in
  JS.includes (AITestingService.createDetailedPrompt a (Notions.times 2000 "✕"))
              "(truncated)" = false
  ∧ JS.includes (AITestingService.createDetailedPrompt a (Notions.times 2001 "✕"))
                "(truncated)" = true
  ∧ JS.includes (AITestingService.createDetailedPrompt a (Notions.times 2000 "✕"))
                (Notions.times 2000 "✕") = true.
Proof. vm_compute. repeat split. Qed.

Section ObjectFacts.
Import JSObject Notions.
Context {T : Type}.
Implicit Types (o : JSObject.t T) (k : string) (v : T).

Lemma get_None o k : get o k = None ↔ k ∉ names o.
Proof.
  unfold names. induction o as [|[k' v'] o IH]; simpl.
  - split; [intros _; apply not_elem_of_nil|done].
  - rewrite not_elem_of_cons. destruct (String.eqb_spec k' k) as [->|Hne].
    + split; [done|]. by intros [[] _].
    + rewrite IH. split; [by intros ?; split|by intros [_ ?]].
Qed.

Lemma get_set_eq o k v : get (set o k v) k = Some v.
Proof.
  induction o as [|[k' v'] o IH]; simpl.
  - by rewrite String.eqb_refl.
  - destruct (String.eqb_spec k' k) as [->|Hne]; simpl.
    + by rewrite String.eqb_refl.
    + by destruct (String.eqb_spec k' k).
Qed.

Lemma get_set_ne o k k' v : k ≠ k' → get (set o k v) k' = get o k'.
Proof.
  intros Hne. induction o as [|[k0 v0] o IH]; simpl.
  - by destruct (String.eqb_spec k k').
  - destruct (String.eqb_spec k0 k) as [->|Hk]; simpl.
    + by destruct (String.eqb_spec k k').
    + by rewrite IH.
Qed.

Lemma names_set o k v :
  names (set o k v)
  = match get o k with Some _ => names o | None => names o ++ [k] end.
Proof.
  unfold names. induction o as [|[k' v'] o IH]; simpl; [done|].
  destruct (String.eqb_spec k' k) as [->|Hk]; simpl; [done|].
  rewrite IH. by destruct (get o k).
Qed.

Lemma NoDup_set o k v : NoDup (names o) → NoDup (names (set o k v)).
Proof.
  intros Hnd. rewrite names_set. destruct (get o k) eqn:Hg; [done|].
  apply NoDup_app. split; [done|]. split; [|apply NoDup_singleton].
  intros x Hx ->%list_elem_of_singleton. by apply get_None in Hg.
Qed.

End ObjectFacts.

Section GroupFacts.
Import ErrorAnalyzer JSObject Notions.

Lemma inFile_absent f (errors : list TestError) :
  f ∉ map file errors → filter (fun e => file e = f) errors = [].
Proof.
  induction errors as [|e errors IH]; [done|]. simpl.
  rewrite not_elem_of_cons. intros [Hne Hnin].
  rewrite filter_cons, decide_False by done. auto.
Qed.

Lemma filed_step grouped done e :
  filed grouped done →
  filed (set grouped (file e) (default [] (get grouped (file e)) ++ [e]))
        (done ++ [e]).
Proof.
  intros [Hnd Hget]. split; [by apply NoDup_set|].
  intros f. unfold inFile. rewrite map_app, filter_app. simpl.
  rewrite filter_cons, filter_nil.
  destruct (decide (file e = f)) as [<-|Hne].
  - rewrite get_set_eq, Hget.
    destruct (decide (file e ∈ map file done ++ [file e])) as [_|Hn].
    + destruct (decide (file e ∈ map file done)) as [|Hnin]; [done|].
      by rewrite (inFile_absent _ _ Hnin).
    + exfalso. apply Hn, elem_of_app. right. apply list_elem_of_here.
  - rewrite get_set_ne, Hget, app_nil_r by done.
    destruct (decide (f ∈ map file done)) as [Hin|Hnin];
      destruct (decide (f ∈ map file done ++ [file e])) as [Hin'|Hnin'];
      try done.
    + exfalso. apply Hnin', elem_of_app. by left.
    + exfalso. apply elem_of_app in Hin' as [?|Hin']; [done|].
      apply list_elem_of_singleton in Hin'. congruence.
Qed.

Lemma groupInto_plain grouped done rest :
  filed grouped done → plainFiles rest →
  ∃ grouped', groupInto grouped rest = Returns grouped'
              ∧ filed grouped' (done ++ rest).
Proof.
  revert grouped done. induction rest as [|e rest IH]; intros grouped done Hf Hp.
  - exists grouped. by rewrite app_nil_r.
  - apply Forall_cons in Hp as [He Hp]. simpl. rewrite He.
    pose proof (filed_step grouped done e Hf) as Hstep.
    destruct (IH _ _ Hstep Hp) as (g' & Hg' & Hf').
    exists g'. rewrite <- app_assoc in Hf'. split; [|done].
    by destruct (get grouped (file e)).
Qed.

Lemma groupInto_inherited grouped rest :
  Forall (fun k => inherited k = false) (names grouped) →
  Exists (fun e => inherited (file e) = true) rest →
  ∃ msg, groupInto grouped rest = Throws msg.
Proof.
  revert grouped. induction rest as [|e rest IH]; intros grouped Hn Hex.
  - by apply Exists_nil in Hex.
  - simpl. destruct (get grouped (file e)) as [bucket|] eqn:Hg.
    + assert (inherited (file e) = false) as He.
      { rewrite Forall_forall in Hn. apply Hn.
        destruct (decide (file e ∈ names grouped)) as [|Hnin]; [done|].
        apply get_None in Hnin. congruence. }
      apply IH.
      * rewrite names_set, Hg. done.
      * apply Exists_cons in Hex as [Hex|Hex]; [congruence|done].
    + destruct (inherited (file e)) eqn:He; [eauto|].
      apply IH.
      * rewrite names_set, Hg. apply Forall_app. split; [done|].
        by apply Forall_singleton.
      * apply Exists_cons in Hex as [Hex|Hex]; [congruence|done].
Qed.

End GroupFacts.

Section KeysFacts.
Import JSObject Notions.

Lemma elem_of_insertIndex k x sorted :
  x ∈ insertIndex k sorted ↔ x = k ∨ x ∈ sorted.
Proof.
  induction sorted as [|k' rest IH]; simpl.
  - rewrite list_elem_of_singleton, elem_of_nil. tauto.
  - destruct (_ <=? _)%N; rewrite !elem_of_cons; [|rewrite IH]; tauto.
Qed.

Lemma NoDup_insertIndex k sorted :
  k ∉ sorted → NoDup sorted → NoDup (insertIndex k sorted).
Proof.
  induction sorted as [|k' rest IH]; simpl; intros Hk Hnd.
  - apply NoDup_singleton.
  - destruct (_ <=? _)%N; [by apply NoDup_cons|].
    apply not_elem_of_cons in Hk as [Hne Hk].
    apply NoDup_cons in Hnd as [Hk' Hnd].
    apply NoDup_cons. split; [|by apply IH].
    rewrite elem_of_insertIndex. intros [->|?]; done.
Qed.

Lemma elem_of_sorted_indices x (l : list string) :
  x ∈ foldr insertIndex [] l ↔ x ∈ l.
Proof.
  induction l as [|k l IH]; simpl; [done|].
  rewrite elem_of_insertIndex, elem_of_cons, IH. tauto.
Qed.

Lemma NoDup_sorted_indices (l : list string) :
  NoDup l → NoDup (foldr insertIndex [] l).
Proof.
  induction 1 as [|k l Hk Hnd IH]; simpl; [apply NoDup_nil_2|].
  apply NoDup_insertIndex; [|done]. by rewrite elem_of_sorted_indices.
Qed.

Lemma list_filter_stdpp {A} (p : A → bool) (l : list A) :
  List.filter p l = filter (fun x => p x = true) l.
Proof.
  induction l as [|x l IH]; [done|]. simpl. rewrite filter_cons, IH.
  destruct (p x) eqn:Hp.
  - by rewrite decide_True.
  - by rewrite decide_False.
Qed.

(** [Object.keys] lists each own property name once. *)
Lemma elem_of_keys {T} (o : JSObject.t T) k : k ∈ keys o ↔ k ∈ names o.
Proof.
  unfold keys. fold (names o).
  rewrite elem_of_app, elem_of_sorted_indices, !list_filter_stdpp.
  rewrite !list_elem_of_filter.
  destruct (isArrayIndex k); simpl; intuition.
Qed.

Lemma NoDup_keys {T} (o : JSObject.t T) : NoDup (names o) → NoDup (keys o).
Proof.
  intros Hnd. unfold keys. fold (names o). apply NoDup_app. split; [|split].
  - apply NoDup_sorted_indices. rewrite list_filter_stdpp. by apply NoDup_filter.
  - intros x. rewrite elem_of_sorted_indices, !list_filter_stdpp.
    rewrite !list_elem_of_filter. intros [H1 _] [H2 _].
    rewrite H1 in H2. done.
  - rewrite list_filter_stdpp. by apply NoDup_filter.
Qed.

(** Without an array index among the names, the keys are the names in
    insertion order. *)
Lemma keys_plain {T} (o : JSObject.t T) :
  Forall (fun k => isArrayIndex k = false) (names o) → keys o = names o.
Proof.
  unfold keys. fold (names o). induction (names o) as [|k l IH]; [done|].
  intros [Hk Hl]%Forall_cons. simpl. rewrite Hk. simpl.
  specialize (IH Hl).
  assert (List.filter isArrayIndex l = []) as Hnone.
  { clear IH. induction l as [|x l IHl]; [done|].
    apply Forall_cons in Hl as [Hx Hl]. simpl. rewrite Hx. auto. }
  rewrite Hnone in IH |- *. simpl in *. by rewrite IH.
Qed.

End KeysFacts.

Section GroupTheorems.
Import ErrorAnalyzer JSObject Notions.

Lemma filed_empty : filed [] [].
Proof. split; [apply NoDup_nil_2|]. intros f. by rewrite decide_False by apply not_elem_of_nil. Qed.

Lemma filed_names grouped done f :
  filed grouped done → f ∈ names grouped ↔ f ∈ map file done.
Proof.
  intros [_ Hget]. specialize (Hget f).
  destruct (decide (f ∈ map file done)) as [Hin|Hnin].
  - split; [done|]. intros _.
    destruct (decide (f ∈ names grouped)) as [|Hn]; [done|].
    apply get_None in Hn. congruence.
  - apply get_None in Hget. tauto.
Qed.

Lemma filed_bucket grouped done f :
  filed grouped done → default [] (get grouped f) = inFile f done.
Proof.
  intros [_ Hget]. rewrite Hget.
  destruct (decide (f ∈ map file done)) as [|Hnin]; [done|].
  simpl. symmetry. by apply inFile_absent.
Qed.

Lemma group_plain (errors : list TestError) :
  plainFiles errors →
  ∃ grouped, groupErrorsByFile errors = Returns grouped ∧ filed grouped errors.
Proof. intros Hp. exact (groupInto_plain [] [] errors filed_empty Hp). Qed.

Lemma group_inherited (errors : list TestError) :
  Exists (fun e => inherited (file e) = true) errors →
  ∃ msg, groupErrorsByFile errors = Throws msg.
Proof. apply groupInto_inherited. apply Forall_nil_2. Qed.

Lemma group_returns_plain (errors : list TestError) grouped :
  groupErrorsByFile errors = Returns grouped → plainFiles errors.
Proof.
  intros Hg. apply Forall_forall. intros e He.
  destruct (inherited (file e)) eqn:Hi; [|done].
  destruct (group_inherited errors) as [m Hm]; [|congruence].
  apply Exists_exists. eauto.
Qed.

End GroupTheorems.

(** X1.  When no error names a file as [Object.prototype] names a member,
    [groupErrorsByFile] returns an object with one property for each file
    that occurs, holding that file's errors in their order of arrival. *)
Theorem groupErrorsByFile_partitions (errors : list TestError) :
  Notions.plainFiles errors →
  ∃ grouped,
    ErrorAnalyzer.groupErrorsByFile errors = Returns grouped
    ∧ NoDup (Notions.names grouped)
    ∧ (∀ f, f ∈ Notions.names grouped ↔ f ∈ map file errors)
    ∧ (∀ f, default [] (JSObject.get grouped f) = Notions.inFile f errors).
Proof.
  intros Hp. destruct (group_plain errors Hp) as (g & Hg & Hf).
  exists g. split; [done|]. split; [apply Hf|].
  split; intros f; [by apply filed_names|by apply filed_bucket].
Qed.

Lemma groupErrorsByFile_partitions_witness :
  let a := {| file := "a.js"; line := 3; message := "boom"; type := "jest" |} in
  let b := {| file := "b.py"; line := 7; message := "bang"; type := "python" |} in
  ∃ grouped,
    ErrorAnalyzer.groupErrorsByFile [a; b; a] = Returns grouped
    ∧ NoDup (Notions.names grouped)
    ∧ (∀ f, f ∈ Notions.names grouped ↔ f ∈ ["a.js"; "b.py"; "a.js"])
    ∧ (∀ f, default [] (JSObject.get grouped f) = Notions.inFile f [a; b; a]).
Proof.
  cbv zeta. apply groupErrorsByFile_partitions.
  repeat constructor.
Defined.

(** X2.  [groupErrorsByFile] throws exactly when some error's file is named
    like a member of [Object.prototype] ("constructor", "toString", ...),
    and then [findPatterns] and [generateRecommendations] throw with it. *)
Theorem groupErrorsByFile_throws_iff (errors : list TestError) :
  (Exists (fun e => JSObject.inherited (file e) = true) errors
   ↔ ∃ msg, ErrorAnalyzer.groupErrorsByFile errors = Throws msg)
  ∧ (∀ msg, ErrorAnalyzer.groupErrorsByFile errors = Throws msg →
     ErrorAnalyzer.findPatterns errors = Throws msg
     ∧ ErrorAnalyzer.generateRecommendations errors = Throws msg).
Proof.
  split; [split|].
  - apply group_inherited.
  - intros [msg Hmsg].
    destruct (decide (Exists (fun e => JSObject.inherited (file e) = true) errors))
      as [|Hno]; [done|].
    apply not_Exists_Forall in Hno; [|intros e; apply _].
    assert (Notions.plainFiles errors) as Hp.
    { eapply Forall_impl; [exact Hno|]. intros e He. simpl in He.
      by destruct (JSObject.inherited (file e)). }
    destruct (group_plain errors Hp) as (g & Hg & _). congruence.
  - intros msg Hmsg.
    assert (ErrorAnalyzer.findPatterns errors = Throws msg) as Hfp.
    { unfold ErrorAnalyzer.findPatterns. cbv zeta. by rewrite Hmsg. }
    split; [done|]. unfold ErrorAnalyzer.generateRecommendations. cbv zeta.
    by rewrite Hfp.
Qed.

Lemma groupErrorsByFile_throws_iff_witness :
  ∃ msg,
    ErrorAnalyzer.findPatterns
      (TestRunner.parseErrors "    at constructor:12:5")
    = Throws msg.
Proof.
  destruct (proj1 (proj1 (groupErrorsByFile_throws_iff
                            (TestRunner.parseErrors "    at constructor:12:5"))))
    as [msg Hmsg].
  - vm_compute. apply Exists_cons_hd. reflexivity.
  - exists msg.
    by apply (proj2 (groupErrorsByFile_throws_iff
                       (TestRunner.parseErrors "    at constructor:12:5"))).
Defined.

Section PatternFacts.
Import ErrorAnalyzer JSObject Notions.

Lemma pattern_sublist (hit : bool) (name : string) (rest names : list string) :
  rest `sublist_of` names → pattern hit name ++ rest `sublist_of` name :: names.
Proof.
  intros H. destruct hit; simpl; [by apply sublist_skip|by apply sublist_cons].
Qed.

Lemma append_longer (s t : string) : t ≠ "" → s ≠ s +:+ t.
Proof.
  intros Ht H. apply (f_equal String.length) in H.
  rewrite app_length' in H. destruct t; [done|]. simpl in H. lia.
Qed.

Lemma clusterEntry_not_prefix (files : list string) :
  "Error clustering in specific files" ≠ clusterEntry files.
Proof.
  unfold clusterEntry.
  change ("Error clustering in specific files: " +:+ JS.join ", " files)
    with ("Error clustering in specific files" +:+ (": " +:+ JS.join ", " files)).
  by apply append_longer.
Qed.

Lemma listed_false (name : string) (l : list string) :
  name ∉ l → listed name l = false.
Proof.
  intros Hn. unfold listed. apply not_true_is_false. intros H.
  apply existsb_exists in H as (x & Hx & Heq).
  apply String.eqb_eq in Heq. subst x. by apply list_elem_of_In in Hx.
Qed.

Lemma listed_true (name : string) (l : list string) :
  listed name l = true ↔ name ∈ l.
Proof.
  unfold listed. rewrite existsb_exists. split.
  - intros (x & Hx & Heq). apply String.eqb_eq in Heq. subst x.
    by apply list_elem_of_In.
  - intros H. exists name. split; [by apply list_elem_of_In|apply String.eqb_refl].
Qed.

End PatternFacts.

(** X3.  What [findPatterns] returns is some of the seven fixed entries, in
    their fixed order, followed by at most one clustering entry; that entry
    is there exactly when some file holds more than three errors, and it
    lists each such file once. *)
Theorem findPatterns_shape (errors : list TestError) (patterns : list string) :
  ErrorAnalyzer.findPatterns errors = Returns patterns →
  ∃ base files,
    patterns = base ++ (if files is [] then []
                        else [Notions.clusterEntry files])
    ∧ base `sublist_of` Notions.fixedPatterns
    ∧ NoDup files
    ∧ ∀ f, f ∈ files ↔ 3 < length (Notions.inFile f errors).
Proof.
  unfold ErrorAnalyzer.findPatterns. cbv zeta.
  destruct (ErrorAnalyzer.groupErrorsByFile errors) as [grouped|msg] eqn:Hg;
    [|done].
  intros [= <-].
  destruct (group_plain errors (group_returns_plain errors grouped Hg))
    as (g & Hg' & Hfiled).
  rewrite Hg in Hg'. injection Hg' as <-.
  pose proof (fun f => filed_names grouped errors f Hfiled) as Hnames.
  pose proof (fun f => filed_bucket grouped errors f Hfiled) as Hbucket.
  destruct Hfiled as [Hnd _].
  match goal with
  | |- ∃ base files, ?b ++ ErrorAnalyzer.pattern (0 <? length ?fs)%nat _ = _ ∧ _ =>
      exists b, fs
  end.
  split; [|split; [|split]].
  - f_equal. unfold ErrorAnalyzer.pattern, Notions.clusterEntry.
    by destruct (List.filter _ (JSObject.keys grouped)).
  - rewrite <- (app_nil_r (ErrorAnalyzer.pattern _ "Configuration/setup related errors")).
    repeat apply pattern_sublist. apply sublist_nil.
  - rewrite list_filter_stdpp. apply NoDup_filter. by apply NoDup_keys.
  - intros f. rewrite list_filter_stdpp, list_elem_of_filter, elem_of_keys.
    rewrite Hnames, Hbucket, Nat.ltb_lt. split; [tauto|].
    intros Hlen. split; [done|].
    destruct (decide (f ∈ map file errors)) as [|Hnin]; [done|].
    unfold Notions.inFile in Hlen. rewrite (inFile_absent f errors Hnin) in Hlen.
    simpl in Hlen. lia.
Qed.

Lemma findPatterns_shape_witness :
  let e := {| file := "src/cart.test.js"; line := 8; message := "boom";
              type := "jest" |} in
  ∃ base files,
    ["Test file specific errors";
     "Error clustering in specific files: src/cart.test.js"]
    = base ++ (if files is [] then [] else [Notions.clusterEntry files])
    ∧ base `sublist_of` Notions.fixedPatterns
    ∧ NoDup files
    ∧ ∀ f, f ∈ files ↔ 3 < length (Notions.inFile f [e; e; e; e]).
Proof.
  cbv zeta. apply findPatterns_shape. vm_compute. reflexivity.
Defined.

Section RecommendationFacts.
Import ErrorAnalyzer JSObject Notions.

Lemma elem_of_pattern x (hit : bool) (name : string) :
  x ∈ pattern hit name → x = name.
Proof.
  destruct hit; simpl; [by intros ?%list_elem_of_singleton|].
  by intros ?%elem_of_nil.
Qed.

Lemma elem_of_when {A} (x : A) (b : bool) (l : list A) :
  x ∈ (if b then l else []) → x ∈ l.
Proof. destruct b; [done|]. by intros ?%elem_of_nil. Qed.

(** The clustering entry never reads as its bare title. *)
Lemma cluster_title_unlisted (errors : list TestError) (patterns : list string) :
  findPatterns errors = Returns patterns →
  listed "Error clustering in specific files" patterns = false.
Proof.
  unfold findPatterns. cbv zeta.
  destruct (groupErrorsByFile errors) as [grouped|msg]; [|done].
  intros [= <-]. apply listed_false.
  rewrite !elem_of_app.
  intros H.
  repeat match type of H with _ ∨ _ => destruct H as [H|H] end;
    apply elem_of_pattern in H;
    first [discriminate H | by apply clusterEntry_not_prefix in H].
Qed.

End RecommendationFacts.

(** X4.  [generateRecommendations] never gives the advice to focus
    refactoring on the files with many errors: it looks for the bare title of
    the clustering entry among the patterns, where that entry always carries
    the list of files after its title. *)
Theorem generateRecommendations_never_clusters (errors : list TestError)
        (recommendations : list string) :
  ErrorAnalyzer.generateRecommendations errors = Returns recommendations →
  "Focus refactoring efforts on files with multiple errors" ∉ recommendations.
Proof.
  unfold ErrorAnalyzer.generateRecommendations. cbv zeta.
  destruct (ErrorAnalyzer.findPatterns errors) as [patterns|msg] eqn:Hp; [|done].
  rewrite (cluster_title_unlisted errors patterns Hp).
  intros [= <-]. rewrite !elem_of_app.
  intros H.
  repeat match type of H with _ ∨ _ => destruct H as [H|H] end;
    try apply elem_of_when in H; rewrite ?elem_of_cons, ?elem_of_nil in H;
    repeat match type of H with _ ∨ _ => destruct H as [H|H] end; done.
Qed.

Lemma generateRecommendations_never_clusters_witness :
  "Focus refactoring efforts on files with multiple errors"
  ∉ ["Ensure proper async/await usage and error handling"].
Proof.
  apply (generateRecommendations_never_clusters
           (replicate 4 {| file := "src/cart.test.js"; line := 8;
                           message := "await boom"; type := "jest" |})).
  vm_compute. reflexivity.
Defined.

Section DominantFacts.
Import ErrorAnalyzer JSObject Notions.

Lemma object_agrees (errors : list TestError) (o : JSObject.t nat)
      (m : gmap string nat) :
  (∀ c, get o c = m !! c) →
  ∀ c, get (foldl (fun acc e => bumpObject acc (getErrorCategory (message e))) o errors) c
       = foldl (fun acc e => bump acc (getErrorCategory (message e))) m errors !! c.
Proof.
  revert o m. induction errors as [|e errors IH]; intros o m Hom c; [done|].
  simpl. apply IH. intros c'. unfold bumpObject, bump. rewrite Hom.
  destruct (decide (getErrorCategory (message e) = c')) as [->|Hne].
  - by rewrite get_set_eq, lookup_insert_eq.
  - by rewrite get_set_ne, lookup_insert_ne.
Qed.

Lemma categorize_agrees (errors : list TestError) (c : string) :
  get (categorizeErrorsObject errors) c = categorizeErrors errors !! c.
Proof. by apply object_agrees. Qed.

Lemma object_count (errors : list TestError) (c : string) :
  default 0 (get (categorizeErrorsObject errors) c) = Spec.occurrences c errors.
Proof. rewrite categorize_agrees. apply count_categorize. Qed.

Lemma object_names (errors : list TestError) (o : JSObject.t nat) :
  NoDup (names o) → Forall (fun k => k ∈ Spec.categories) (names o) →
  let o' := foldl (fun acc e => bumpObject acc (getErrorCategory (message e))) o errors in
  NoDup (names o') ∧ Forall (fun k => k ∈ Spec.categories) (names o').
Proof.
  revert o. induction errors as [|e errors IH]; intros o Hnd Hin; [done|].
  simpl. apply IH.
  - by apply NoDup_set.
  - unfold bumpObject. rewrite names_set.
    destruct (get o _); [done|]. apply Forall_app. split; [done|].
    apply Forall_singleton, getErrorCategory_label.
Qed.

Lemma categories_not_indices :
  Forall (fun k => isArrayIndex k = false) Spec.categories.
Proof. repeat constructor. Qed.

Lemma object_keys (errors : list TestError) :
  keys (categorizeErrorsObject errors) = names (categorizeErrorsObject errors)
  ∧ NoDup (names (categorizeErrorsObject errors))
  ∧ Forall (fun k => k ∈ Spec.categories) (names (categorizeErrorsObject errors)).
Proof.
  destruct (object_names errors [] (NoDup_nil_2) (Forall_nil_2 _)) as [Hnd Hin].
  split; [|done]. apply keys_plain.
  eapply Forall_impl; [exact Hin|]. intros k Hk. simpl in Hk.
  pose proof categories_not_indices as Hc. rewrite Forall_forall in Hc. auto.
Qed.

(** The [reduce] of [getDominantErrorType] ends on a key of largest count. *)
Lemma dominant_fold (count : string → nat) (others : list string) (first : string) :
  let d := foldl (fun a b => if (count b <? count a)%nat then a else b) first others in
  d ∈ first :: others ∧ ∀ k, k ∈ first :: others → count k ≤ count d.
Proof.
  revert first. induction others as [|k others IH]; intros first; simpl.
  - split; [apply list_elem_of_here|]. by intros k ->%list_elem_of_singleton.
  - destruct (Nat.ltb_spec (count k) (count first)) as [Hlt|Hge].
    + destruct (IH first) as [Hin Hmax]. split.
      * apply elem_of_cons in Hin as [->|Hin]; [apply list_elem_of_here|].
        by do 2 apply list_elem_of_further.
      * intros x. rewrite !elem_of_cons. intros [->|[->|Hx]].
        -- apply Hmax, list_elem_of_here.
        -- specialize (Hmax first (list_elem_of_here _ _)). lia.
        -- by apply Hmax, list_elem_of_further.
    + destruct (IH k) as [Hin Hmax]. split.
      * by apply list_elem_of_further.
      * intros x. rewrite !elem_of_cons. intros [->|[->|Hx]].
        -- specialize (Hmax k (list_elem_of_here _ _)). lia.
        -- apply Hmax, list_elem_of_here.
        -- by apply Hmax, list_elem_of_further.
Qed.

End DominantFacts.

(** X5.  The object [categorizeErrors] builds holds the same counts as the
    mapping of the analysis, and on a non-empty list
    [getDominantErrorType] answers with one of the ten categories, one that
    no other category outnumbers. *)
Theorem getDominantErrorType_maximal (errors : list TestError) :
  let dominant :=
    ErrorAnalyzer.getDominantErrorType
      (ErrorAnalyzer.categorizeErrorsObject errors) in
  (∀ c, JSObject.get (ErrorAnalyzer.categorizeErrorsObject errors) c
        = ErrorAnalyzer.categorizeErrors errors !! c)
  ∧ (errors ≠ [] →
     dominant ∈ Spec.categories
     ∧ ∀ c, Spec.occurrences c errors ≤ Spec.occurrences dominant errors).
Proof.
  cbv zeta. split; [apply categorize_agrees|]. intros Hne.
  destruct (object_keys errors) as (Hkeys & Hnd & Hin).
  unfold ErrorAnalyzer.getDominantErrorType. cbv zeta. rewrite Hkeys.
  destruct (Notions.names (ErrorAnalyzer.categorizeErrorsObject errors))
    as [|first others] eqn:Hnames.
  - exfalso. destruct errors as [|e errors]; [done|].
    pose proof (object_count (e :: errors)
                  (ErrorAnalyzer.getErrorCategory (message e))) as Hc.
    assert (ErrorAnalyzer.getErrorCategory (message e)
            ∉ Notions.names (ErrorAnalyzer.categorizeErrorsObject (e :: errors)))
      as Hnot by (rewrite Hnames; apply not_elem_of_nil).
    apply get_None in Hnot. rewrite Hnot in Hc. simpl in Hc.
    unfold Spec.occurrences in Hc. rewrite filter_cons, decide_True in Hc by done.
    simpl in Hc. lia.
  - pose proof (dominant_fold
                  (fun k => default 0 (JSObject.get
                     (ErrorAnalyzer.categorizeErrorsObject errors) k))
                  others first) as [Hd Hmax].
    cbv zeta in Hd, Hmax. split.
    + rewrite Forall_forall in Hin. by apply Hin.
    + intros c. rewrite <- !object_count.
      destruct (decide (c ∈ first :: others)) as [Hc|Hc]; [by apply Hmax|].
      rewrite <- Hnames in Hc. apply get_None in Hc. rewrite Hc. simpl. lia.
Qed.

Lemma getDominantErrorType_maximal_witness :
  let errors :=
    [ {| file := "a.js"; line := 1; message := "TypeError: x"; type := "jest" |};
      {| file := "a.js"; line := 2; message := "expected 1"; type := "jest" |};
      {| file := "a.js"; line := 3; message := "TypeError: y"; type := "jest" |} ] in
  ErrorAnalyzer.getDominantErrorType (ErrorAnalyzer.categorizeErrorsObject errors)
  ∈ Spec.categories
  ∧ ∀ c, Spec.occurrences c errors
         ≤ Spec.occurrences
             (ErrorAnalyzer.getDominantErrorType
                (ErrorAnalyzer.categorizeErrorsObject errors)) errors.
Proof.
  cbv zeta. apply getDominantErrorType_maximal. discriminate.
Defined.

Section LanguageFacts.
Import ErrorAnalyzer Notions.

Lemma elem_of_add x name (languages : list string) :
  x ∈ add name languages ↔ x = name ∨ x ∈ languages.
Proof.
  unfold add. destruct (existsb _ _) eqn:Hex.
  - split; [by right|]. intros [->|?]; [|done].
    apply existsb_exists in Hex as (y & Hy & Heq).
    apply String.eqb_eq in Heq. subst y. by apply list_elem_of_In.
  - rewrite elem_of_app, list_elem_of_singleton. tauto.
Qed.

Lemma NoDup_add name (languages : list string) :
  NoDup languages → NoDup (add name languages).
Proof.
  intros Hnd. unfold add. destruct (existsb _ _) eqn:Hex; [done|].
  apply NoDup_app. split; [done|]. split; [|apply NoDup_singleton].
  intros x Hx ->%list_elem_of_singleton.
  assert (existsb (String.eqb name) languages = true); [|congruence].
  apply existsb_exists. exists name.
  split; [by apply list_elem_of_In|apply String.eqb_refl].
Qed.

Lemma detect_turns (errors : list TestError) :
  detectAffectedLanguages errors = foldl turn [] errors.
Proof. reflexivity. Qed.

Lemma NoDup_turn languages e : NoDup languages → NoDup (turn languages e).
Proof.
  intros Hnd. unfold turn. cbv zeta.
  destruct (looksJs e), (looksPython e), (looksGo e), (looksRust e);
    auto using NoDup_add.
Qed.

Lemma elem_of_turn x languages e :
  x ∈ turn languages e ↔ x ∈ languages ∨ speaks x e.
Proof.
  unfold turn, speaks. cbv zeta.
  destruct (looksJs e), (looksPython e), (looksGo e), (looksRust e);
    rewrite ?elem_of_add; intuition congruence.
Qed.

Lemma turns_spec (errors : list TestError) (acc : list string) :
  NoDup acc →
  NoDup (foldl turn acc errors)
  ∧ ∀ x, x ∈ foldl turn acc errors ↔ x ∈ acc ∨ ∃ e, e ∈ errors ∧ speaks x e.
Proof.
  revert acc. induction errors as [|e errors IH]; intros acc Hnd; simpl.
  - split; [done|]. intros x. split; [by left|].
    intros [?|(e & He & _)]; [done|]. by apply elem_of_nil in He.
  - destruct (IH (turn acc e) (NoDup_turn acc e Hnd)) as [Hnd' Hin].
    split; [done|]. intros x. rewrite Hin, elem_of_turn. split.
    + intros [[?|?]|(e' & He' & ?)]; [by left|right|right].
      * exists e. split; [apply list_elem_of_here|done].
      * exists e'. split; [by apply list_elem_of_further|done].
    + intros [?|(e' & He' & ?)]; [by left; left|].
      apply elem_of_cons in He' as [->|He']; [by left; right|].
      right. eauto.
Qed.

End LanguageFacts.

(** X6.  [detectAffectedLanguages] names each language once, and names a
    language exactly when some error is evidence of it: by its tag or by the
    extension of its file for JavaScript/TypeScript, Python and Go, by the
    extension [.rs] or [.toml] alone for Rust. *)
Theorem detectAffectedLanguages_sound (errors : list TestError) :
  NoDup (ErrorAnalyzer.detectAffectedLanguages errors)
  ∧ ∀ l, l ∈ ErrorAnalyzer.detectAffectedLanguages errors
         ↔ ∃ e, e ∈ errors ∧ Notions.speaks l e.
Proof.
  rewrite detect_turns.
  destruct (turns_spec errors [] (NoDup_nil_2)) as [Hnd Hin].
  split; [done|]. intros l. rewrite Hin. split; [|by right].
  intros [H|H]; [by apply elem_of_nil in H|done].
Qed.

Section CategoryFacts.
Import JS ErrorAnalyzer.

Lemma lowerChar_idem (c : ascii) : lowerChar (lowerChar c) = lowerChar c.
Proof. destruct c as [[] [] [] [] [] [] [] []]; reflexivity. Qed.

Lemma toLowerCase_idem (s : string) : toLowerCase (toLowerCase s) = toLowerCase s.
Proof. induction s as [|c s IH]; simpl; [done|]. by rewrite lowerChar_idem, IH. Qed.

(** A needle with a capital letter is never found in a lower-cased text. *)
Lemma capital_needle_missed (s needle : string) :
  toLowerCase needle ≠ needle → includes (toLowerCase s) needle = false.
Proof.
  intros Hcap. apply not_true_is_false. intros H.
  apply includes_spec in H as (pre & post & H).
  apply toLowerCase_split in H as (pre' & rest & _ & _ & H).
  apply toLowerCase_split in H as (mid & post' & _ & H & _).
  apply Hcap. rewrite <- H. apply toLowerCase_idem.
Qed.

End CategoryFacts.

(** X7.  The needles ['toBe'] and ['toEqual'] of [getErrorCategory] are
    never found, the message being lower-cased before the search; so a
    message is a "Test Assertion" only if, case ignored, it contains
    "assertion" or "expected". *)
Theorem getErrorCategory_assertion_needles (msg : string) :
  JS.includes (JS.toLowerCase msg) "toBe" = false
  ∧ JS.includes (JS.toLowerCase msg) "toEqual" = false
  ∧ (ErrorAnalyzer.getErrorCategory msg = "Test Assertion" →
     JS.includes (JS.toLowerCase msg) "assertion" = true
     ∨ JS.includes (JS.toLowerCase msg) "expected" = true).
Proof.
  assert (JS.includes (JS.toLowerCase msg) "toBe" = false) as HtoBe
    by (by apply capital_needle_missed).
  assert (JS.includes (JS.toLowerCase msg) "toEqual" = false) as HtoEqual
    by (by apply capital_needle_missed).
  split; [done|]. split; [done|].
  unfold ErrorAnalyzer.getErrorCategory. cbv zeta.
  rewrite HtoBe, HtoEqual, !orb_false_r.
  destruct (_ || _); [discriminate|].
  destruct (_ || _); [discriminate|].
  destruct (_ || _); [discriminate|].
  destruct (JS.includes (JS.toLowerCase msg) "assertionerror") eqn:Herr.
  { intros _. left. eapply includes_trans; [exact Herr|]. reflexivity. }
  destruct (JS.includes (JS.toLowerCase msg) "assertion"); [by left|].
  destruct (JS.includes (JS.toLowerCase msg) "expected"); [by right|].
  simpl.
  repeat (destruct (_ || _); [discriminate|]). discriminate.
Qed.

Lemma getErrorCategory_assertion_needles_witness :
  ErrorAnalyzer.getErrorCategory "expect(received).toBe(5)" = "Other"
  ∧ (JS.includes (JS.toLowerCase "Expected: 5") "assertion" = true
     ∨ JS.includes (JS.toLowerCase "Expected: 5") "expected" = true).
Proof.
  split; [vm_compute; reflexivity|].
  apply (proj2 (proj2 (getErrorCategory_assertion_needles "Expected: 5"))).
  vm_compute. reflexivity.
Defined.

Section SortFacts.
Import TestRunner Notions.

Lemma insertByConfidence_perm fw sorted :
  insertByConfidence fw sorted ≡ₚ fw :: sorted.
Proof.
  induction sorted as [|x rest IH]; simpl; [done|].
  destruct (Qle_bool _ _); [|done].
  rewrite IH. apply Permutation_swap.
Qed.

Lemma sortByConfidence_perm frameworks : sortByConfidence frameworks ≡ₚ frameworks.
Proof.
  unfold sortByConfidence.
  assert (∀ acc, foldl (fun sorted fw => insertByConfidence fw sorted) acc frameworks
                 ≡ₚ acc ++ frameworks) as H.
  { induction frameworks as [|fw l IH]; intros acc; simpl.
    - by rewrite app_nil_r.
    - rewrite IH, insertByConfidence_perm. simpl. apply Permutation_middle. }
  apply H.
Qed.

Lemma insertByConfidence_sorted fw sorted :
  StronglySorted byConfidence sorted →
  StronglySorted byConfidence (insertByConfidence fw sorted).
Proof.
  induction 1 as [|x rest Hs IH Hx]; simpl.
  - repeat constructor.
  - destruct (Qle_bool (confidence fw) (confidence x)) eqn:Hle.
    + constructor; [done|].
      rewrite insertByConfidence_perm. constructor; [|done].
      by apply Qle_bool_iff.
    + assert (confidence x <= confidence fw)%Q as Hxf.
      { apply Qlt_le_weak, Qnot_le_lt. intros H%Qle_bool_iff. congruence. }
      constructor; [by constructor|]. constructor; [done|].
      eapply Forall_impl; [exact Hx|]. intros y Hy. unfold byConfidence in *.
      by eapply Qle_trans.
Qed.

Lemma sortByConfidence_sorted frameworks :
  StronglySorted byConfidence (sortByConfidence frameworks).
Proof.
  unfold sortByConfidence.
  assert (∀ acc, StronglySorted byConfidence acc →
                 StronglySorted byConfidence
                   (foldl (fun sorted fw => insertByConfidence fw sorted) acc frameworks))
    as H.
  { induction frameworks as [|fw l IH]; intros acc Hacc; simpl; [done|].
    by apply IH, insertByConfidence_sorted. }
  apply H. constructor.
Qed.

End SortFacts.

(** X8.  What [detectAllFrameworks] returns is the candidates pushed by its
    body, rearranged with the highest confidence first. *)
Theorem detectAllFrameworks_sorted (h : TestRunner.Host) :
  StronglySorted Notions.byConfidence (TestRunner.detectAllFrameworks h).1
  ∧ (TestRunner.detectAllFrameworks h).1 ≡ₚ (TestRunner.detectBody h []).2.
Proof.
  unfold TestRunner.detectAllFrameworks.
  destruct (TestRunner.detectBody h []) as [[?|e] fws]; simpl;
    split; auto using sortByConfidence_sorted, sortByConfidence_perm.
Qed.

Section CandidateFacts.
Import TestRunner Notions.
Context (P : DetectedFramework → Prop).

Lemma pushesOnly_ret {A} (a : A) : pushesOnly P (ret a).
Proof. by intros fws H. Qed.

Lemma pushesOnly_throw {A} (e : string) : pushesOnly P (throw (A:=A) e).
Proof. by intros fws H. Qed.

Lemma pushesOnly_bind {A B} (m : Try A) (k : A → Try B) :
  pushesOnly P m → (∀ a, pushesOnly P (k a)) → pushesOnly P (bind m k).
Proof.
  intros Hm Hk fws H. unfold bind. specialize (Hm fws H).
  destruct (m fws) as [[a|e] fws']; simpl in *; [by apply Hk|done].
Qed.

Lemma pushesOnly_when (b : bool) (fw : DetectedFramework) :
  P fw → pushesOnly P (when b (push fw)).
Proof.
  intros Hfw. destruct b; [|apply pushesOnly_ret].
  intros fws H. simpl. apply Forall_app. split; [done|]. by constructor.
Qed.

Lemma pushesOnly_member (key : string) (j : json) : pushesOnly P (member key j).
Proof. destruct j; first [apply pushesOnly_throw|apply pushesOnly_ret]. Qed.

Lemma pushesOnly_readManifest (ws : Workspace) : pushesOnly P (readManifest ws).
Proof.
  unfold readManifest.
  destruct (manifest ws); first [apply pushesOnly_throw|apply pushesOnly_ret].
Qed.

End CandidateFacts.

Section CandidateFacts2.
Import TestRunner Notions.

Lemma wellFormed_mk (name cmd : string) (q : Q) :
  cmd ≠ "" → (0.8 <= q)%Q → (q <= 0.95)%Q → wellFormed (mk name cmd q).
Proof. by intros ???. Qed.

Lemma pushesOnly_detectBody (h : Host) : pushesOnly wellFormed (detectBody h).
Proof.
  unfold detectBody, detectManifest, detectMarkers, pytestCommand.
  repeat first
    [ apply pushesOnly_bind; [|intros ?]
    | apply pushesOnly_when
    | apply pushesOnly_readManifest
    | apply pushesOnly_member
    | apply pushesOnly_ret
    | match goal with |- pushesOnly _ (if ?b then _ else _) => destruct b end
    | apply wellFormed_mk ];
    first [ by vm_compute
          | cbv [getNodeCommand getPythonCommand]; destruct (win32 h);
            vm_compute; intros Heq; discriminate Heq ].
Qed.

End CandidateFacts2.

(** X9.  Every candidate [detectAllFrameworks] returns has a command to run
    and a confidence between 0.8 and 0.95. *)
Theorem detectAllFrameworks_wellFormed (h : TestRunner.Host) :
  Forall Notions.wellFormed (TestRunner.detectAllFrameworks h).1.
Proof.
  pose proof (pushesOnly_detectBody h [] (Forall_nil_2 _)) as H.
  unfold TestRunner.detectAllFrameworks.
  destruct (TestRunner.detectBody h []) as [[?|e] fws]; cbn [fst snd] in *;
    by rewrite sortByConfidence_perm.
Qed.

(** X10.  If the quick pick only ever answers with an item it was shown,
    [getTestCommand] keeps the lock well-formed: whenever it is set, it holds
    a command to run. *)
Theorem lock_invariant (h : TestRunner.Host) (r : TestRunner.Runner) :
  Spec.picksOffered h → Spec.wellLocked r → Spec.wellLocked (Spec.after h r).
Proof. apply lock_stays_named. Qed.

Lemma lock_invariant_witness :
  Spec.wellLocked
    (Spec.after
       (Spec.plainHost
          (Spec.holding ["go.mod"] (TestRunner.ManifestUnreadable "ENOENT") (Some []))
          Spec.cancel)
       Spec.fresh).
Proof.
  apply lock_invariant.
  - intros items chosen H. discriminate H.
  - intros s H. discriminate H.
Defined.

Section StickyFacts.
Import TestRunner Spec.

Lemma resolved_locks (h : Host) (r : Runner) (cmd : string) :
  JS.trim (customTestCommand h) = "" →
  picksOffered h → wellLocked r →
  resolved h r = Some cmd →
  selectedFramework (after h r) = Some cmd ∧ cmd ≠ "".
Proof.
  intros Hcustom Hpick Hr. unfold resolved, after.
  destruct (locked r) as [s|] eqn:Hl.
  - unfold locked in Hl. destruct (selectedFramework r) as [s'|] eqn:Hs; [|done].
    destruct (JS.truthy s') eqn:Ht; [|done]. injection Hl as ->.
    rewrite (lock_reused h r s Hcustom Hs (Hr s Hs)). simpl.
    intros [= <-]. split; [done|]. by apply Hr.
  - apply locked_unlocked in Hl. rewrite (detection_decides h r Hcustom Hl).
    pose proof (detected_named h) as Hd. cbv zeta.
    destruct (detectAllFrameworks h).1 as [|fw1 [|fw2 fws]] eqn:Hfws; [done| |].
    + simpl. intros [= <-]. split; [done|]. by apply Forall_inv in Hd.
    + unfold showFrameworkPicker. cbv zeta.
      destruct (showQuickPick h _) as [chosen|] eqn:Hc; [|done].
      simpl. intros [= <-]. split; [done|].
      apply Hpick in Hc. apply list_elem_of_fmap in Hc as (fw & -> & Hfw).
      rewrite Forall_forall in Hd. by apply Hd.
Qed.

End StickyFacts.

(** X11.  A command resolved in one cycle (from the lock, from a single
    candidate or from a pick) is what the next cycle resolves to, without
    detection being consulted and without a prompt, as long as no custom
    command is configured. *)
Theorem lock_is_sticky (h h' : TestRunner.Host) (r : TestRunner.Runner)
        (cmd : string) :
  JS.trim (TestRunner.customTestCommand h) = "" →
  JS.trim (TestRunner.customTestCommand h') = "" →
  Spec.picksOffered h → Spec.wellLocked r →
  Spec.resolved h r = Some cmd →
  Spec.resolved h' (Spec.after h r) = Some cmd
  ∧ Spec.after h' (Spec.after h r) = Spec.after h r
  ∧ ¬ Spec.prompted (Spec.events h' (Spec.after h r)).
Proof.
  intros Hc Hc' Hpick Hr Hres.
  destruct (resolved_locks h r cmd Hc Hpick Hr Hres) as [Hsel Hne].
  unfold Spec.resolved, Spec.after, Spec.events in *.
  rewrite (lock_reused h' _ cmd Hc' Hsel Hne). simpl.
  auto using logVerbose_quiet.
Qed.

Lemma lock_is_sticky_witness :
  let go := Spec.plainHost
              (Spec.holding ["go.mod"] (TestRunner.ManifestUnreadable "ENOENT") (Some []))
              Spec.cancel in
  let later := Spec.plainHost
                 (Spec.holding ["Cargo.toml"; "pytest.ini"]
                    (TestRunner.ManifestUnreadable "ENOENT") (Some []))
                 Spec.cancel in
  Spec.resolved later (Spec.after go Spec.fresh) = Some "go test ./...".
Proof.
  cbv zeta.
  refine (proj1 (lock_is_sticky _ _ Spec.fresh "go test ./..." _ _ _ _ _)).
  - vm_compute; reflexivity.
  - vm_compute; reflexivity.
  - intros items chosen H. discriminate H.
  - intros s H. discriminate H.
  - vm_compute; reflexivity.
Defined.

Section DuplicateFacts.
Import TestRunner Spec.

Lemma detect_quiet_list (h : Host) :
  manifestQuiet (workspace h) →
  ∃ ms, (detectAllFrameworks h).1
        = sortByConfidence
            (ms ++ configSource h (stat (workspace h) "pytest.ini")
                                  (stat (workspace h) "requirements.txt")
             ++ scanSource h (readdir (workspace h))
             ++ goSource (stat (workspace h) "go.mod")
             ++ cargoSource (stat (workspace h) "Cargo.toml")).
Proof.
  intros Hq. destruct (detectManifest_quiet h Hq) as [ms Hms]. exists ms.
  pose proof (emits_seq _ _ _ _ Hms (detectMarkers_emits h) []) as Hbody.
  unfold detectAllFrameworks, detectBody. by rewrite Hbody.
Qed.

Lemma scanSource_found (h : Host) :
  findPythonTestFiles (workspace h) ≠ [] →
  ∃ name, scanSource h (readdir (workspace h)) = [mk name (pytestCommand h) 0.8].
Proof.
  unfold findPythonTestFiles, scanSource.
  destruct (readdir (workspace h)) as [files|]; [|done]. simpl.
  change (List.filter _ files) with (List.filter isPythonTest files).
  destruct (List.filter isPythonTest files); [done|]. eauto.
Qed.

End DuplicateFacts.

(** X12.  Candidates are not merged by command.  In a workspace with a
    pytest configuration file and Python test files, where the manifest
    raises nothing, detection returns two candidates that run the same
    pytest command, and a fresh unconfigured selector prompts. *)
Theorem pytest_detected_twice (h : TestRunner.Host) (r : TestRunner.Runner) :
  let ws := TestRunner.workspace h in
  JS.trim (TestRunner.customTestCommand h) = "" → Spec.unlocked r →
  Spec.manifestQuiet ws →
  TestRunner.stat ws "pytest.ini" = true ∨ TestRunner.stat ws "requirements.txt" = true →
  TestRunner.findPythonTestFiles ws ≠ [] →
  2 ≤ length (filter (fun fw => TestRunner.command fw = TestRunner.pytestCommand h)
                     (TestRunner.detectAllFrameworks h).1)
  ∧ Spec.prompted (Spec.events h r).
Proof.
  cbv zeta. intros Hcustom Hun Hq Hcfg Hscan.
  destruct (detect_quiet_list h Hq) as [ms Hlist].
  destruct (scanSource_found h Hscan) as [name Hname].
  assert (Spec.configSource h (TestRunner.stat (TestRunner.workspace h) "pytest.ini")
            (TestRunner.stat (TestRunner.workspace h) "requirements.txt")
          = [TestRunner.mk "pytest (detected config)" (TestRunner.pytestCommand h) 0.9])
    as Hconfig.
  { unfold Spec.configSource. by destruct Hcfg as [-> | ->]; rewrite ?orb_true_r. }
  rewrite Hname, Hconfig in Hlist.
  assert (2 ≤ length (filter (fun fw => TestRunner.command fw = TestRunner.pytestCommand h)
                             (TestRunner.detectAllFrameworks h).1)) as Htwo.
  { rewrite Hlist, sortByConfidence_perm, !filter_app, !length_app.
    rewrite !filter_cons, !filter_nil, !decide_True by done. simpl.
    lia. }
  split; [done|].
  unfold Spec.events. rewrite (detection_decides h r Hcustom Hun). cbv zeta.
  pose proof (length_filter
                (fun fw => TestRunner.command fw = TestRunner.pytestCommand h)
                (TestRunner.detectAllFrameworks h).1) as Hlen.
  assert (2 ≤ length (TestRunner.detectAllFrameworks h).1) as Hmany by lia.
  clear Hlen Htwo Hlist.
  destruct (TestRunner.detectAllFrameworks h).1 as [|fw1 [|fw2 fws]] eqn:Hd;
    simpl in Hmany; [lia..|].
  unfold TestRunner.showFrameworkPicker. cbv zeta.
  eexists. destruct (TestRunner.showQuickPick h _); simpl;
    apply elem_of_app; right; apply list_elem_of_here.
Qed.

Lemma pytest_detected_twice_witness :
  Spec.prompted
    (Spec.events
       (Spec.plainHost
          (Spec.holding ["pytest.ini"] (TestRunner.ManifestUnreadable "ENOENT")
                        (Some ["pytest.ini"; "test_cart.py"]))
          Spec.cancel)
       Spec.fresh).
Proof.
  refine (proj2 (pytest_detected_twice _ _ _ _ _ _ _)).
  - vm_compute; reflexivity.
  - by left.
  - by left.
  - by left.
  - vm_compute. discriminate.
Defined.

Section ParseFacts2.
Import TestRunner Spec Notions.

Lemma firstMatch_trimmed (lines : list string) (i : nat) (l : string) (e : TestError) :
  firstMatch families lines i l = Some e → JS.trim (message e) = message e.
Proof.
  cbn [firstMatch families].
  unfold jsFamily, pythonFamily, goFamily, genericFamily, located, getContextualError.
  destruct (orElse (JS.exec jestAt l) (JS.exec jestFile l));
    [intros [= <-]; apply trim_idem|].
  destruct (orElse (JS.exec pythonFrame l) (JS.exec pythonFile l));
    [intros [= <-]; apply trim_idem|].
  destruct (JS.exec goFile l); [intros [= <-]; apply trim_idem|].
  cbn [fmap option_fmap option_map].
  destruct (isErrorLine l); [intros [= <-]; apply trim_idem|done].
Qed.

Lemma firstMatch_location (lines lines' : list string) (i i' : nat) (l : string) :
  location <$> firstMatch families lines i l
  = location <$> firstMatch families lines' i' l.
Proof.
  cbn [firstMatch families].
  unfold jsFamily, pythonFamily, goFamily, genericFamily.
  destruct (orElse (JS.exec jestAt l) (JS.exec jestFile l)); [done|].
  destruct (orElse (JS.exec pythonFrame l) (JS.exec pythonFile l)); [done|].
  destruct (JS.exec goFile l); [done|].
  cbn [fmap option_fmap option_map]. by destruct (isErrorLine l).
Qed.

Lemma omap_length_le {A B} (f : A → option B) (l : list A) :
  length (omap f l) ≤ length l.
Proof.
  induction l as [|x l IH]; [done|]. cbn [omap list_omap].
  destruct (f x); cbn [length]; lia.
Qed.

Lemma parseErrors_perLine (output : string) :
  parseErrors output = omap id (perLine output).
Proof. unfold parseErrors, perLine. cbv zeta. by rewrite parseFrom_spec. Qed.

Lemma locations_from (lines rest : list string) (k : nat) :
  location <$> omap id (imap (fun j l => firstMatch families lines (k + j) l) rest)
  = omap (fun l => location <$> firstMatch families [] 0 l) rest.
Proof.
  revert k. induction rest as [|l rest IH]; intros k; [done|].
  rewrite imap_cons. cbn [omap list_omap]. unfold id at 1.
  rewrite (firstMatch_location [] lines 0 (k + 0) l).
  assert (imap ((fun j l0 => firstMatch families lines (k + j) l0) ∘ S) rest
          = imap (fun j l0 => firstMatch families lines (S k + j) l0) rest) as ->.
  { apply imap_ext. intros j x _. unfold compose. by rewrite Nat.add_succ_r. }
  destruct (firstMatch families lines (k + 0) l) as [e|];
    cbn [fmap option_fmap option_map].
  - rewrite fmap_cons. f_equal. apply IH.
  - apply IH.
Qed.

(** The locations of the errors, line by line, without the context. *)
Lemma parse_locations (output : string) :
  location <$> parseErrors output
  = omap (fun l => location <$> firstMatch families [] 0 l)
         (JS.split nl output).
Proof.
  rewrite parseErrors_perLine. unfold perLine. cbv zeta.
  apply (locations_from (JS.split nl output) (JS.split nl output) 0).
Qed.

Lemma split_nonempty (sep s : string) : JS.split_from sep 0 s ≠ [].
Proof.
  destruct s as [|c s]; simpl; [done|].
  destruct (JS.startsWith _ _); [done|]. by destruct (JS.split_from sep 0 s).
Qed.

(** Splitting at line feeds goes through a line feed. *)
Lemma split_lines_app (a b : string) :
  JS.split nl (a +:+ nl +:+ b) = JS.split nl a ++ JS.split nl b.
Proof.
  unfold JS.split. induction a as [|c a IH].
  - simpl. by destruct b.
  - change (String c a +:+ nl +:+ b) with (String c (a +:+ nl +:+ b)).
    cbn [JS.split_from]. change (String.length nl - 1) with 0. rewrite IH.
    assert (JS.startsWith (String c (a +:+ nl +:+ b)) nl
            = JS.startsWith (String c a) nl) as -> by (by unfold nl; simpl).
    destruct (JS.startsWith (String c a) nl); [done|].
    pose proof (split_nonempty nl a) as Hne.
    by destruct (JS.split_from nl 0 a).
Qed.

End ParseFacts2.

(** X14.  Every error [parseErrors] returns has a trimmed message, and there
    are at most as many errors as the output has lines. *)
Theorem parseErrors_messages_trimmed (output : string) :
  Forall (fun e => JS.trim (message e) = message e) (TestRunner.parseErrors output)
  ∧ length (TestRunner.parseErrors output)
    ≤ length (JS.split TestRunner.nl output).
Proof.
  rewrite parseErrors_perLine. split.
  - apply Forall_forall. intros e He.
    apply list_elem_of_omap in He as (o & Ho & Hid). unfold id in Hid. subst o.
    unfold Spec.perLine in Ho. cbv zeta in Ho.
    apply list_elem_of_lookup in Ho as [i Hi]. rewrite list_lookup_imap in Hi.
    destruct (JS.split TestRunner.nl output !! i) as [l|]; [|done].
    cbn [fmap option_fmap option_map] in Hi. injection Hi as Hi.
    exact (firstMatch_trimmed _ _ _ _ Hi).
  - etrans; [apply omap_length_le|]. unfold Spec.perLine. cbv zeta.
    by rewrite length_imap.
Qed.

(** X15.  Where errors point is decided line by line: the locations (file,
    line, tag) parsed from two outputs joined by a line feed are those of the
    first followed by those of the second. *)
Theorem parseErrors_locations_compose (first second : string) :
  Notions.location
    <$> TestRunner.parseErrors (first +:+ TestRunner.nl +:+ second)
  = (Notions.location <$> TestRunner.parseErrors first)
    ++ (Notions.location <$> TestRunner.parseErrors second).
Proof.
  rewrite !parse_locations, split_lines_app.
  generalize (JS.split TestRunner.nl first) as l1.
  generalize (JS.split TestRunner.nl second) as l2.
  intros l2 l1. induction l1 as [|x l1 IH]; [done|].
  cbn [app omap list_omap]. rewrite IH.
  by destruct (Notions.location <$> Spec.firstMatch Spec.families [] 0 x).
Qed.

Section FailureFacts.
Import TestRunner.

Lemma containsTestFailures_includes (big small : string) :
  JS.includes big small = true →
  containsTestFailures small = true → containsTestFailures big = true.
Proof.
  intros Hin. unfold containsTestFailures. rewrite !existsb_exists.
  intros (ind & Hind & H). exists ind. split; [done|].
  eapply includes_trans; [|exact H]. by apply includes_mono_lower.
Qed.

End FailureFacts.

(** X16.  Failure indicators are not lost by surrounding text: an output
    that contains a text with a failure indicator has one itself, so a run
    whose stdout alone shows a failure is reported whatever stderr adds. *)
Theorem containsTestFailures_monotone (before text after : string) :
  TestRunner.containsTestFailures text = true →
  TestRunner.containsTestFailures (before +:+ text +:+ after) = true.
Proof.
  apply containsTestFailures_includes. apply includes_spec. eauto.
Qed.

Lemma containsTestFailures_monotone_witness :
  TestRunner.containsTestFailures ("> jest" +:+ "1 failed, 2 passed" +:+ "done") = true.
Proof.
  apply containsTestFailures_monotone. vm_compute. reflexivity.
Defined.

Section SuffixFacts.
Import JS.

Lemma string_take_drop (n : nat) (s : string) : take n s +:+ drop n s = s.
Proof.
  revert s. induction n as [|n IH]; intros s; simpl; [done|].
  destruct s as [|c s]; simpl; [done|]. by rewrite IH.
Qed.

Lemma endsWith_spec (s p : string) :
  endsWith s p = true ↔ ∃ pre, s = pre +:+ p.
Proof.
  unfold endsWith. rewrite andb_true_iff, Nat.leb_le, String.eqb_eq. split.
  - intros [_ H]. exists (take (String.length s - String.length p) s).
    rewrite <- H at 2. by rewrite string_take_drop.
  - intros [pre ->]. rewrite app_length'. split; [lia|].
    replace (String.length pre + String.length p - String.length p)
      with (String.length pre) by lia.
    apply drop_app_length.
Qed.

End SuffixFacts.

(** X17.  [findPythonTestFiles] keeps entries of the root listing, in their
    order, every one of them ending in [.py]; a listing that cannot be read
    gives none. *)
Theorem findPythonTestFiles_sound (ws : TestRunner.Workspace) :
  TestRunner.findPythonTestFiles ws `sublist_of` default [] (TestRunner.readdir ws)
  ∧ Forall (fun f => JS.endsWith f ".py" = true) (TestRunner.findPythonTestFiles ws).
Proof.
  unfold TestRunner.findPythonTestFiles.
  destruct (TestRunner.readdir ws) as [files|]; simpl; [|by split].
  rewrite list_filter_stdpp. split; [apply sublist_filter|].
  apply Forall_forall. intros f [Hf _]%list_elem_of_filter.
  apply orb_true_iff in Hf as [[_ H]%andb_true_iff|H]; [done|].
  apply endsWith_spec in H as [pre ->]. apply endsWith_spec.
  exists (pre +:+ "_test"). by rewrite app_assoc'.
Qed.

Section SuggestionFacts.
Import JS AITestingService Spec.

Lemma before_prefix (sep s : string) : ∃ rest, s = before sep s +:+ rest.
Proof.
  induction s as [|c s [rest IH]]; cbn [before].
  - exists "". by destruct (startsWith "" sep).
  - destruct (startsWith (String c s) sep); [by exists (String c s)|].
    exists rest. simpl. by rewrite <- IH.
Qed.

(** The text before the first separator holds no separator. *)
Lemma before_clean (sep s : string) :
  sep ≠ "" → includes (before sep s) sep = false.
Proof.
  intros Hsep. induction s as [|c s IH]; cbn [before].
  - destruct (startsWith "" sep) eqn:Hs; simpl; rewrite Hs; [|done].
    apply startsWith_spec in Hs as [t Ht]. by destruct sep.
  - destruct (startsWith (String c s) sep) eqn:Hs.
    + simpl. destruct (startsWith "" sep) eqn:Hs'; [|done].
      apply startsWith_spec in Hs' as [t Ht]. by destruct sep.
    + cbn [includes]. rewrite IH.
      destruct (startsWith (String c (before sep s)) sep) eqn:Hs'; [|done].
      apply startsWith_spec in Hs' as [t Ht].
      destruct (before_prefix sep s) as [rest Hrest].
      assert (startsWith (String c s) sep = true); [|congruence].
      apply startsWith_spec. exists (t +:+ rest).
      rewrite <- app_assoc', <- Ht. simpl. by rewrite <- Hrest.
Qed.

End SuggestionFacts.

(** X18.  A suggestion is at most 300 characters long, counted as the
    language counts them (UTF-16 code units), has no white space at either
    end and holds no fence marker. *)
Theorem extractSuggestion_bounded (text : string) :
  JS.lengthOf (AITestingService.extractSuggestion text) ≤ 300
  ∧ JS.trim (AITestingService.extractSuggestion text)
    = AITestingService.extractSuggestion text
  ∧ JS.includes (AITestingService.extractSuggestion text) AITestingService.fence
    = false.
Proof.
  unfold AITestingService.extractSuggestion. cbv zeta.
  rewrite split_head. split; [|split].
  - etrans; [apply trim_lengthOf|apply substring0_lengthOf].
  - apply trim_idem.
  - apply not_true_is_false. intros H.
    assert (JS.includes (JS.substring0 300 (Spec.before AITestingService.fence text))
                        AITestingService.fence = true) as H'.
    { destruct (trim_inside
                  (JS.substring0 300 (Spec.before AITestingService.fence text)))
        as (pre & post & Hin).
      eapply includes_trans; [|exact H]. apply includes_spec. eauto. }
    apply includes_substring0 in H'; [|by repeat constructor].
    by rewrite before_clean in H'.
Qed.

(** X19.  A code fix, when there is one, is longer than 10 characters,
    counted as the language counts them (UTF-16 code units), has no white
    space at either end, and comes from a text with a fenced block. *)
Theorem extractCodeFix_kept (text code : string) :
  AITestingService.extractCodeFix text = Some code →
  10 < JS.lengthOf code ∧ JS.trim code = code ∧ is_Some (Spec.firstBlock text).
Proof.
  rewrite extractCodeFix_firstBlock.
  destruct (Spec.firstBlock text) as [block|]; [|done].
  destruct (Nat.ltb_spec 10 (JS.lengthOf (Spec.stripped block))); [|done].
  intros [= <-]. split; [done|]. split; [apply trim_idem|by eexists].
Qed.

Lemma extractCodeFix_kept_witness :
  let text := "Guard it:" +:+ TestRunner.nl +:+ AITestingService.fence
              +:+ "js" +:+ TestRunner.nl +:+ "if (cart) cart.clear();"
              +:+ TestRunner.nl +:+ AITestingService.fence in
  10 < JS.lengthOf "if (cart) cart.clear();"
  ∧ JS.trim "if (cart) cart.clear();" = "if (cart) cart.clear();"
  ∧ is_Some (Spec.firstBlock text).
Proof.
  cbv zeta. apply extractCodeFix_kept. vm_compute. reflexivity.
Defined.

Section BatchFacts2.
Import AITestingService Spec.

Lemma call_value (h : Host) (b : Backend) (s : AISuggestion) :
  valueOf (call b h) = Some s →
  ∃ text, succeeds h b text ∧ s = suggestionOf b text.
Proof.
  rewrite call_ask. unfold ask, succeeds. simpl.
  destruct (secrets h (secretName b)) as [|[apiKey|]] eqn:Hs; [done| |done].
  destruct (JS.truthy apiKey) eqn:Hk; [|done]. simpl.
  destruct (post h b) as [e|[text|]] eqn:Hp; [done| |done].
  destruct (JS.truthy text) eqn:Ht; [|done]. simpl.
  intros [= <-]. exists text. split.
  - exists apiKey. rewrite <- !truthy_true. done.
  - by destruct b.
Qed.

Lemma call_local (h h' : Host) (b : Backend) :
  secrets h (secretName b) = secrets h' (secretName b) →
  post h b = post h' b → call b h = call b h'.
Proof. intros Hs Hp. rewrite !call_ask. unfold ask. by rewrite Hs, Hp. Qed.

End BatchFacts2.

(** X20.  Every suggestion [getSuggestions] returns is the one an enabled
    backend made of its own reply, and the suggestions come in dispatch
    order, at most one for each backend. *)
Theorem getSuggestions_sound (h : AITestingService.Host) :
  Forall (fun s => ∃ b text,
            AITestingService.enabled h (Spec.serviceId b) = true
            ∧ Spec.succeeds h b text ∧ s = Spec.suggestionOf b text)
         (AITestingService.getSuggestions h)
  ∧ AITestingService.service <$> AITestingService.getSuggestions h
    `sublist_of` ["Gemini"; "ChatGPT"; "Claude"].
Proof.
  rewrite getSuggestions_batch. split.
  - apply Forall_forall. intros s (b & _ & Hb)%list_elem_of_omap.
    destruct (AITestingService.enabled h (Spec.serviceId b)) eqn:Hen; [|done].
    apply call_value in Hb as (text & Hok & ->). eauto.
  - cbn [omap list_omap].
    assert (∀ b s, (if AITestingService.enabled h (Spec.serviceId b)
                    then Spec.valueOf (Spec.call b h) else None) = Some s →
                   AITestingService.service s
                   = AITestingService.service (Spec.suggestionOf b "")) as Hname.
    { intros b s Hs.
      destruct (AITestingService.enabled h (Spec.serviceId b)); [|done].
      by apply call_value in Hs as (text & _ & ->). }
    destruct (if AITestingService.enabled h _ then _ else _) as [s1|] eqn:H1;
      destruct (if AITestingService.enabled h (Spec.serviceId AITestingService.openai)
                then _ else _) as [s2|] eqn:H2;
      destruct (if AITestingService.enabled h (Spec.serviceId AITestingService.claude)
                then _ else _) as [s3|] eqn:H3;
      cbn [fmap list_fmap];
      rewrite ?(Hname _ _ H1), ?(Hname _ _ H2), ?(Hname _ _ H3); simpl;
      repeat first [apply sublist_nil | apply sublist_skip | apply sublist_cons].
Qed.

(** X21.  The batch depends on a backend only if it is enabled: two hosts
    with the same enabled services, whose enabled backends have the same
    credential and the same reply, get the same suggestions. *)
Theorem getSuggestions_local (h h' : AITestingService.Host) :
  AITestingService.enabledServices h = AITestingService.enabledServices h' →
  (∀ b, AITestingService.enabled h (Spec.serviceId b) = true →
        AITestingService.secrets h (Spec.secretName b)
        = AITestingService.secrets h' (Spec.secretName b)
        ∧ AITestingService.post h b = AITestingService.post h' b) →
  AITestingService.getSuggestions h = AITestingService.getSuggestions h'.
Proof.
  intros Hen Hsame. rewrite !getSuggestions_batch.
  assert (∀ b, (if AITestingService.enabled h (Spec.serviceId b)
                then Spec.valueOf (Spec.call b h) else None)
               = (if AITestingService.enabled h' (Spec.serviceId b)
                  then Spec.valueOf (Spec.call b h') else None)) as Hb.
  { intros b. unfold AITestingService.enabled in *. rewrite <- Hen.
    destruct (existsb _ _) eqn:Hx; [|done].
    destruct (Hsame b Hx) as [Hs Hp]. by rewrite (call_local h h' b Hs Hp). }
  cbn [omap list_omap]. by rewrite !Hb.
Qed.

Lemma getSuggestions_local_witness :
  AITestingService.getSuggestions
    {| AITestingService.enabledServices := ["openai"];
       AITestingService.secrets := fun _ => AITestingService.SecretValue (Some "k");
       AITestingService.post := fun _ => AITestingService.PostReplied (Some "Await it.") |}
  = AITestingService.getSuggestions
      {| AITestingService.enabledServices := ["openai"];
         AITestingService.secrets := fun _ => AITestingService.SecretValue (Some "k");
         AITestingService.post := fun b =>
           match b with
           | AITestingService.openai => AITestingService.PostReplied (Some "Await it.")
           | _ => AITestingService.PostRejected "timeout of 10000ms exceeded"
           end |}.
Proof.
  apply getSuggestions_local; [reflexivity|].
  intros b Hb. split; [reflexivity|].
  destruct b; [discriminate Hb|reflexivity|discriminate Hb].
Defined.

Section PromptFacts.
Import JS AITestingService.

Lemma join_middle (sep x : string) (xs : list string) (y : string) (ys : list string) :
  join sep ((x :: xs) ++ y :: ys)
  = join sep (x :: xs) +:+ sep +:+ join sep (y :: ys).
Proof.
  revert x. induction xs as [|x' xs IH]; intros x; [done|].
  change (join sep ((x :: x' :: xs) ++ y :: ys))
    with (x +:+ sep +:+ join sep ((x' :: xs) ++ y :: ys)).
  rewrite IH.
  change (join sep (x :: x' :: xs)) with (x +:+ sep +:+ join sep (x' :: xs)).
  by rewrite <- !app_assoc'.
Qed.

Lemma join_around (sep x : string) (xs : list string) (f t m r : string)
      (rest : list string) (h : string) :
  join sep ((x :: xs) ++ f :: (t +:+ m) :: r :: rest) +:+ h
  = (join sep (x :: xs) +:+ sep) +:+ (f +:+ sep +:+ t) +:+ m
    +:+ (sep +:+ join sep (r :: rest) +:+ h).
Proof.
  rewrite join_middle.
  change (join sep (f :: (t +:+ m) :: r :: rest))
    with (f +:+ sep +:+ (t +:+ m) +:+ sep +:+ join sep (r :: rest)).
  by rewrite <- !app_assoc'.
Qed.

(** The prompt is the output's first 2000 characters and the truncation
    mark, fenced, between two texts the output has no part in. *)
Lemma prompt_shape (a : Analysis) :
  ∃ pre post, ∀ out,
    createDetailedPrompt a out
    = pre +:+ (fence +:+ TestRunner.nl +:+ substring0 2000 out)
      +:+ (if (2000 <? lengthOf out)%nat
           then TestRunner.nl +:+ "... (truncated)" else "")
      +:+ post.
Proof.
  unfold createDetailedPrompt. cbv zeta.
  match goal with
  | |- ∃ pre post, ∀ out,
         join _ (?a1 :: ?a2 :: ?a3 :: ?a4 :: ?a5 :: ?a6 :: ?a7 :: ?a8 :: ?a9
                 :: ?a10 :: ?f :: _ :: ?r :: ?rest) +:+ ?h = _ =>
      exists (join TestRunner.nl [a1; a2; a3; a4; a5; a6; a7; a8; a9; a10]
              +:+ TestRunner.nl),
             (TestRunner.nl +:+ join TestRunner.nl (r :: rest) +:+ h);
      intros out;
      exact (join_around TestRunner.nl a1 [a2; a3; a4; a5; a6; a7; a8; a9; a10]
                         f _ _ r rest h)
  end.
Qed.

End PromptFacts.

(** X22.  The prompt shows the first 2000 characters of the test output,
    counted as the language counts them (UTF-16 code units), and no more:
    two outputs longer than that which agree on them give the same
    prompt. *)
Theorem createDetailedPrompt_truncates (a : AITestingService.Analysis)
        (out out' : string) :
  2000 < JS.lengthOf out → 2000 < JS.lengthOf out' →
  JS.substring0 2000 out = JS.substring0 2000 out' →
  AITestingService.createDetailedPrompt a out
  = AITestingService.createDetailedPrompt a out'.
Proof.
  intros Hl Hl' Heq.
  destruct (prompt_shape a) as (pre & post & Hshape).
  rewrite !Hshape, Heq.
  apply Nat.ltb_lt in Hl, Hl'. by rewrite Hl, Hl'.
Qed.

Lemma createDetailedPrompt_truncates_witness :
  let a := {| AITestingService.errorCount := 1;
              AITestingService.errorTypes := [("Other", 1)];
              AITestingService.patterns := [];
              AITestingService.severity := ErrorAnalyzer.low;
              AITestingService.context :=
                {| AITestingService.files := ["unknown"];
                   AITestingService.mostCommonError := "FAIL";
                   AITestingService.testOutput := None |} |} in
  AITestingService.createDetailedPrompt a (Notions.filler 2000 +:+ "FAIL: cart")
  = AITestingService.createDetailedPrompt a (Notions.filler 2000 +:+ "ok").
Proof.
  cbv zeta. apply createDetailedPrompt_truncates.
  - vm_compute. lia.
  - vm_compute. lia.
  - vm_compute. reflexivity.
Defined.

(** X23.  Whatever the test output, the prompt holds its first 2000
    characters right after a fence, and is at most 2016 characters longer
    than the prompt of an empty output, characters being counted as the
    language counts them (UTF-16 code units). *)
Theorem createDetailedPrompt_bounded (a : AITestingService.Analysis) (out : string) :
  JS.includes (AITestingService.createDetailedPrompt a out)
              (AITestingService.fence +:+ TestRunner.nl +:+ JS.substring0 2000 out)
    = true
  ∧ JS.lengthOf (AITestingService.createDetailedPrompt a out)
    ≤ JS.lengthOf (AITestingService.createDetailedPrompt a "") + 2016.
Proof.
  destruct (prompt_shape a) as (pre & post & Hshape). rewrite !Hshape. split.
  - apply includes_spec. eexists pre, _. reflexivity.
  - rewrite !lengthOf_app. pose proof (substring0_lengthOf 2000 out).
    assert (JS.lengthOf (if (2000 <? JS.lengthOf out)%nat
                         then TestRunner.nl +:+ "... (truncated)" else "") ≤ 16)
      by (destruct (2000 <? JS.lengthOf out)%nat; vm_compute; lia).
    change (JS.substring0 2000 "") with "".
    change (JS.lengthOf (if (2000 <? JS.lengthOf "")%nat then _ else "")) with 0.
    change (JS.lengthOf "") with 0. lia.
Qed.

Section HintFacts.
Import JS ErrorAnalyzer AITestingService Notions.

Lemma elem_of_block {A} (x : A) (b : bool) (l : list A) :
  x ∈ (if b then l else []) ↔ b = true ∧ x ∈ l.
Proof.
  destruct b; [tauto|]. split; [by intros ?%elem_of_nil|by intros [? _]].
Qed.

Lemma positive_occurs (errors : list TestError) (c : string) :
  positive (categorizeErrorsObject errors) c = true
  ↔ ∃ e, e ∈ errors ∧ getErrorCategory (message e) = c.
Proof.
  unfold positive.
  pose proof (object_count errors c) as Hc. unfold Spec.occurrences in Hc.
  assert (0 < length (filter (fun e => getErrorCategory (message e) = c) errors)
          ↔ ∃ e, e ∈ errors ∧ getErrorCategory (message e) = c) as <-.
  { split.
    - destruct (filter _ errors) as [|e l] eqn:Hf; simpl; [lia|]. intros _.
      assert (e ∈ filter (fun e => getErrorCategory (message e) = c) errors) as He
        by (rewrite Hf; left).
      apply list_elem_of_filter in He as [? ?]. eauto.
    - intros (e & He & Hcat).
      assert (e ∈ filter (fun e => getErrorCategory (message e) = c) errors) as Hin
        by (by apply list_elem_of_filter).
      destruct (filter _ errors); [by apply elem_of_nil in Hin|simpl; lia]. }
  rewrite <- Hc.
  destruct (JSObject.get (categorizeErrorsObject errors) c) as [n|] eqn:Hg; simpl.
  - apply Nat.ltb_lt.
  - split; [done|lia].
Qed.

Lemma someIncludes_spec (needles : list string) (errors : list TestError) :
  someIncludes needles (map (fun e => toLowerCase (message e)) errors) = true
  ↔ someMessage needles errors.
Proof.
  unfold someIncludes, someMessage. rewrite existsb_exists. split.
  - intros (text & Hin & Hex). apply in_map_iff in Hin as (e & <- & He).
    exists e. split; [by apply list_elem_of_In|done].
  - intros (e & He & Hex). exists (toLowerCase (message e)). split; [|done].
    apply in_map_iff. exists e. split; [done|by apply list_elem_of_In].
Qed.

End HintFacts.

Section HintFacts2.
Import JS ErrorAnalyzer AITestingService Notions.

Lemma append_inj_l (p a b : string) : p +:+ a = p +:+ b → a = b.
Proof. induction p as [|c p IH]; simpl; [done|]. intros [= H]. auto. Qed.

Lemma append_inj_r (a b s : string) : a +:+ s = b +:+ s → a = b.
Proof.
  intros H. assert (String.length a = String.length b) as Hlen.
  { apply (f_equal String.length) in H. rewrite !app_length' in H. lia. }
  rewrite <- (take_app_length a s), H, Hlen. apply take_app_length.
Qed.

Lemma hintTitle_inj (name t : string) : hintTitle name = hintTitle t ↔ name = t.
Proof.
  split; [|by intros ->]. unfold hintTitle. intros H.
  apply append_inj_l, append_inj_l in H. by apply append_inj_r in H.
Qed.

Lemma title_in_block (name : string) (b : bool) (t : string) (l : list string) :
  Forall (fun x => String.get 0 x = Some "-"%char) l →
  hintTitle name ∈ (if b then hintTitle t :: l else []) ↔ b = true ∧ name = t.
Proof.
  intros Hl. rewrite elem_of_block, elem_of_cons, hintTitle_inj.
  split; [|tauto]. intros [Hb [Ht|Hin]]; [done|]. exfalso.
  rewrite Forall_forall in Hl. apply Hl in Hin. discriminate Hin.
Qed.

Lemma or_iff (A B C D : Prop) : (A ↔ B) → (C ↔ D) → (A ∨ C ↔ B ∨ D).
Proof. tauto. Qed.

(** Where a heading can stand in the array of hints. *)
Lemma title_in_hints (a : Analysis) (name : string) :
  hintTitle name ∈ hintLines a
  ↔ (positive (errorTypes a) "Syntax Error" = true ∧ name = "SYNTAX ERROR")
    ∨ (positive (errorTypes a) "Type Error" = true ∧ name = "TYPE ERROR")
    ∨ (positive (errorTypes a) "Reference Error" = true ∧ name = "REFERENCE ERROR")
    ∨ (positive (errorTypes a) "Undefined Variable" = true
       ∧ name = "UNDEFINED VARIABLE")
    ∨ (positive (errorTypes a) "Test Assertion" = true ∧ name = "TEST ASSERTION")
    ∨ (listed "Async/Promise related issues" (patterns a) = true
       ∧ name = "ASYNC/PROMISE")
    ∨ (listed "Module import/require issues" (patterns a) = true
       ∧ name = "MODULE IMPORT")
    ∨ (includes (default "" (testOutput (context a))) "jest" = true
       ∧ name = "JEST SPECIFIC")
    ∨ (includes (default "" (testOutput (context a))) "pytest" = true
       ∧ name = "PYTEST SPECIFIC").
Proof.
  unfold hintLines. cbv zeta.
  change (TestRunner.nl +:+ "🔧 SYNTAX ERROR HINTS:") with (hintTitle "SYNTAX ERROR").
  change (TestRunner.nl +:+ "🔧 TYPE ERROR HINTS:") with (hintTitle "TYPE ERROR").
  change (TestRunner.nl +:+ "🔧 REFERENCE ERROR HINTS:")
    with (hintTitle "REFERENCE ERROR").
  change (TestRunner.nl +:+ "🔧 UNDEFINED VARIABLE HINTS:")
    with (hintTitle "UNDEFINED VARIABLE").
  change (TestRunner.nl +:+ "🔧 TEST ASSERTION HINTS:")
    with (hintTitle "TEST ASSERTION").
  change (TestRunner.nl +:+ "🔧 ASYNC/PROMISE HINTS:") with (hintTitle "ASYNC/PROMISE").
  change (TestRunner.nl +:+ "🔧 MODULE IMPORT HINTS:") with (hintTitle "MODULE IMPORT").
  change (TestRunner.nl +:+ "🔧 JEST SPECIFIC HINTS:") with (hintTitle "JEST SPECIFIC").
  change (TestRunner.nl +:+ "🔧 PYTEST SPECIFIC HINTS:")
    with (hintTitle "PYTEST SPECIFIC").
  repeat (etrans; [apply elem_of_app|];
          apply or_iff; [by apply title_in_block; repeat constructor|]).
  by apply title_in_block; repeat constructor.
Qed.

End HintFacts2.

Section HintFacts3.
Import JS ErrorAnalyzer AITestingService Notions.

Lemma listed_app (name : string) (l1 l2 : list string) :
  listed name (l1 ++ l2) = listed name l1 || listed name l2.
Proof. apply existsb_app. Qed.

Lemma listed_pattern (name : string) (hit : bool) (entry : string) :
  listed name (pattern hit entry) = hit && String.eqb name entry.
Proof. destruct hit; simpl; [by rewrite orb_false_r|done]. Qed.

(** The two patterns the hints look for are listed exactly when their
    checks on the messages hit. *)
Lemma findPatterns_listed (errors : list TestError) (found : list string) :
  findPatterns errors = Returns found →
  let messages := map (fun e => toLowerCase (message e)) errors in
  listed "Async/Promise related issues" found
  = someIncludes ["async"; "promise"; "await"] messages
  ∧ listed "Module import/require issues" found
    = someIncludes ["import"; "require"; "module"] messages.
Proof.
  unfold findPatterns. cbv zeta.
  destruct (groupErrorsByFile errors) as [grouped|msg]; [|done].
  intros [= <-]. rewrite !listed_app, !listed_pattern.
  split.
  - repeat match goal with
           | |- context [String.eqb ?a ?b] =>
               let v := eval cbn in (String.eqb a b) in
               change (String.eqb a b) with v
           end.
    by rewrite ?andb_false_r, ?andb_true_r, ?orb_false_r, ?orb_false_l.
  - repeat match goal with
           | |- context [String.eqb ?a ?b] =>
               let v := eval cbn in (String.eqb a b) in
               change (String.eqb a b) with v
           end.
    by rewrite ?andb_false_r, ?andb_true_r, ?orb_false_r, ?orb_false_l.
Qed.

End HintFacts3.

(** X24.  With the category counts of [categorizeErrors], a category that
    has hints of its own gets them exactly when some error falls in it. *)
Theorem hints_follow_categories (errors : list TestError)
        (a : AITestingService.Analysis) (category name : string) :
  AITestingService.errorTypes a = ErrorAnalyzer.categorizeErrorsObject errors →
  (category, name) ∈ Notions.categoryHints →
  Notions.hintTitle name ∈ AITestingService.hintLines a
  ↔ ∃ e, e ∈ errors ∧ ErrorAnalyzer.getErrorCategory (message e) = category.
Proof.
  intros Htypes Hin. rewrite <- positive_occurs, <- Htypes, title_in_hints.
  unfold Notions.categoryHints in Hin.
  repeat match type of Hin with
         | _ ∈ _ :: _ => apply elem_of_cons in Hin as [[= -> ->]|Hin]
         end;
    try (by apply elem_of_nil in Hin);
    (split;
     [ intros H;
       repeat match type of H with
              | _ ∨ _ => destruct H as [H|H]
              end;
       destruct H as [Hb Hname]; first [discriminate Hname | exact Hb]
     | intros Hb ]).
  - left. by split.
  - right; left. by split.
  - do 2 right; left. by split.
  - do 3 right; left. by split.
  - do 4 right; left. by split.
Qed.

Lemma hints_follow_categories_witness :
  let e := {| file := "src/cart.js"; line := 3;
              message := "TypeError: cart.total is not a function";
              type := "jest" |} in
  Notions.hintTitle "TYPE ERROR"
  ∈ AITestingService.hintLines
      {| AITestingService.errorCount := 1;
         AITestingService.errorTypes := [("Type Error", 1)];
         AITestingService.patterns := [];
         AITestingService.severity := ErrorAnalyzer.low;
         AITestingService.context :=
           {| AITestingService.files := ["src/cart.js"];
              AITestingService.mostCommonError
                := "TypeError: cart.total is not a function";
              AITestingService.testOutput := None |} |}
  ↔ ∃ e', e' ∈ [e] ∧ ErrorAnalyzer.getErrorCategory (message e') = "Type Error".
Proof.
  cbv zeta. apply hints_follow_categories.
  - vm_compute. reflexivity.
  - unfold Notions.categoryHints. right. left.
Defined.

(** X25.  With the patterns of [findPatterns], the hints on promises are
    given exactly when some message speaks of async, promise or await, and
    the hints on modules exactly when some message speaks of import,
    require or module, in any case of letters. *)
Theorem hints_follow_patterns (errors : list TestError)
        (a : AITestingService.Analysis) :
  ErrorAnalyzer.findPatterns errors = Returns (AITestingService.patterns a) →
  (Notions.hintTitle "ASYNC/PROMISE" ∈ AITestingService.hintLines a
   ↔ Notions.someMessage ["async"; "promise"; "await"] errors)
  ∧ (Notions.hintTitle "MODULE IMPORT" ∈ AITestingService.hintLines a
     ↔ Notions.someMessage ["import"; "require"; "module"] errors).
Proof.
  intros Hfound. apply findPatterns_listed in Hfound as [Hasync Hmodule].
  rewrite <- !someIncludes_spec, <- Hasync, <- Hmodule, !title_in_hints.
  split;
    (split;
     [ intros H;
       repeat match type of H with
              | _ ∨ _ => destruct H as [H|H]
              end;
       destruct H as [Hb Hname]; first [discriminate Hname | exact Hb]
     | intros Hb ]).
  - do 5 right; left. by split.
  - do 6 right; left. by split.
Qed.

Lemma hints_follow_patterns_witness :
  let e := {| file := "src/cart.js"; line := 3;
              message := "Error: Cannot find module './cart'";
              type := "jest" |} in
  (Notions.hintTitle "ASYNC/PROMISE"
   ∈ AITestingService.hintLines
       {| AITestingService.errorCount := 1;
          AITestingService.errorTypes := [("Module Error", 1)];
          AITestingService.patterns := ["Module import/require issues"];
          AITestingService.severity := ErrorAnalyzer.low;
          AITestingService.context :=
            {| AITestingService.files := ["src/cart.js"];
               AITestingService.mostCommonError
                 := "Error: Cannot find module './cart'";
               AITestingService.testOutput := None |} |}
   ↔ Notions.someMessage ["async"; "promise"; "await"] [e])
  ∧ (Notions.hintTitle "MODULE IMPORT"
     ∈ AITestingService.hintLines
         {| AITestingService.errorCount := 1;
            AITestingService.errorTypes := [("Module Error", 1)];
            AITestingService.patterns := ["Module import/require issues"];
            AITestingService.severity := ErrorAnalyzer.low;
            AITestingService.context :=
              {| AITestingService.files := ["src/cart.js"];
                 AITestingService.mostCommonError
                   := "Error: Cannot find module './cart'";
                 AITestingService.testOutput := None |} |}
     ↔ Notions.someMessage ["import"; "require"; "module"] [e]).
Proof.
  cbv zeta. apply hints_follow_patterns. vm_compute. reflexivity.
Defined.
